(** * The Phil Jackson Triangle Pipeline: a shallow embedding

    This development embeds [extensions/soundchain/src/phil-jackson.ts]
    (the stage registry, [classifyError], [getStartStage],
    [buildStagePrompt], [runPipeline], [quickDiagnose], [deepDiagnose])
    and the depth dispatch of the [warroom_diagnose] tool, and settles
    the properties its specification states about them: it proves them
    where the code bears them out, and shows what the code does instead
    where a run rejects.  The other tools of the plugin and the inbound
    polling of the channel follow.

    Modelling conventions.
    - A JavaScript string is a [string]; each [ascii] stands for one code
      unit in the range U+0000..U+00FF.  [toLowerCase], [trim] and the
      JSON string quoting below are the ECMAScript operations restricted
      to that range, which is closed under all three.  The [chemistry]
      annotations hold a dash outside that range; the engine only copies
      them, so they are carried as the bytes of the literal.
    - The value a model invocation resolves with ([unknown] in the
      source) is a JSON value, [JsValue]: what a JSON service returns.
      A number is carried as its canonical rendering, which is what both
      [String] and [JSON.stringify] print for a finite number.  No
      property of a JSON value is callable, so [String] applied to an
      object that has an own [toString] property finds no method that
      gives a primitive and throws a [TypeError]; a function that can
      throw it returns an [option], [None] being the exception.
    - [Date.now] and [client.ollamaGenerate] are effects on an
      environment that the engine does not implement; they are
      parameters of the section [Engine], and [runPipeline] threads the
      environment through a small state and failure monad.  An awaited
      promise is the sequencing of that monad. *)

From Stdlib Require Import ZArith List Bool Ascii String Lia.
From Stdlib Require Import Numbers.DecimalString.
From Stdlib Require Import Permutation QArith Lqa DecimalNat.
Import ListNotations.

Set Warnings "-register-all".

Local Open Scope list_scope.
Local Open Scope string_scope.
Local Open Scope Z_scope.

(** ** Strings *)

Module JsString.

Definition LF : string := String "010"%char EmptyString.

(** [String.prototype.toLowerCase] on one code unit of U+0000..U+00FF:
    A-Z, and U+00C0..U+00DE apart from the multiplication sign U+00D7,
    move up by 32. *)
Definition lowerChar (c : ascii) : ascii :=
  let n := nat_of_ascii c in
  if ((65 <=? n) && (n <=? 90))%nat then ascii_of_nat (n + 32)
  else if ((192 <=? n) && (n <=? 222) && negb (n =? 215))%nat
       then ascii_of_nat (n + 32)
       else c.

Fixpoint toLowerCase (s : string) : string :=
  match s with
  | EmptyString => EmptyString
  | String c t => String (lowerChar c) (toLowerCase t)
  end.

(** [startsWith]: [k] is a prefix of [s]. *)
Fixpoint startsWith (s k : string) {struct k} : bool :=
  match k, s with
  | EmptyString, _ => true
  | String _ _, EmptyString => false
  | String a k', String b s' => Ascii.eqb a b && startsWith s' k'
  end.

(** [String.prototype.includes]: [k] occurs in [s]. *)
Fixpoint includes (s k : string) : bool :=
  startsWith s k ||
  match s with
  | EmptyString => false
  | String _ t => includes t k
  end.

(** [text.slice(0, n)] for [n >= 0]: the first [n] code units. *)
Fixpoint slice0 (n : nat) (s : string) : string :=
  match n, s with
  | O, _ => EmptyString
  | S _, EmptyString => EmptyString
  | S m, String c t => String c (slice0 m t)
  end.

(** [Array.prototype.join] on strings. *)
Fixpoint join (sep : string) (xs : list string) : string :=
  match xs with
  | [] => EmptyString
  | [x] => x
  | x :: rest => x ++ sep ++ join sep rest
  end.

(** White space and line terminators of U+0000..U+00FF:
    TAB, LF, VT, FF, CR, SP and NBSP. *)
Definition isSpace (c : ascii) : bool :=
  let n := nat_of_ascii c in
  (((9 <=? n) && (n <=? 13)) || (n =? 32) || (n =? 160))%nat.

Fixpoint trimStart (s : string) : string :=
  match s with
  | EmptyString => EmptyString
  | String c t => if isSpace c then trimStart t else s
  end.

Fixpoint trimEnd (s : string) : string :=
  match s with
  | EmptyString => EmptyString
  | String c t =>
      match trimEnd t with
      | EmptyString => if isSpace c then EmptyString else String c EmptyString
      | t' => String c t'
      end
  end.

(** [String.prototype.trim]. *)
Definition trim (s : string) : string := trimEnd (trimStart s).

(** The decimal rendering of a non-negative integer, as a template
    literal prints it. *)
Definition ofNat (n : nat) : string :=
  NilEmpty.string_of_uint (Nat.to_uint n).

(** Substring, prefix and suffix as propositions. *)
Definition Contains (k s : string) : Prop :=
  exists pre post, s = pre ++ k ++ post.

Definition Prefix (k s : string) : Prop := exists post, s = k ++ post.


End JsString.

Import JsString.

(** ** JSON values *)

Inductive JsValue : Type :=
| JNull
| JBool (b : bool)
| JNum (rendering : string)
| JStr (s : string)
| JArr (items : list JsValue)
| JObj (props : list (string * JsValue)).

Module Json.

Definition hexDigit (n : nat) : ascii :=
  if (n <? 10)%nat then ascii_of_nat (48 + n) else ascii_of_nat (87 + n).

(** One code unit inside a JSON string literal (QuoteJSONString). *)
Definition quoteChar (c : ascii) : string :=
  let n := nat_of_ascii c in
  if (n =? 8)%nat then "\b"
  else if (n =? 9)%nat then "\t"
  else if (n =? 10)%nat then "\n"
  else if (n =? 12)%nat then "\f"
  else if (n =? 13)%nat then "\r"
  else if (n =? 34)%nat then String "\" (String "034"%char EmptyString)
  else if (n =? 92)%nat then "\\"
  else if (n <? 32)%nat
       then "\u00" ++ String (hexDigit (n / 16)) (String (hexDigit (n mod 16)) EmptyString)
       else String c EmptyString.

Fixpoint quoteBody (s : string) : string :=
  match s with
  | EmptyString => EmptyString
  | String c t => quoteChar c ++ quoteBody t
  end.

Definition dq : string := String "034"%char EmptyString.

Definition quote (s : string) : string := dq ++ quoteBody s ++ dq.

(** [JSON.stringify(v)] without indentation.  [props] lists an object's
    own properties in enumeration order. *)
Fixpoint stringify (v : JsValue) : string :=
  match v with
  | JNull => "null"
  | JBool true => "true"
  | JBool false => "false"
  | JNum r => r
  | JStr s => quote s
  | JArr items => "[" ++ join "," (map stringify items) ++ "]"
  | JObj props =>
      "{" ++ join "," (map (fun kv => quote (fst kv) ++ ":" ++ stringify (snd kv)) props)
          ++ "}"
  end.

(** Own property lookup, [obj[key]]. *)
Fixpoint getProp (key : string) (props : list (string * JsValue)) : option JsValue :=
  match props with
  | [] => None
  | (k, v) :: rest => if String.eqb k key then Some v else getProp key rest
  end.

(** The values of a list of computations none of which threw. *)
Fixpoint allSome {A : Type} (xs : list (option A)) : option (list A) :=
  match xs with
  | [] => Some []
  | Some x :: rest =>
      match allSome rest with
      | Some ys => Some (x :: ys)
      | None => None
      end
  | None :: _ => None
  end%list.

(** [String(v)]; [None] when the conversion throws a [TypeError].  A
    primitive prints as itself.  An array joins the strings of its items
    with commas, [null] items being empty, and throws when the conversion
    of an item does.  A plain object without an own [toString] property
    prints as the fixed tag of [Object.prototype.toString].  With an own
    [toString] property, which is not callable, the conversion goes on to
    [valueOf]: an own one is not callable either, and the inherited one
    returns the object, which is no primitive; so the conversion
    throws. *)
Fixpoint toString (v : JsValue) : option string :=
  match v with
  | JNull => Some "null"
  | JBool true => Some "true"
  | JBool false => Some "false"
  | JNum r => Some r
  | JStr s => Some s
  | JArr items =>
      option_map (join ",")
        (allSome
           (map (fun x => match x with JNull => Some EmptyString | _ => toString x end)
              items))
  | JObj props =>
      match getProp "toString" props with
      | Some _ => None
      | None => Some "[object Object]"
      end
  end.

End Json.

(** ** Pipeline stage definitions *)

Record PipelineStage : Type := mkStage {
  name : string;
  model : string;
  role : string;
  trigger : string;
  tasks : list string;
  output : string;
  chemistry : string
}.

Definition PIPELINE_STAGES : list PipelineStage := [
  {| name := "syntax_correction";
     model := "falcon:7b";
     role := "Syntax Specialist";
     trigger := "any_syntax_error";
     tasks := [
       "Detect and fix syntax errors (missing >, ;, unterminated regex)";
       "Ensure JSX/TSX validity" ];
     output := "syntax_patch";
     chemistry := "Steph Curry's shooting — precision from deep" |};
  {| name := "logic_validation";
     model := "jmorgan/grok:latest";
     role := "Deep Analyst";
     trigger := "any_type_error";
     tasks := [
       "Detect logic conflicts across tsconfig, next.config.js, dockerfiles";
       "Explain error causes in human-friendly terms";
       "Validate and update type definitions" ];
     output := "validated_fix";
     chemistry := "LeBron — sees the whole court, validates plays" |};
  {| name := "fast_reaction";
     model := "mistral:latest";
     role := "First Responder";
     trigger := "any_build_error";
     tasks := [
       "Scan logs instantly";
       "Apply quick fixes like missing imports and typos";
       "Suggest yarn install if lockfile integrity fails" ];
     output := "quick_fix_patch";
     chemistry := "Curry — fast handles, instant patch" |};
  {| name := "dependency_management";
     model := "gemma:7b";
     role := "Dependency Coordinator";
     trigger := "after_quick_fix_patch";
     tasks := [
       "Validate dependency versions in package.json and lock files";
       "Suggest yarn/pnpm add/remove for missing or conflicting deps" ];
     output := "dependency_patch";
     chemistry := "Draymond — organizes the team, sets the screen" |};
  {| name := "strategic_reasoning";
     model := "mixtral:8x22b";
     role := "Architect";
     trigger := "after_validated_fix";
     tasks := [
       "Analyze project-wide implications of fixes";
       "Suggest architectural or config-level improvements";
       "Future-proof corrections for CI/CD and workspace" ];
     output := "strategic_fix_plan";
     chemistry := "Durant — builds with long-range vision" |};
  {| name := "final_review";
     model := "llama3.1:latest";
     role := "Team Captain";
     trigger := "after_strategic_fix_plan";
     tasks := [
       "Review all fixes for consistency";
       "Ensure build success";
       "Make the final call" ];
     output := "final_patch";
     chemistry := "Jordan — closes with dominance" |};
  {| name := "fallback";
     model := "qwen:7b";
     role := "Backup";
     trigger := "after_final_review_fail";
     tasks := [
       "Provide alternative fixes if primary pipeline fails";
       "Fresh perspective on the problem" ];
     output := "fallback_fix";
     chemistry := "Iguodala — steps up when it matters most" |}
]%list.

(** [PIPELINE_STAGES.length], a JavaScript number. *)
Definition stageCount : Z := Z.of_nat (List.length PIPELINE_STAGES).

(** Array indexing [xs[i]]: [None] is [undefined]. *)
Definition at_index {A : Type} (xs : list A) (i : Z) : option A :=
  if i <? 0 then None else nth_error xs (Z.to_nat i).

(** ** Decision flow *)

Inductive ErrorCategory : Type :=
| syntax | type | build | dependency | complex | unknown.

Definition ErrorCategory_eqb (a b : ErrorCategory) : bool :=
  match a, b with
  | syntax, syntax | type, type | build, build
  | dependency, dependency | complex, complex | unknown, unknown => true
  | _, _ => false
  end.

Definition classifyError (error : string) : ErrorCategory :=
  let lower := toLowerCase error in
  if includes lower "unexpected token" ||
     includes lower "unterminated" ||
     includes lower "missing >" ||
     includes lower "jsx" ||
     includes lower "parsing error"
  then syntax
  else if includes lower "type error" ||
          includes lower "does not exist on type" ||
          includes lower "is not assignable" ||
          includes lower "ts(" ||
          includes lower "cannot find name"
  then type
  else if includes lower "module not found" ||
          includes lower "cannot find module" ||
          includes lower "yarn add" ||
          includes lower "pnpm add" ||
          includes lower "peer dep" ||
          includes lower "version mismatch"
  then dependency
  else if includes lower "build" ||
          includes lower "compile" ||
          includes lower "webpack" ||
          includes lower "next build" ||
          includes lower "tsc"
  then build
  else if includes lower "architecture" ||
          includes lower "refactor" ||
          includes lower "circular" ||
          includes lower "design"
  then complex
  else unknown.

(** Get the starting stage index for an error category. *)
Definition getStartStage (category : ErrorCategory) : Z :=
  match category with
  | syntax => 0
  | type => 1
  | build => 2
  | dependency => 3
  | complex => 4
  | unknown => 2
  end.

(** The classifier as the specification words it: a table of keyword
    lists in priority order, the first row with a keyword occurring in
    the lowered text wins, and no row gives [unknown]. *)
Module ClassifierSpec.

Definition keywordTable : list (ErrorCategory * list string) := [
  (syntax, ["unexpected token"; "unterminated"; "missing >"; "jsx"; "parsing error"]);
  (type, ["type error"; "does not exist on type"; "is not assignable"; "ts(";
          "cannot find name"]);
  (dependency, ["module not found"; "cannot find module"; "yarn add"; "pnpm add";
                "peer dep"; "version mismatch"]);
  (build, ["build"; "compile"; "webpack"; "next build"; "tsc"]);
  (complex, ["architecture"; "refactor"; "circular"; "design"])
]%list.

Definition matchesAny (lower : string) (keywords : list string) : bool :=
  existsb (includes lower) keywords.

Fixpoint firstMatch (lower : string) (table : list (ErrorCategory * list string))
  : ErrorCategory :=
  match table with
  | [] => unknown
  | (c, keywords) :: rest =>
      if matchesAny lower keywords then c else firstMatch lower rest
  end.

Definition classify (text : string) : ErrorCategory :=
  firstMatch (toLowerCase text) keywordTable.

End ClassifierSpec.

(** ** Pipeline execution: results *)

Record StageResult : Type := mkStageResult {
  r_stage : string;
  r_model : string;
  r_role : string;
  r_chemistry : string;
  r_response : JsValue;
  r_durationMs : Z
}.

Record DiagnoseResult : Type := mkDiagnoseResult {
  problem : string;
  category : ErrorCategory;
  stagesRun : list StageResult;
  totalDurationMs : Z
}.

(** ["response" in v], for [v] with [typeof v === "object"] and
    [v !== null]: only a plain object can hold the key. *)
Definition hasResponse (v : JsValue) : bool :=
  match v with
  | JObj props =>
      match Json.getProp "response" props with Some _ => true | None => false end
  | _ => false
  end.

Definition typeofObject (v : JsValue) : bool :=
  match v with
  | JNull | JArr _ | JObj _ => true
  | _ => false
  end.

Definition isNull (v : JsValue) : bool :=
  match v with JNull => true | _ => false end.

(** The text of a response: the expression that [runPipeline] and
    [buildStagePrompt] both evaluate,
    [typeof r === "object" && r !== null && "response" in r
       ? String(r.response) : JSON.stringify(r)];
    [None] when [String] throws. *)
Definition responseText (response : JsValue) : option string :=
  if typeofObject response && negb (isNull response) && hasResponse response
  then match response with
       | JObj props =>
           match Json.getProp "response" props with
           | Some x => Json.toString x
           | None => Some "undefined"
           end
       | _ => Some "undefined"
       end
  else Some (Json.stringify response).

(** ** Prompt construction *)

Fixpoint mapi_from {A B : Type} (f : A -> nat -> B) (i : nat) (xs : list A) : list B :=
  match xs with
  | [] => []
  | x :: rest => f x i :: mapi_from f (S i) rest
  end%list.

(** [xs.map((t, i) => ...)]. *)
Definition mapi {A B : Type} (f : A -> nat -> B) (xs : list A) : list B :=
  mapi_from f 0 xs.

(** [stage.tasks[0]] inside a template literal. *)
Definition firstTask (stage : PipelineStage) : string :=
  match tasks stage with
  | [] => "undefined"
  | t :: _ => t
  end.

Definition closingInstruction : string :=
  "Be concise and actionable. Give specific file paths, line numbers, and code fixes where possible. No fluff.".

Definition noRepeatInstruction : string :=
  "Build on their analysis. Don't repeat what they already found.".

(** [buildStagePrompt]; [None] when the text of a prior result cannot be
    formed, which throws out of the loop over the prior results. *)
Definition buildStagePrompt
  (stage : PipelineStage) (context : string) (previousResults : list StageResult)
  : option string :=
  let taskList :=
    join LF (mapi (fun t i => "  " ++ ofNat (i + 1) ++ ". " ++ t) (tasks stage)) in
  let prompt :=
    "You are the " ++ role stage ++ " in the Phil Jackson Triangle Pipeline." ++ LF ++
    "Your job: " ++ firstTask stage ++ LF ++
    LF ++
    "PROBLEM:" ++ LF ++
    context ++ LF ++
    LF ++
    "YOUR TASKS:" ++ LF ++
    taskList ++ LF ++
    LF in
  let prompt :=
    if (0 <? List.length previousResults)%nat then
      let prompt := prompt ++ "PREVIOUS ANALYSIS FROM THE TEAM:" ++ LF in
      let prompt :=
        fold_left
          (fun (sofar : option string) prev =>
             match sofar with
             | None => None
             | Some prompt =>
                 match responseText (r_response prev) with
                 | None => None
                 | Some text =>
                     Some (prompt ++ "- " ++ r_role prev ++ " (" ++ r_model prev ++ "): "
                                  ++ slice0 500 text ++ LF)
                 end
             end)
          previousResults (Some prompt) in
      option_map (fun prompt => prompt ++ LF ++ noRepeatInstruction ++ LF) prompt
    else Some prompt in
  option_map (fun prompt => prompt ++ LF ++ closingInstruction) prompt.

(** ** Pipeline execution: effects *)

(** How an awaited model invocation settles: it resolves with a value,
    or rejects with an error whose rendering by a template literal is
    [err].  A rejection with a reason that has no rendering (a symbol,
    an object without a primitive form) is not part of this model. *)
Inductive Outcome : Type :=
| Resolved (v : JsValue)
| Rejected (err : string).

(** What makes [runPipeline] reject.  [OutOfFuel] belongs to the model
    only: the loop below is bounded by a fuel that is shown to suffice. *)
Inductive Fault : Type :=
| TypeError (msg : string)
| OutOfFuel.

(** What [String] throws for an object that has no primitive form. *)
Definition cannotConvert : Fault :=
  TypeError "Cannot convert object to primitive value".

Record Call : Type := mkCall {
  call_model : string;
  call_prompt : string;
  call_outcome : Outcome
}.

(** The response stored for a failed invocation,
    [{ error: `Model ${stage.model} unavailable: ${err}` }]. *)
Definition errorMarker (modelRef err : string) : JsValue :=
  JObj [("error", JStr ("Model " ++ modelRef ++ " unavailable: " ++ err))]%list.

Definition contextBlock (roleLabel modelRef text : string) : string :=
  LF ++ LF ++ "--- " ++ roleLabel ++ " (" ++ modelRef ++ ") ---" ++ LF ++ text.

Section Engine.

(** The environment: its state, the clock, and the client's
    [ollamaGenerate]. *)
Variable Env : Type.
Variable dateNow : Env -> Z * Env.
Variable ollamaGenerate : string -> string -> Env -> Outcome * Env.

(** The environment together with the log of the model invocations
    made so far, oldest first.  The log is ghost state. *)
Record World : Type := mkWorld {
  env : Env;
  calls : list Call
}.

(** A computation returns a value or throws, and in either case leaves
    a world behind. *)
Definition M (A : Type) : Type := World -> (Fault * World) + (A * World).

Definition ret {A : Type} (a : A) : M A := fun w => inr (a, w).

Definition bind {A B : Type} (m : M A) (k : A -> M B) : M B :=
  fun w =>
    match m w with
    | inl f => inl f
    | inr (a, w') => k a w'
    end.

Definition throw {A : Type} (f : Fault) : M A := fun w => inl (f, w).

Notation "x <- m ;; k" := (bind m (fun x => k))
  (at level 61, m at next level, right associativity).

(** [Date.now()]. *)
Definition now : M Z :=
  fun w =>
    let (t, e) := dateNow (env w) in
    inr (t, {| env := e; calls := calls w |}).

(** [await client.ollamaGenerate(model, prompt)], with its outcome
    reified: the caller decides what a rejection means. *)
Definition generate (modelRef prompt : string) : M Outcome :=
  fun w =>
    let (o, e) := ollamaGenerate modelRef prompt (env w) in
    inr (o, {| env := e;
               calls := (calls w ++ [mkCall modelRef prompt o])%list |}).

(** The response of a stage: what the [try] block leaves in
    [response]. *)
Definition settle (stage : PipelineStage) (settled : Outcome) : JsValue :=
  match settled with
  | Resolved v => v
  | Rejected err => errorMarker (model stage) err
  end.

(** A computation that may throw a [TypeError], run inside [M]. *)
Definition orThrow {A : Type} (x : option A) : M A :=
  match x with
  | Some a => ret a
  | None => throw cannotConvert
  end.

(** One turn of the loop body of [runPipeline], from the prompt to the
    update of [context]; it yields the new [context] and [stagesRun].
    Only the invocation stands inside the [try]: the text of the response
    is formed after the result is recorded, and when that throws, the
    turn throws. *)
Definition runStage (stage : PipelineStage) (context : string)
  (stagesRun : list StageResult) : M (string * list StageResult) :=
  prompt <- orThrow (buildStagePrompt stage context stagesRun) ;;
  stageStart <- now ;;
  settled <- generate (model stage) prompt ;;
  let response := settle stage settled in
  t <- now ;;
  let durationMs := t - stageStart in
  let result :=
    {| r_stage := name stage;
       r_model := model stage;
       r_role := role stage;
       r_chemistry := chemistry stage;
       r_response := response;
       r_durationMs := durationMs |} in
  let stagesRun := (stagesRun ++ [result])%list in
  text <- orThrow (responseText response) ;;
  let context := context ++ contextBlock (role stage) (model stage) text in
  ret (context, stagesRun).

(** The [for] loop of [runPipeline], entered with its variables [i],
    [context] and [stagesRun].  Besides the turn itself, reading
    [stage.tasks] of a missing registry entry is where the body could
    throw. *)
Fixpoint pipelineLoop (fuel : nat) (maxStages startIdx i : Z)
  (context : string) (stagesRun : list StageResult) : M (list StageResult) :=
  if (i <? maxStages) && (i <? stageCount) then
    match fuel with
    | O => throw OutOfFuel
    | S fuel' =>
        let stageIdx := Z.rem (startIdx + i) stageCount in
        match at_index PIPELINE_STAGES stageIdx with
        | None =>
            throw (TypeError "Cannot read properties of undefined (reading 'tasks')")
        | Some stage =>
            next <- runStage stage context stagesRun ;;
            pipelineLoop fuel' maxStages startIdx (i + 1) (fst next) (snd next)
        end
    end
  else ret stagesRun.

(** Run the Phil Jackson Triangle Pipeline.  [client] is the environment
    of the section; a caller that leaves [maxStages] out passes its
    default, 7. *)
Definition runPipeline (problem : string) (maxStages : Z) : M DiagnoseResult :=
  let category := classifyError problem in
  let startIdx := getStartStage category in
  totalStart <- now ;;
  stagesRun <- pipelineLoop (List.length PIPELINE_STAGES) maxStages startIdx 0 problem [] ;;
  t <- now ;;
  ret {| problem := problem;
         category := category;
         stagesRun := stagesRun;
         totalDurationMs := t - totalStart |}.

(** Quick diagnose: only the most relevant model. *)
Definition quickDiagnose (problem : string) : M DiagnoseResult :=
  runPipeline problem 1.

(** Deep diagnose: all 7 models. *)
Definition deepDiagnose (problem : string) : M DiagnoseResult :=
  runPipeline problem 7.

(** *** The [warroom_diagnose] tool *)

(** The payload that [execute] hands to [json]. *)
Inductive ToolPayload : Type :=
| PayloadError (message : string)
| PayloadResult (result : DiagnoseResult).

Definition stringParam (key : string) (params : list (string * JsValue))
  : option string :=
  match Json.getProp key params with
  | Some (JStr s) => Some s
  | _ => None
  end.

Definition diagnoseExecute (params : list (string * JsValue)) : M ToolPayload :=
  let problem :=
    match stringParam "problem" params with
    | Some s => trim s
    | None => EmptyString
    end in
  if String.eqb problem EmptyString then ret (PayloadError "problem is required.")
  else
    let depth :=
      match stringParam "depth" params with
      | Some s => s
      | None => "standard"
      end in
    result <-
      (if String.eqb depth "quick" then quickDiagnose problem
       else if String.eqb depth "deep" then deepDiagnose problem
       else runPipeline problem 3) ;;
    ret (PayloadResult result).

End Engine.

Arguments mkWorld {Env}.
Arguments env {Env}.
Arguments calls {Env}.
Arguments ret {Env A}.
Arguments bind {Env A B}.
Arguments throw {Env A}.
Arguments orThrow {Env A}.
Arguments now {Env}.
Arguments generate {Env}.
Arguments runStage {Env}.
Arguments pipelineLoop {Env}.
Arguments runPipeline {Env}.
Arguments quickDiagnose {Env}.
Arguments deepDiagnose {Env}.
Arguments diagnoseExecute {Env}.

(** ** Specification-side vocabulary *)

(** The classifier's rule as a relation: [FirstMatch lower table c] when
    [c] is the category of the first row of [table] one of whose keywords
    occurs in [lower], or [unknown] when no row has one. *)
Module ClassifierRel.

Definition Matches (lower : string) (keywords : list string) : Prop :=
  exists k, In k keywords /\ Contains k lower.

Inductive FirstMatch (lower : string)
  : list (ErrorCategory * list string) -> ErrorCategory -> Prop :=
| FirstMatch_none : FirstMatch lower [] unknown
| FirstMatch_here c keywords rest :
    Matches lower keywords ->
    FirstMatch lower ((c, keywords) :: rest) c
| FirstMatch_later c keywords rest c' :
    ~ Matches lower keywords ->
    FirstMatch lower rest c' ->
    FirstMatch lower ((c, keywords) :: rest) c'.

End ClassifierRel.

(** The registry indices of a run that starts at [startIdx] and makes [n]
    turns: [(startIdx + i) mod registrySize] for [i = 0 .. n - 1]. *)
Definition schedule (startIdx : Z) (n : nat) : list Z :=
  map (fun i => (startIdx + Z.of_nat i) mod stageCount) (seq 0 n).

(** The number of turns a budget allows: [min(maxStages, registrySize)],
    and none for a budget below one. *)
Definition turns (maxStages : Z) : nat := Z.to_nat (Z.min maxStages stageCount).

(** The response has a text: forming it does not throw. *)
Definition HasText (v : JsValue) : Prop := exists text, responseText v = Some text.

(** Every value the service resolves with has a text. *)
Definition Textual {Env : Type}
  (ollamaGenerate : string -> string -> Env -> Outcome * Env) : Prop :=
  forall modelRef prompt e v,
    fst (ollamaGenerate modelRef prompt e) = Resolved v -> HasText v.

(** The block that one recorded stage contributes to the context, when
    its response has a text. *)
Definition blockOf (r : StageResult) : option string :=
  option_map (contextBlock (r_role r) (r_model r)) (responseText (r_response r)).

Definition concatAll (xs : list string) : string :=
  fold_right append EmptyString xs.

(** The concatenation of strings none of which is missing. *)
Definition concatSome (xs : list (option string)) : option string :=
  option_map concatAll (Json.allSome xs).

(** The context as the specification describes it: the problem text
    followed by one block per prior stage, in execution order. *)
Definition contextAfter (problemText : string) (prior : list StageResult)
  : option string :=
  option_map (append problemText) (concatSome (map blockOf prior)).

(** The texts of the responses of [rs], one by one. *)
Definition TextsOf (rs : list StageResult) (texts : list string) : Prop :=
  Forall2 (fun r text => responseText (r_response r) = Some text) rs texts.

(** [r] records a run of [stage]. *)
Definition fromStage (stage : PipelineStage) (r : StageResult) : Prop :=
  r_stage r = name stage /\ r_model r = model stage /\
  r_role r = role stage /\ r_chemistry r = chemistry stage.

Fixpoint findStage (stageName : string) (stages : list PipelineStage) (i : Z)
  : option Z :=
  match stages with
  | [] => None
  | s :: rest =>
      if String.eqb (name s) stageName then Some i
      else findStage stageName rest (i + 1)
  end.

(** The registry index of the stage that a result names. *)
Definition stageIndexOf (r : StageResult) : option Z :=
  findStage (r_stage r) PIPELINE_STAGES 0.

(** Equality of results apart from the timing fields. *)
Definition sameStageResult (a b : StageResult) : Prop :=
  r_stage a = r_stage b /\ r_model a = r_model b /\ r_role a = r_role b /\
  r_chemistry a = r_chemistry b /\ r_response a = r_response b.

Definition sameUpToTiming (a b : DiagnoseResult) : Prop :=
  problem a = problem b /\ category a = category b /\
  Forall2 sameStageResult (stagesRun a) (stagesRun b).

(** The history of the completed turns of a run on [problemText]: the
    registry indices visited, the results recorded, the invocations made
    and the context reached.  Each turn invokes its stage's model with
    the prompt built from the context and the results of the turns before
    it, records what the invocation settled to, and appends the block of
    its response text to the context. *)
Inductive History (problemText : string)
  : list Z -> list StageResult -> list Call -> string -> Prop :=
| History_start : History problemText [] [] [] problemText
| History_turn idxs rs cs context idx stage settled duration prompt text :
    History problemText idxs rs cs context ->
    at_index PIPELINE_STAGES idx = Some stage ->
    buildStagePrompt stage context rs = Some prompt ->
    responseText (settle stage settled) = Some text ->
    History problemText
      (idxs ++ [idx])
      (rs ++ [ {| r_stage := name stage;
                  r_model := model stage;
                  r_role := role stage;
                  r_chemistry := chemistry stage;
                  r_response := settle stage settled;
                  r_durationMs := duration |} ])
      (cs ++ [ mkCall (model stage) prompt settled ])
      (context ++ contextBlock (role stage) (model stage) text).

(** A run on [problemText] from [startIdx] that is allowed [budget] turns
    stopped with the invocations [cs]: after [m] completed turns, turn
    [m] built its prompt and invoked its model, the invocation resolved
    with a value that has no text, and nothing was invoked after it. *)
Inductive Stopped (problemText : string) (startIdx : Z) (budget : nat)
  (cs : list Call) : Prop :=
| Stopped_in_turn m rs done context stage prompt v :
    (m < budget)%nat ->
    History problemText (schedule startIdx m) rs done context ->
    at_index PIPELINE_STAGES ((startIdx + Z.of_nat m) mod stageCount) = Some stage ->
    buildStagePrompt stage context rs = Some prompt ->
    responseText v = None ->
    cs = (done ++ [mkCall (model stage) prompt (Resolved v)])%list ->
    Stopped problemText startIdx budget cs.

(** The invocations that a run started in [w] added to the log. *)
Definition newCalls {Env : Type} (w w' : World Env) : list Call :=
  skipn (List.length (calls w)) (calls w').

(** The world that a computation leaves behind, however it ends. *)
Definition worldOf {Env A : Type} (x : (Fault * World Env) + (A * World Env))
  : World Env :=
  match x with
  | inl (_, w) => w
  | inr (_, w) => w
  end.

(** The response that the turn which made the invocation [c] records. *)
Definition responseOf (c : Call) : JsValue :=
  match call_outcome c with
  | Resolved v => v
  | Rejected err => errorMarker (call_model c) err
  end.

(** The line of the prompt that summarises one prior result, when its
    response has a text. *)
Definition summaryLine (prev : StageResult) : option string :=
  option_map
    (fun text => "- " ++ r_role prev ++ " (" ++ r_model prev ++ "): "
                      ++ slice0 500 text ++ LF)
    (responseText (r_response prev)).

(** The line of the prompt that lists task [t], the [i]-th from zero. *)
Definition taskLine (t : string) (i : nat) : string :=
  "  " ++ ofNat (i + 1) ++ ". " ++ t.

(** The part of a prompt that comes before the summary of prior results. *)
Definition promptHead (stage : PipelineStage) (context : string) : string :=
  "You are the " ++ role stage ++ " in the Phil Jackson Triangle Pipeline." ++ LF ++
  "Your job: " ++ firstTask stage ++ LF ++
  LF ++
  "PROBLEM:" ++ LF ++
  context ++ LF ++
  LF ++
  "YOUR TASKS:" ++ LF ++
  join LF (mapi taskLine (tasks stage)) ++ LF ++
  LF.

(** The summary of prior results as the specification describes it: a
    heading, one line per prior result, and the instruction not to repeat
    them. *)
Definition priorSection (previousResults : list StageResult) : option string :=
  option_map
    (fun lines =>
       "PREVIOUS ANALYSIS FROM THE TEAM:" ++ LF ++ lines ++ LF ++ noRepeatInstruction ++ LF)
    (concatSome (map summaryLine previousResults)).

(** The completion of [execute] that belongs to a completion of the
    pipeline: the result becomes the payload. *)
Definition payloadOf {Env : Type} (x : Fault * World Env + DiagnoseResult * World Env)
  : Fault * World Env + ToolPayload * World Env :=
  match x with
  | inl f => inl f
  | inr (r, w) => inr (PayloadResult r, w)
  end.

(** The service is the function [g] of the model reference and the
    prompt: the state of the environment has no part in its answer. *)
Definition Deterministic {Env : Type}
  (ollamaGenerate : string -> string -> Env -> Outcome * Env)
  (g : string -> string -> Outcome) : Prop :=
  forall modelRef prompt e, fst (ollamaGenerate modelRef prompt e) = g modelRef prompt.

(** [c] logs the answer of [g]. *)
Definition AnsweredBy (g : string -> string -> Outcome) (c : Call) : Prop :=
  call_outcome c = g (call_model c) (call_prompt c).

(** [c] logs an answer that the service gave to the very model and
    prompt it names, in some state of the environment. *)
Definition Served {Env : Type}
  (ollamaGenerate : string -> string -> Env -> Outcome * Env) (c : Call) : Prop :=
  exists e, fst (ollamaGenerate (call_model c) (call_prompt c) e) = call_outcome c.

(** The indices of [n] turns from loop counter [i] on. *)
Definition scheduleFrom (startIdx i : Z) (n : nat) : list Z :=
  map (fun k => (startIdx + i + Z.of_nat k) mod stageCount) (seq 0 n).

(** A sample environment: a clock that advances by ten at every reading
    and a service that answers every model but one, which is down. *)
Module Sample.

Definition clock (e : nat) : Z * nat := (Z.of_nat e * 10, S e).

Definition service (modelRef prompt : string) (e : nat) : Outcome * nat :=
  (if String.eqb modelRef "mistral:latest"
   then Rejected "Error: connect ECONNREFUSED"
   else Resolved (JObj [("response", JStr ("ok from " ++ modelRef))]),
   S e).

Definition start : World nat := mkWorld 0%nat [].

Definition later : World nat := mkWorld 41%nat [].

(** A second clock, three units to the reading. *)
Definition slowClock (e : nat) : Z * nat := (Z.of_nat e * 3, S e).

(** A stage and a prior result to build a prompt from. *)
Definition stage : PipelineStage :=
  {| name := "review"; model := "qwen:7b"; role := "Reviewer"; trigger := "manual";
     tasks := ["Read the patch"; "List the risks"]; output := "review";
     chemistry := "bench" |}.

Definition priorResult : StageResult :=
  {| r_stage := "syntax_correction"; r_model := "falcon:7b";
     r_role := "Syntax Specialist"; r_chemistry := "precision";
     r_response := JObj [("response", JStr "done")]; r_durationMs := 5 |}.

(** What [service] answers, whatever the state. *)
Definition answer (modelRef prompt : string) : Outcome :=
  fst (service modelRef prompt 0%nat).

(** Parameters of a [warroom_diagnose] call. *)
Definition params (depth : string) : list (string * JsValue) :=
  [("problem", JStr "  Build failed: tsc  "); ("depth", JStr depth)].

End Sample.

(** A second sample environment: services that answer with a JSON
    document whose [response] field is an object with a [toString]
    property of its own. *)
Module Exotic.

Definition reply : JsValue := JObj [("response", JObj [("toString", JStr "x")])].

(** Every model answers with [reply]. *)
Definition service (modelRef prompt : string) (e : nat) : Outcome * nat :=
  (Resolved reply, S e).

(** The mistral model is down, every other model answers with [reply]. *)
Definition flaky (modelRef prompt : string) (e : nat) : Outcome * nat :=
  (if String.eqb modelRef "mistral:latest"
   then Rejected "Error: connect ECONNREFUSED"
   else Resolved reply,
   S e).

(** What [service] answers, whatever the state. *)
Definition answer (modelRef prompt : string) : Outcome := Resolved reply.

(** A prior result that holds [reply]. *)
Definition priorResult : StageResult :=
  {| r_stage := "syntax_correction"; r_model := "falcon:7b";
     r_role := "Syntax Specialist"; r_chemistry := "precision";
     r_response := reply; r_durationMs := 5 |}.

End Exotic.

(** ** Further vocabulary for the executor *)

(** The name of the registry entry at an index. *)
Definition stageNameAt (idx : Z) : string :=
  match at_index PIPELINE_STAGES idx with
  | Some stage => name stage
  | None => EmptyString
  end.

(** The sum of the stage durations of a result. *)
Definition sumDurations (rs : list StageResult) : Z :=
  fold_right Z.add 0 (map r_durationMs rs).

(** The clock never runs backwards: [tick] gives the time an environment
    has reached, a reading of the clock lies between the time before and
    the time after it, and a model invocation does not turn time back. *)
Definition MonotoneClock {Env : Type}
  (dateNow : Env -> Z * Env)
  (ollamaGenerate : string -> string -> Env -> Outcome * Env)
  (tick : Env -> Z) : Prop :=
  (forall e, tick e <= fst (dateNow e) <= tick (snd (dateNow e))) /\
  (forall m p e, tick e <= tick (snd (ollamaGenerate m p e))).

(** A clock for the sample environment of [Sample]. *)
Module Demo.

Definition tick (e : nat) : Z := Z.of_nat e * 10.

End Demo.

(** ** Reading configuration values *)

Module Js.

(** [v.key] for a value [v] that is not nullish and a key that no
    prototype defines: only an object can hold it; [None] is [undefined]. *)
Definition field (key : string) (v : JsValue) : option JsValue :=
  match v with
  | JObj props => Json.getProp key props
  | _ => None
  end.

(** [v ?? {}]. *)
Definition orEmptyObject (v : option JsValue) : JsValue :=
  match v with
  | None | Some JNull => JObj []
  | Some x => x
  end.

(** Truthiness; the number zero renders as ["0"]. *)
Definition truthy (v : option JsValue) : bool :=
  match v with
  | None | Some JNull => false
  | Some (JBool b) => b
  | Some (JNum r) => negb (String.eqb r "0")
  | Some (JStr s) => negb (String.eqb s EmptyString)
  | Some (JArr _) | Some (JObj _) => true
  end.

(** [typeof v === "string" && v ? v : fallback]. *)
Definition nonEmptyStringOr (v : option JsValue) (fallback : string) : string :=
  match v with
  | Some (JStr s) => if String.eqb s EmptyString then fallback else s
  | _ => fallback
  end.

(** Every code unit of [s] satisfies [P]. *)
Fixpoint allChars (P : ascii -> bool) (s : string) : bool :=
  match s with
  | EmptyString => true
  | String c t => P c && allChars P t
  end.

(** The own-property names of [Object.prototype]: reading one of them
    from a plain object that does not define it gives an inherited,
    truthy value. *)
Definition objectPrototypeKeys : list string :=
  ["constructor"; "__defineGetter__"; "__defineSetter__"; "hasOwnProperty";
   "__lookupGetter__"; "__lookupSetter__"; "isPrototypeOf"; "propertyIsEnumerable";
   "toString"; "valueOf"; "__proto__"; "toLocaleString"].

Inductive Lookup (A : Type) : Type :=
| Own (a : A)
| Inherited
| Absent.

Arguments Own {A}.
Arguments Inherited {A}.
Arguments Absent {A}.

Fixpoint assoc {A : Type} (key : string) (props : list (string * A)) : option A :=
  match props with
  | [] => None
  | (k, a) :: rest => if String.eqb k key then Some a else assoc key rest
  end.

(** [obj[key]] on an object literal whose own properties are [props]. *)
Definition lookupObject {A : Type} (props : list (string * A)) (key : string)
  : Lookup A :=
  match assoc key props with
  | Some a => Own a
  | None => if existsb (String.eqb key) objectPrototypeKeys then Inherited else Absent
  end.

End Js.

(** ** The other tools of the plugin *)

(** How [execute] of a tool settles: with the payload it hands to
    [json], an error payload or a response, or by rejecting. *)
Inductive ToolSettled : Type :=
| ToolError (message : string)
| ToolResponse (response : JsValue)
| ToolRejected (err : string).

(** [typeof params[key] === "string" ? params[key].trim() : ""]. *)
Definition trimmedParam (key : string) (params : list (string * JsValue)) : string :=
  match stringParam key params with
  | Some s => trim s
  | None => EmptyString
  end.

(** An entry of the [SPECIALISTS] table of the War Room client, which
    the tools only read: its focus and its triggers. *)
Record Specialist : Type := mkSpecialist {
  focus : string;
  triggers : list string
}.

(** How [execute] of the specialist tool settles: as any tool does, with
    the routing in the payload of a response, or by a call that leaves
    the declared types (a model reference that is not a string). *)
Inductive SpecialistSettled : Type :=
| SpecialistError (message : string)
| SpecialistAnswer (specialist focusText modelRef : string) (response : JsValue)
| SpecialistRejected (err : string)
| SpecialistIllTyped.

(** The [modelMap] of the specialist tool. *)
Definition modelMap : list (string * string) :=
  [("code-simplifier", "qwen:7b");
   ("dex-inspector", "llama3.1:latest");
   ("helix-validator", "jmorgan/grok:latest");
   ("ipfs-auditor", "mistral:latest");
   ("mobile-detective", "gemma:7b");
   ("verify-app", "mistral:latest");
   ("wallet-debugger", "llama3.1:latest")].

Definition specialistPrompt (specialist : string) (spec : Specialist) (problemText : string)
  : string :=
  "You are the " ++ specialist ++ " specialist for SoundChain." ++ LF ++
  "Your focus: " ++ focus spec ++ LF ++
  "Known triggers: " ++ join ", " (triggers spec) ++ LF ++
  LF ++
  "PROBLEM:" ++ LF ++
  problemText ++ LF ++
  LF ++
  "Analyze this issue within your domain. Be specific: file paths, line numbers, code fixes, commands to run. No fluff.".

Section Tools.

Variable Env : Type.
Variable ollamaGenerate : string -> string -> Env -> Outcome * Env.

(** The [SPECIALISTS] table, own properties in enumeration order. *)
Variable SPECIALISTS : list (string * Specialist).

(** [await wr.ollamaGenerate(model, prompt)] outside any [try]: the
    invocation is logged and its outcome handed on. *)
Definition invoke (modelRef prompt : string) (w : World Env) : Outcome * World Env :=
  let (o, e) := ollamaGenerate modelRef prompt (env w) in
  (o, {| env := e; calls := (calls w ++ [mkCall modelRef prompt o])%list |}).

(** [execute] of the [warroom_ollama] tool. *)
Definition ollamaDirectExecute (params : list (string * JsValue)) (w : World Env)
  : ToolSettled * World Env :=
  let modelRef := trimmedParam "model" params in
  let prompt := trimmedParam "prompt" params in
  if String.eqb modelRef EmptyString then (ToolError "model is required.", w)
  else if String.eqb prompt EmptyString then (ToolError "prompt is required.", w)
  else
    let (o, w') := invoke modelRef prompt w in
    match o with
    | Resolved v => (ToolResponse v, w')
    | Rejected err => (ToolRejected err, w')
    end.

(** [execute] of the [warroom_specialist] tool. *)
Definition specialistExecute (params : list (string * JsValue)) (w : World Env)
  : SpecialistSettled * World Env :=
  let specialist := trimmedParam "specialist" params in
  let problemText := trimmedParam "problem" params in
  if String.eqb specialist EmptyString then (SpecialistError "specialist is required.", w)
  else if String.eqb problemText EmptyString then (SpecialistError "problem is required.", w)
  else
    match Js.lookupObject SPECIALISTS specialist with
    | Js.Absent =>
        (SpecialistError
           ("Unknown specialist '" ++ specialist ++ "'. Available: "
              ++ join ", " (map fst SPECIALISTS)), w)
    | Js.Inherited =>
        (SpecialistRejected
           "TypeError: Cannot read properties of undefined (reading 'join')", w)
    | Js.Own spec =>
        match Js.lookupObject modelMap specialist with
        | Js.Inherited => (SpecialistIllTyped, w)
        | found =>
            let modelRef :=
              match found with
              | Js.Own m => m
              | _ => "mistral:latest"
              end in
            let prompt := specialistPrompt specialist spec problemText in
            let (o, w') := invoke modelRef prompt w in
            match o with
            | Resolved v => (SpecialistAnswer specialist (focus spec) modelRef v, w')
            | Rejected err => (SpecialistRejected err, w')
            end
        end
    end.

End Tools.

Arguments invoke {Env}.
Arguments ollamaDirectExecute {Env}.
Arguments specialistExecute {Env}.

(** *** The search tool *)

(** The parameters of [soundchain_search] as [execute] reads them:
    [query] when it is a string and [limit] when it is a number, a
    finite one as the numbers of a JSON document are. *)
Record SearchParams : Type := mkSearchParams {
  sp_query : option string;
  sp_limit : option Q
}.

(** [Math.max] and [Math.min] on finite numbers. *)
Definition mathMax (a b : Q) : Q := if Qle_bool a b then b else a.
Definition mathMin (a b : Q) : Q := if Qle_bool a b then a else b.

(** What [execute] of the search tool does before it calls the API:
    the error message it returns, or the arguments of [api.searchTracks]. *)
Definition searchArguments (params : SearchParams) : string + (string * Q) :=
  let query := match sp_query params with Some s => trim s | None => EmptyString end in
  if String.eqb query EmptyString || (String.length query <? 2)%nat
  then inl "Search query must be at least 2 characters."
  else
    let limit :=
      match sp_limit params with
      | Some l => mathMin (mathMax l 1%Q) 50%Q
      | None => 10%Q
      end in
    inr (query, limit).

(** *** The configuration that [register] resolves *)

Record SoundChainConfig : Type := mkSoundChainConfig {
  sc_apiUrl : string;
  sc_agentName : string;
  sc_agentWallet : option string
}.

Record WarRoomConfig : Type := mkWarRoomConfig {
  scidWorkerUrl : string;
  ollamaUrl : string
}.

Definition resolvePluginConfig (pluginConfig : option JsValue)
  : SoundChainConfig * WarRoomConfig :=
  let cfg := Js.orEmptyObject pluginConfig in
  ({| sc_apiUrl := Js.nonEmptyStringOr (Js.field "apiUrl" cfg) "https://soundchain.io";
      sc_agentName := Js.nonEmptyStringOr (Js.field "agentName" cfg) "openclaw-agent";
      sc_agentWallet :=
        match Js.field "agentWallet" cfg with
        | Some (JStr s) => if String.eqb s EmptyString then None else Some s
        | _ => None
        end |},
   {| scidWorkerUrl :=
        Js.nonEmptyStringOr (Js.field "scidWorkerUrl" cfg) "http://localhost:8787";
      ollamaUrl := Js.nonEmptyStringOr (Js.field "ollamaUrl" cfg) "http://localhost:11434" |}).

(** ** The channel plugin *)

Module Channel.

Definition DEFAULT_ACCOUNT_ID : string := "default".

Definition MAX_SEEN_IDS : Z := 5000.

Record ResolvedSoundChainAccount : Type := mkAccount {
  accountId : string;
  name : string;
  enabled : bool;
  configured : bool;
  apiUrl : string;
  apiToken : string
}.

Definition extractChannelConfig (cfg : JsValue) : JsValue :=
  let channels := Js.orEmptyObject (Js.field "channels" cfg) in
  Js.orEmptyObject (Js.field "soundchain" channels).

Definition resolveAccount (cfg : JsValue) (account : option string)
  : ResolvedSoundChainAccount :=
  let sc := extractChannelConfig cfg in
  let url := Js.nonEmptyStringOr (Js.field "apiUrl" sc) "https://api.soundchain.io/graphql" in
  let token := match Js.field "apiToken" sc with Some (JStr s) => s | _ => EmptyString end in
  let accountName := Js.nonEmptyStringOr (Js.field "accountName" sc) "SoundChain" in
  {| accountId := match account with Some a => a | None => DEFAULT_ACCOUNT_ID end;
     name := accountName;
     enabled := negb (String.eqb token EmptyString);
     configured := negb (String.eqb token EmptyString);
     apiUrl := url;
     apiToken := token |}.

(** [config.listAccountIds]. *)
Definition listAccountIds (cfg : JsValue) : list string :=
  let sc := extractChannelConfig cfg in
  if Js.truthy (Js.field "apiToken" sc) then [DEFAULT_ACCOUNT_ID] else [].

(** [messaging.normalizeTarget]. *)
Definition normalizeTarget (target : string) : string := trim target.

Definition isHexDigit (c : ascii) : bool :=
  let n := nat_of_ascii c in
  (((48 <=? n) && (n <=? 57)) || ((97 <=? n) && (n <=? 102))
   || ((65 <=? n) && (n <=? 70)))%nat.

(** A match of [^[0-9a-fA-F]{n}$]: [n] hex digits and then the end. *)
Fixpoint matchHexTimes (n : nat) (s : string) : bool :=
  match n, s with
  | O, EmptyString => true
  | O, String _ _ => false
  | S _, EmptyString => false
  | S m, String c t => isHexDigit c && matchHexTimes m t
  end.

(** [messaging.targetResolver.looksLikeId]. *)
Definition looksLikeId (input : string) : bool :=
  let trimmed := trim input in
  matchHexTimes 24 trimmed.

(** *** Inbound polling *)

Record ChatMessage : Type := mkChatMessage {
  cm_id : option string;
  cm_message : option string
}.

Record Profile : Type := mkProfile {
  pf_id : string;
  pf_displayName : option string;
  pf_handle : option string
}.

Record Chat : Type := mkChat {
  chat_id : string;
  chat_profile : option Profile;
  chat_lastMessage : option ChatMessage
}.

(** A [Set<string>] is the list of its elements in insertion order. *)
Definition setHas (x : string) (s : list string) : bool := existsb (String.eqb x) s.

Definition setAdd (x : string) (s : list string) : list string :=
  if setHas x s then s else (s ++ [x])%list.

Definition setDelete (x : string) (s : list string) : list string :=
  filter (fun y => negb (String.eqb y x)) s.

(** [chat.lastMessage?.id] when it is truthy. *)
Definition lastMessageId (chat : Chat) : option string :=
  match chat_lastMessage chat with
  | Some msg =>
      match cm_id msg with
      | Some i => if String.eqb i EmptyString then None else Some i
      | None => None
      end
  | None => None
  end.

(** The seeding loop of [startAccount], from an empty set. *)
Definition seedSeen (chats : list Chat) : list string :=
  fold_left
    (fun seen chat =>
       match lastMessageId chat with
       | Some i => setAdd i seen
       | None => seen
       end)
    chats [].

(** The cap on the seen ids: beyond [MAX_SEEN_IDS], the entries at the
    front of [Array.from(seenIds)] are deleted. *)
Definition capSeen (seenIds : list string) : list string :=
  if MAX_SEEN_IDS <? Z.of_nat (List.length seenIds) then
    let entries := seenIds in
    fold_left (fun s x => setDelete x s)
      (firstn (Z.to_nat (Z.of_nat (List.length entries) - MAX_SEEN_IDS)) entries)
      seenIds
  else seenIds.

Definition senderOf (chat : Chat) : string :=
  match chat_profile chat with
  | Some pf =>
      match pf_displayName pf with
      | Some d => d
      | None => match pf_handle pf with Some h => h | None => "unknown" end
      end
  | None => "unknown"
  end.

Definition logLine (account : string) (chat : Chat) (msg : ChatMessage) : string :=
  let preview := match cm_message msg with Some m => slice0 80 m | None => EmptyString end in
  let len := match cm_message msg with Some m => String.length m | None => 0%nat end in
  "[" ++ account ++ "] New DM from " ++ senderOf chat ++ ": " ++ preview
      ++ (if (80 <? len)%nat then "..." else EmptyString).

(** One turn of the loop over the chats of a poll: the seen ids and the
    lines logged so far, before and after. *)
Definition processChat (account : string) (st : list string * list string) (chat : Chat)
  : list string * list string :=
  let (seenIds, logged) := st in
  match chat_lastMessage chat with
  | None => st
  | Some msg =>
      match cm_id msg with
      | None => st
      | Some i =>
          if String.eqb i EmptyString || setHas i seenIds then st
          else
            let seenIds := capSeen (setAdd i seenIds) in
            (seenIds, (logged ++ [logLine account chat msg])%list)
      end
  end.

(** The body of a poll once [getChats] has answered. *)
Definition pollChats (account : string) (chats : list Chat) (seenIds : list string)
  : list string * list string :=
  fold_left (processChat account) chats (seenIds, []).

End Channel.

(** Samples for the tools and the channel. *)
Module DemoTools.

Definition specialists : list (string * Specialist) :=
  [("wallet-debugger",
    {| focus := "Wallet connection"; triggers := ["balance shows 0"; "session lost"] |})].

Definition specialistParams : list (string * JsValue) :=
  [("specialist", JStr " wallet-debugger ");
   ("problem", JStr "Balance shows 0 after connect")].

Definition searchParams : SearchParams :=
  {| sp_query := Some " lo-fi "; sp_limit := Some (200 # 1) |}.

(** A call of [warroom_ollama] with a blank model and no prompt. *)
Definition blankParams : list (string * JsValue) :=
  [("model", JStr "  "); ("prompt", JNull)].

(** A plugin configuration that names a server and leaves the agent
    name empty. *)
Definition pluginConfig : JsValue :=
  JObj [("ollamaUrl", JStr "http://10.0.0.5:11434"); ("agentName", JStr EmptyString)].

Definition chat (i : string) : Channel.Chat :=
  Channel.mkChat "chat" None (Some (Channel.mkChatMessage (Some i) (Some "hello"))).

Definition chats : list Channel.Chat := [chat "m1"; chat "m2"; chat "m1"].

(** More chats than the cap on the seen ids, each with an id of its own. *)
Definition manyIds : list string :=
  map (fun n => String "m" (ofNat n)) (seq 0 (Z.to_nat 5001)).

Definition manyChats : list Channel.Chat := map chat manyIds.

End DemoTools.

(** * Strings: facts *)

Lemma append_assoc (a b c : string) : (a ++ b) ++ c = a ++ b ++ c.
Proof. induction a as [|x a IH]; simpl; [reflexivity | now rewrite IH]. Qed.

Lemma append_nil_r (a : string) : a ++ EmptyString = a.
Proof. induction a as [|x a IH]; simpl; [reflexivity | now rewrite IH]. Qed.

Lemma length_append (a b : string) :
  String.length (a ++ b) = (String.length a + String.length b)%nat.
Proof. induction a as [|x a IH]; simpl; [reflexivity | now rewrite IH]. Qed.

Lemma Contains_refl (s : string) : Contains s s.
Proof. exists EmptyString, EmptyString. simpl. now rewrite append_nil_r. Qed.

Lemma Contains_append_l (k a b : string) : Contains k a -> Contains k (a ++ b).
Proof.
  intros (pre & post & ->). exists pre, (post ++ b).
  now rewrite !append_assoc.
Qed.

Lemma Contains_append_r (k a b : string) : Contains k b -> Contains k (a ++ b).
Proof.
  intros (pre & post & ->). exists (a ++ pre), post.
  now rewrite !append_assoc.
Qed.

Lemma Contains_trans (a b c : string) : Contains a b -> Contains b c -> Contains a c.
Proof.
  intros (p1 & q1 & ->) (p2 & q2 & ->).
  exists (p2 ++ p1), (q1 ++ q2). now rewrite !append_assoc.
Qed.

Lemma startsWith_spec (s k : string) : startsWith s k = true <-> Prefix k s.
Proof.
  revert s. induction k as [|a k IH]; intros s.
  - simpl. split; [intros _; now exists s | reflexivity].
  - destruct s as [|b s]; simpl.
    + split; [discriminate | intros (post & H); discriminate].
    + rewrite andb_true_iff, IH. split.
      * intros (Hab & post & ->). apply Ascii.eqb_eq in Hab. subst.
        now exists post.
      * intros (post & H). injection H as -> ->. split.
        -- apply Ascii.eqb_refl.
        -- now exists post.
Qed.

(** [includes] decides occurrence. *)
Lemma includes_spec (s k : string) : includes s k = true <-> Contains k s.
Proof.
  induction s as [|c t IH].
  - simpl. rewrite orb_false_r, startsWith_spec. split.
    + intros (post & H). exists EmptyString, post. exact H.
    + intros (pre & post & H). destruct pre; [now exists post | discriminate].
  - simpl. rewrite orb_true_iff, startsWith_spec, IH. split.
    + intros [(post & H) | (pre & post & H)].
      * exists EmptyString, post. exact H.
      * exists (String c pre), post. simpl. now rewrite H.
    + intros (pre & post & H). destruct pre as [|x pre]; simpl in H.
      * left. now exists post.
      * right. injection H as _ ->. now exists pre, post.
Qed.

Lemma lowerChar_idem (c : ascii) : lowerChar (lowerChar c) = lowerChar c.
Proof.
  destruct c as [[] [] [] [] [] [] [] []]; reflexivity.
Qed.

Lemma toLowerCase_idem (s : string) : toLowerCase (toLowerCase s) = toLowerCase s.
Proof.
  induction s as [|c t IH]; simpl; [reflexivity|].
  now rewrite lowerChar_idem, IH.
Qed.

(** * The classifier *)

Lemma matchesAny_spec (lower : string) (keywords : list string) :
  ClassifierSpec.matchesAny lower keywords = true <->
  ClassifierRel.Matches lower keywords.
Proof.
  unfold ClassifierSpec.matchesAny, ClassifierRel.Matches.
  rewrite existsb_exists. split; intros (k & Hin & H); exists k; split; auto;
    now apply includes_spec.
Qed.

Lemma firstMatch_sound (lower : string) (table : list (ErrorCategory * list string)) :
  ClassifierRel.FirstMatch lower table (ClassifierSpec.firstMatch lower table).
Proof.
  induction table as [|[c keywords] rest IH]; simpl.
  - constructor.
  - destruct (ClassifierSpec.matchesAny lower keywords) eqn:E.
    + apply ClassifierRel.FirstMatch_here. now apply matchesAny_spec.
    + apply ClassifierRel.FirstMatch_later; [|exact IH].
      intros H. apply matchesAny_spec in H. congruence.
Qed.

Lemma FirstMatch_functional lower table c1 c2 :
  ClassifierRel.FirstMatch lower table c1 ->
  ClassifierRel.FirstMatch lower table c2 -> c1 = c2.
Proof.
  induction 1; intros H2; inversion H2; subst; auto; contradiction.
Qed.

Lemma classifyError_table (s : string) :
  classifyError s = ClassifierSpec.classify s.
Proof.
  unfold classifyError, ClassifierSpec.classify, ClassifierSpec.keywordTable.
  cbn [ClassifierSpec.firstMatch ClassifierSpec.matchesAny existsb].
  rewrite !orb_false_r, <- !orb_assoc. reflexivity.
Qed.

Lemma firstMatch_no_keyword (lower : string) table :
  (forall c keywords k, In (c, keywords) table -> In k keywords -> ~ Contains k lower) ->
  ClassifierSpec.firstMatch lower table = unknown.
Proof.
  induction table as [|[c keywords] rest IH]; intros H; simpl; [reflexivity|].
  destruct (ClassifierSpec.matchesAny lower keywords) eqn:E.
  - apply matchesAny_spec in E. destruct E as (k & Hin & Hk).
    exfalso. eapply H; [left; reflexivity | exact Hin | exact Hk].
  - apply IH. intros c' kws k Hin. apply (H c' kws k). now right.
Qed.

Lemma classifyError_no_keyword (s : string) :
  (forall c keywords k,
      In (c, keywords) ClassifierSpec.keywordTable -> In k keywords ->
      ~ Contains k (toLowerCase s)) ->
  classifyError s = unknown.
Proof.
  intros H. rewrite classifyError_table. now apply firstMatch_no_keyword.
Qed.

(** C3: [classifyError] is a function of the text alone, total by
    construction, that lowers the text and looks for the keywords of the
    fixed table as substrings, row by row in the order syntax, type,
    dependency, build, complex.  It returns the category of the first row
    with a keyword that occurs (nothing is weighed or counted), it gives
    the same answer for texts that differ only in letter case, and it
    returns [unknown] when no keyword occurs, as for the empty text. *)
Theorem classifyError_first_matching_category (s : string) :
  map fst ClassifierSpec.keywordTable = [syntax; type; dependency; build; complex] /\
  classifyError s = ClassifierSpec.classify s /\
  ClassifierRel.FirstMatch (toLowerCase s) ClassifierSpec.keywordTable (classifyError s) /\
  (forall c, ClassifierRel.FirstMatch (toLowerCase s) ClassifierSpec.keywordTable c ->
             classifyError s = c) /\
  (forall s', toLowerCase s' = toLowerCase s -> classifyError s' = classifyError s) /\
  ((forall c keywords k,
       In (c, keywords) ClassifierSpec.keywordTable -> In k keywords ->
       ~ Contains k (toLowerCase s)) ->
   classifyError s = unknown) /\
  classifyError EmptyString = unknown.
Proof.
  assert (Hrel : ClassifierRel.FirstMatch (toLowerCase s) ClassifierSpec.keywordTable
                   (classifyError s)).
  { rewrite classifyError_table. apply firstMatch_sound. }
  repeat split.
  - apply classifyError_table.
  - exact Hrel.
  - intros c Hc. eapply FirstMatch_functional; eassumption.
  - intros s' Hs'. rewrite !classifyError_table.
    unfold ClassifierSpec.classify. now rewrite Hs'.
  - apply classifyError_no_keyword.
Qed.

(** Texts that differ only in case, and a text whose lower-priority
    keyword loses to a higher-priority one. *)
Lemma classifyError_first_matching_category_witness :
  classifyError "JSX parsing ERROR" = classifyError "jsx Parsing error" /\
  classifyError "Build failed: Cannot find module 'foo'" = dependency.
Proof.
  split.
  - destruct (classifyError_first_matching_category "jsx Parsing error")
      as (_ & _ & _ & _ & Hcase & _).
    apply Hcase. reflexivity.
  - destruct (classifyError_first_matching_category
                "Build failed: Cannot find module 'foo'")
      as (_ & _ & _ & Hfirst & _).
    apply Hfirst. vm_compute.
    apply ClassifierRel.FirstMatch_later.
    { intros (k & Hin & Hk). apply includes_spec in Hk.
      simpl in Hin. decompose [or] Hin; subst; try discriminate; contradiction. }
    apply ClassifierRel.FirstMatch_later.
    { intros (k & Hin & Hk). apply includes_spec in Hk.
      simpl in Hin. decompose [or] Hin; subst; try discriminate; contradiction. }
    apply ClassifierRel.FirstMatch_here.
    exists "cannot find module". split; [simpl; tauto|].
    apply includes_spec. reflexivity.
Defined.

(** * The stage selector *)

Lemma stageCount_eq : stageCount = 7.
Proof. reflexivity. Qed.

(** C5: [getStartStage] is defined on each of the six categories, its
    value is an index of the registry, and it is the table syntax 0,
    type 1, build 2, dependency 3, complex 4, unknown 2; the empty text,
    like every text in which no keyword occurs, is classified [unknown]
    and so starts at index 2. *)
Theorem getStartStage_table (c : ErrorCategory) (s : string) :
  0 <= getStartStage c < stageCount /\
  map getStartStage [syntax; type; build; dependency; complex; unknown]
    = [0; 1; 2; 3; 4; 2] /\
  classifyError EmptyString = unknown /\
  getStartStage (classifyError EmptyString) = 2 /\
  ((forall c' keywords k,
       In (c', keywords) ClassifierSpec.keywordTable -> In k keywords ->
       ~ Contains k (toLowerCase s)) ->
   classifyError s = unknown /\ getStartStage (classifyError s) = 2).
Proof.
  repeat split; try reflexivity.
  - destruct c; simpl; lia.
  - destruct c; rewrite stageCount_eq; simpl; lia.
  - now apply classifyError_no_keyword.
  - rewrite (classifyError_no_keyword s H). reflexivity.
Qed.


(** * The prompt builder *)

Ltac in_chain :=
  match goal with
  | |- Contains ?x ?x => apply Contains_refl
  | |- Contains ?x (?x ++ _) => apply Contains_append_l, Contains_refl
  | |- Contains ?x (_ ++ _) => apply Contains_append_r; in_chain
  end.





Lemma concatAll_contains (x : string) (xs : list string) :
  In x xs -> Contains x (concatAll xs).
Proof.
  induction xs as [|y ys IH]; intros Hin; [contradiction|]. simpl.
  destruct Hin as [-> | Hin].
  - apply Contains_append_l, Contains_refl.
  - apply Contains_append_r. now apply IH.
Qed.

Lemma concatAll_app (xs ys : list string) :
  concatAll (xs ++ ys)%list = concatAll xs ++ concatAll ys.
Proof.
  induction xs as [|x xs IH]; simpl; [reflexivity|].
  now rewrite IH, append_assoc.
Qed.

(** ** Lists of computations that may throw *)

Lemma allSome_cons {A : Type} (x : option A) (xs : list (option A)) :
  Json.allSome (x :: xs)%list =
  match x, Json.allSome xs with
  | Some a, Some ys => Some (a :: ys)%list
  | _, _ => None
  end.
Proof. destruct x; reflexivity. Qed.

Lemma allSome_app {A : Type} (xs ys : list (option A)) :
  Json.allSome (xs ++ ys)%list =
  match Json.allSome xs, Json.allSome ys with
  | Some a, Some b => Some (a ++ b)%list
  | _, _ => None
  end.
Proof.
  induction xs as [|[x|] xs IH]; cbn [app Json.allSome].
  - now destruct (Json.allSome ys).
  - rewrite IH. destruct (Json.allSome xs), (Json.allSome ys); reflexivity.
  - reflexivity.
Qed.

Lemma allSome_Forall2 {A B : Type} (f : A -> option B) (xs : list A) :
  forall ys, Json.allSome (map f xs) = Some ys -> Forall2 (fun x y => f x = Some y) xs ys.
Proof.
  induction xs as [|x xs IH]; intros ys H; cbn [map] in H.
  - injection H as <-. constructor.
  - rewrite allSome_cons in H. destruct (f x) as [y|] eqn:Ex; [|discriminate].
    destruct (Json.allSome (map f xs)) as [ys'|]; [|discriminate].
    injection H as <-. constructor; [exact Ex | now apply IH].
Qed.

Lemma allSome_defined {A B : Type} (f : A -> option B) (xs : list A) :
  Forall (fun x => exists y, f x = Some y) xs ->
  exists ys, Json.allSome (map f xs) = Some ys.
Proof.
  induction 1 as [|x xs [y Hy] _ [ys IH]]; [now exists []|].
  exists (y :: ys)%list. cbn [map]. now rewrite allSome_cons, Hy, IH.
Qed.

Lemma allSome_None {A B : Type} (f : A -> option B) (xs : list A) :
  Json.allSome (map f xs) = None -> exists x, In x xs /\ f x = None.
Proof.
  induction xs as [|x xs IH]; cbn [map]; [discriminate|].
  rewrite allSome_cons. destruct (f x) as [y|] eqn:Ex.
  - destruct (Json.allSome (map f xs)); [discriminate|].
    intros _. destruct (IH eq_refl) as (z & Hz & E). exists z. split; [now right | exact E].
  - intros _. exists x. split; [now left | exact Ex].
Qed.


Lemma Forall2_nth {A B : Type} (R : A -> B -> Prop) (xs : list A) (ys : list B) :
  Forall2 R xs ys ->
  forall k x, nth_error xs k = Some x -> exists y, nth_error ys k = Some y /\ R x y.
Proof.
  induction 1 as [|a b xs ys Hab _ IH]; intros k x Hk; [destruct k; discriminate|].
  destruct k as [|k]; simpl in *.
  - injection Hk as <-. now exists b.
  - now apply IH.
Qed.

(** ** The shape of a prompt *)

(** The loop over the prior results appends one summary line each, and
    throws when the text of one of them cannot be formed. *)
Lemma fold_left_summary (previousResults : list StageResult) (acc : option string) :
  fold_left
    (fun (sofar : option string) prev =>
       match sofar with
       | None => None
       | Some prompt =>
           match responseText (r_response prev) with
           | None => None
           | Some text =>
               Some (prompt ++ "- " ++ r_role prev ++ " (" ++ r_model prev ++ "): "
                            ++ slice0 500 text ++ LF)
           end
       end)
    previousResults acc
  = match acc, concatSome (map summaryLine previousResults) with
    | Some prompt, Some lines => Some (prompt ++ lines)
    | _, _ => None
    end.
Proof.
  revert acc. induction previousResults as [|r rs IH]; intros acc; cbn [fold_left map].
  - destruct acc as [prompt|]; [|reflexivity]. cbn. now rewrite append_nil_r.
  - rewrite IH. unfold concatSome. rewrite allSome_cons. unfold summaryLine at 2.
    destruct acc as [prompt|]; [|reflexivity].
    destruct (responseText (r_response r)) as [text|]; cbn [option_map]; [|reflexivity].
    destruct (Json.allSome (map summaryLine rs)) as [lines|]; cbn [option_map]; [|reflexivity].
    cbn [concatAll fold_right]. f_equal. apply append_assoc.
Qed.

Lemma buildStagePrompt_shape (stage : PipelineStage) (context : string)
  (previousResults : list StageResult) :
  buildStagePrompt stage context previousResults =
  option_map
    (fun section => promptHead stage context ++ section ++ LF ++ closingInstruction)
    (match previousResults with
     | [] => Some EmptyString
     | _ :: _ => priorSection previousResults
     end).
Proof.
  unfold buildStagePrompt. destruct previousResults as [|r rs].
  - cbn [List.length Nat.ltb Nat.leb option_map]. unfold promptHead, taskLine.
    now rewrite !append_assoc.
  - cbn [List.length Nat.ltb Nat.leb]. rewrite fold_left_summary.
    unfold priorSection.
    destruct (concatSome (map summaryLine (r :: rs))) as [lines|]; cbn [option_map];
      [|reflexivity].
    unfold promptHead, taskLine. now rewrite !append_assoc.
Qed.

Lemma promptHead_contains_context (stage : PipelineStage) (context : string) :
  Contains context (promptHead stage context).
Proof. unfold promptHead. in_chain. Qed.

Lemma buildStagePrompt_contains_context stage context previousResults prompt :
  buildStagePrompt stage context previousResults = Some prompt ->
  Contains context prompt.
Proof.
  rewrite buildStagePrompt_shape.
  destruct (match previousResults with
            | [] => Some EmptyString
            | _ :: _ => priorSection previousResults
            end) as [section|]; [|discriminate].
  cbn [option_map]. intros H.
  replace prompt with (promptHead stage context ++ section ++ LF ++ closingInstruction)
    by congruence.
  apply Contains_append_l, promptHead_contains_context.
Qed.

Lemma summaryLines_defined (previousResults : list StageResult) :
  Forall (fun prev => HasText (r_response prev)) previousResults ->
  exists lines,
    Forall2 (fun prev line => summaryLine prev = Some line) previousResults lines /\
    concatSome (map summaryLine previousResults) = Some (concatAll lines).
Proof.
  intros H.
  destruct (allSome_defined summaryLine previousResults) as [lines Hl].
  { eapply Forall_impl; [|exact H]. intros prev [text Ht]. unfold summaryLine.
    rewrite Ht. eexists. reflexivity. }
  exists lines. split; [now apply allSome_Forall2|].
  unfold concatSome. now rewrite Hl.
Qed.

(** A prompt can be built exactly when every prior result has a text. *)
Lemma buildStagePrompt_defined stage context previousResults :
  Forall (fun prev => HasText (r_response prev)) previousResults ->
  exists prompt, buildStagePrompt stage context previousResults = Some prompt.
Proof.
  intros H. rewrite buildStagePrompt_shape. destruct previousResults as [|r rs].
  - eexists. reflexivity.
  - destruct (summaryLines_defined _ H) as (lines & _ & Hl).
    unfold priorSection. rewrite Hl. eexists. reflexivity.
Qed.

Lemma buildStagePrompt_throws stage context previousResults :
  buildStagePrompt stage context previousResults = None ->
  exists prev, In prev previousResults /\ responseText (r_response prev) = None.
Proof.
  rewrite buildStagePrompt_shape. destruct previousResults as [|r rs]; [discriminate|].
  unfold priorSection, concatSome.
  destruct (Json.allSome (map summaryLine (r :: rs))) as [lines|] eqn:E; [discriminate|].
  intros _. apply allSome_None in E. destruct E as (prev & Hin & Hnone).
  exists prev. split; [exact Hin|]. unfold summaryLine in Hnone.
  destruct (responseText (r_response prev)); [discriminate | reflexivity].
Qed.


(** * The executor *)

Lemma at_index_in_range (idx : Z) :
  0 <= idx < stageCount -> exists stage, at_index PIPELINE_STAGES idx = Some stage.
Proof.
  intros H. unfold at_index.
  destruct (idx <? 0) eqn:E; [apply Z.ltb_lt in E; lia|].
  destruct (nth_error PIPELINE_STAGES (Z.to_nat idx)) eqn:N; [eauto|].
  apply nth_error_None in N. unfold stageCount in H. lia.
Qed.

Lemma at_index_Some_range {A : Type} (xs : list A) (idx : Z) (x : A) :
  at_index xs idx = Some x -> 0 <= idx < Z.of_nat (List.length xs).
Proof.
  unfold at_index. destruct (idx <? 0) eqn:E; [discriminate|].
  intros H. apply Z.ltb_ge in E.
  assert (Z.to_nat idx < List.length xs)%nat by (apply nth_error_Some; congruence).
  lia.
Qed.

Lemma skipn_length_app {A : Type} (xs ys : list A) :
  skipn (List.length xs) (xs ++ ys)%list = ys.
Proof. induction xs as [|x xs IH]; simpl; auto. Qed.

Lemma firstn_length_app {A : Type} (xs ys : list A) :
  firstn (List.length xs) (xs ++ ys)%list = xs.
Proof. induction xs as [|x xs IH]; simpl; [now destruct ys | now rewrite IH]. Qed.

Lemma firstn_app_le {A : Type} (k : nat) (xs ys : list A) :
  (k <= List.length xs)%nat -> firstn k (xs ++ ys)%list = firstn k xs.
Proof.
  intros Hk. rewrite firstn_app.
  replace (k - List.length xs)%nat with 0%nat by lia.
  simpl. apply app_nil_r.
Qed.

Lemma scheduleFrom_succ (startIdx i : Z) (n : nat) :
  scheduleFrom startIdx i (S n) =
  ((startIdx + i) mod stageCount :: scheduleFrom startIdx (i + 1) n)%list.
Proof.
  unfold scheduleFrom. simpl. f_equal.
  - f_equal. lia.
  - rewrite <- seq_shift, map_map. apply map_ext. intros k. f_equal. lia.
Qed.

Lemma schedule_scheduleFrom (startIdx : Z) (n : nat) :
  schedule startIdx n = scheduleFrom startIdx 0 n.
Proof.
  unfold schedule, scheduleFrom. apply map_ext. intros k. f_equal. lia.
Qed.

Lemma scheduleFrom_length (startIdx i : Z) (n : nat) :
  List.length (scheduleFrom startIdx i n) = n.
Proof. unfold scheduleFrom. now rewrite length_map, length_seq. Qed.

Lemma scheduleFrom_nth (startIdx : Z) (n : nat) :
  forall (i : Z) (k : nat), (k < n)%nat ->
  nth_error (scheduleFrom startIdx i n) k
    = Some ((startIdx + i + Z.of_nat k) mod stageCount).
Proof.
  induction n as [|n IH]; intros i k Hk; [lia|].
  rewrite scheduleFrom_succ. destruct k as [|k]; simpl.
  - do 2 f_equal. lia.
  - rewrite IH by lia. do 2 f_equal. lia.
Qed.

Lemma schedule_nth (startIdx : Z) (n k : nat) :
  (k < n)%nat ->
  nth_error (schedule startIdx n) k = Some ((startIdx + Z.of_nat k) mod stageCount).
Proof.
  intros Hk. rewrite schedule_scheduleFrom, scheduleFrom_nth by exact Hk.
  do 2 f_equal. lia.
Qed.

Lemma schedule_length (startIdx : Z) (n : nat) : List.length (schedule startIdx n) = n.
Proof. rewrite schedule_scheduleFrom. apply scheduleFrom_length. Qed.

Lemma schedule_firstn (startIdx : Z) (k n : nat) :
  (k <= n)%nat -> firstn k (schedule startIdx n) = schedule startIdx k.
Proof.
  intros Hk. unfold schedule. rewrite firstn_map. f_equal.
  revert k Hk. generalize 0%nat. induction n as [|n IH]; intros a k Hk.
  - now replace k with 0%nat by lia.
  - destruct k as [|k]; simpl; [reflexivity|]. f_equal. apply IH. lia.
Qed.

(** The text of an error marker is its JSON form. *)
Lemma responseText_errorMarker (modelRef err : string) :
  responseText (errorMarker modelRef err) = Some (Json.stringify (errorMarker modelRef err)).
Proof. reflexivity. Qed.

(** ** Histories *)

Lemma History_length problemText idxs rs cs context :
  History problemText idxs rs cs context ->
  List.length rs = List.length idxs /\ List.length cs = List.length idxs.
Proof.
  induction 1 as [|idxs rs cs context idx stage settled duration prompt text
                    _ [IH1 IH2] _ _ _]; [auto|].
  rewrite !length_app; simpl. lia.
Qed.

Lemma History_HasText problemText idxs rs cs context :
  History problemText idxs rs cs context ->
  Forall (fun r => HasText (r_response r)) rs.
Proof.
  induction 1 as [|idxs rs cs context idx stage settled duration prompt text
                    _ IH _ _ Htext]; [constructor|].
  apply Forall_app. split; [exact IH|]. constructor; [|constructor].
  now exists text.
Qed.

(** What a history says about its [k]-th turn. *)
Lemma History_nth problemText idxs rs cs context :
  History problemText idxs rs cs context ->
  forall k idx, nth_error idxs k = Some idx ->
  exists stage settled duration prompt before text,
    at_index PIPELINE_STAGES idx = Some stage /\
    nth_error rs k =
      Some {| r_stage := name stage; r_model := model stage; r_role := role stage;
              r_chemistry := chemistry stage; r_response := settle stage settled;
              r_durationMs := duration |} /\
    nth_error cs k = Some (mkCall (model stage) prompt settled) /\
    History problemText (firstn k idxs) (firstn k rs) (firstn k cs) before /\
    buildStagePrompt stage before (firstn k rs) = Some prompt /\
    responseText (settle stage settled) = Some text.
Proof.
  induction 1 as [|idxs rs cs context idx0 stage settled duration prompt text
                    H IH Hat Hprompt Htext]; intros k idx Hk.
  - destruct k; discriminate.
  - destruct (History_length _ _ _ _ _ H) as [Lr Lc].
    destruct (Nat.lt_ge_cases k (List.length idxs)) as [Hlt | Hge].
    + rewrite nth_error_app1 in Hk by exact Hlt.
      destruct (IH k idx Hk) as (st & o & d & pr & bf & tx & A & B & C & D & E & F).
      exists st, o, d, pr, bf, tx. split; [exact A|].
      rewrite !nth_error_app1 by lia.
      rewrite !firstn_app_le by lia. auto.
    + rewrite nth_error_app2 in Hk by exact Hge.
      destruct (k - List.length idxs)%nat as [|m] eqn:Ek; simpl in Hk;
        [|destruct m; discriminate].
      injection Hk as <-.
      assert (k = List.length idxs) by lia. subst k.
      exists stage, settled, duration, prompt, context, text. split; [exact Hat|].
      rewrite firstn_length_app.
      rewrite <- Lr. rewrite firstn_length_app, nth_error_app2, Nat.sub_diag by lia.
      rewrite Lr, <- Lc. rewrite firstn_length_app, nth_error_app2, Nat.sub_diag by lia.
      simpl. auto.
Qed.

Lemma History_firstn problemText idxs rs cs context :
  History problemText idxs rs cs context ->
  forall k, exists before,
    History problemText (firstn k idxs) (firstn k rs) (firstn k cs) before.
Proof.
  intros H k. destruct (History_length _ _ _ _ _ H) as [Lr Lc].
  destruct (nth_error idxs k) as [idx|] eqn:Ek.
  - destruct (History_nth _ _ _ _ _ H k idx Ek)
      as (st & o & d & pr & bf & tx & _ & _ & _ & D & _).
    now exists bf.
  - apply nth_error_None in Ek. exists context.
    rewrite !firstn_all2 by lia. exact H.
Qed.

Lemma History_fromStage problemText idxs rs cs context :
  History problemText idxs rs cs context ->
  Forall2 (fun idx r => exists stage,
               at_index PIPELINE_STAGES idx = Some stage /\ fromStage stage r)
    idxs rs.
Proof.
  induction 1 as [|idxs rs cs context idx stage settled duration prompt text
                    _ IH Hat _ _]; [constructor|].
  apply Forall2_app; [exact IH|]. constructor; [|constructor].
  exists stage. split; [exact Hat|]. repeat split.
Qed.

(** The results of a history hold what its invocations settled to. *)
Lemma History_responses problemText idxs rs cs context :
  History problemText idxs rs cs context ->
  map r_response rs = map responseOf cs.
Proof.
  induction 1 as [|idxs rs cs context idx stage settled duration prompt text
                    _ IH _ _ _]; [reflexivity|].
  rewrite !map_app, IH. reflexivity.
Qed.

Lemma contextAfter_snoc (problemText context text : string)
  (rs : list StageResult) (r : StageResult) :
  contextAfter problemText rs = Some context ->
  responseText (r_response r) = Some text ->
  contextAfter problemText (rs ++ [r])%list
    = Some (context ++ contextBlock (r_role r) (r_model r) text).
Proof.
  unfold contextAfter, concatSome. intros Hc Ht.
  rewrite map_app, allSome_app. cbn [map]. rewrite allSome_cons.
  unfold blockOf at 2. rewrite Ht. cbn [option_map Json.allSome].
  destruct (Json.allSome (map blockOf rs)) as [blocks|]; [|discriminate].
  cbn [option_map] in *. rewrite concatAll_app. cbn [concatAll fold_right].
  rewrite append_nil_r.
  assert (E : context = problemText ++ concatAll blocks) by congruence.
  rewrite E. f_equal. symmetry. apply append_assoc.
Qed.

(** The context of a history is the problem text followed by the blocks
    of its results. *)
Lemma History_context problemText idxs rs cs context :
  History problemText idxs rs cs context ->
  contextAfter problemText rs = Some context.
Proof.
  induction 1 as [|idxs rs cs context idx stage settled duration prompt text
                    _ IH _ _ Htext].
  - unfold contextAfter, concatSome. cbn. now rewrite append_nil_r.
  - now apply contextAfter_snoc.
Qed.

Lemma concatSome_blocks (rs : list StageResult) :
  forall body, concatSome (map blockOf rs) = Some body ->
  exists texts,
    TextsOf rs texts /\
    body = concatAll
             (map (fun rt => LF ++ LF ++ "--- " ++ r_role (fst rt) ++ " (" ++ r_model (fst rt)
                                ++ ") ---" ++ LF ++ snd rt)
                (combine rs texts)).
Proof.
  unfold concatSome. induction rs as [|r rs IH]; intros body H; cbn [map] in H.
  - exists []. split; [constructor|]. cbn [Json.allSome option_map] in H.
    cbn [combine map]. congruence.
  - rewrite allSome_cons in H. unfold blockOf at 1 in H.
    destruct (responseText (r_response r)) as [text|] eqn:Et; [|discriminate].
    cbn [option_map] in H.
    destruct (Json.allSome (map blockOf rs)) as [blocks|]; [|discriminate].
    destruct (IH (concatAll blocks) eq_refl) as (texts & Htexts & Hbody).
    exists (text :: texts)%list. split; [now constructor|].
    cbn [option_map] in H. cbn [combine map concatAll fold_right fst snd].
    fold (concatAll
            (map (fun rt => LF ++ LF ++ "--- " ++ r_role (fst rt) ++ " (" ++ r_model (fst rt)
                               ++ ") ---" ++ LF ++ snd rt)
               (combine rs texts))).
    rewrite <- Hbody.
    change (concatAll (contextBlock (r_role r) (r_model r) text :: blocks))
      with (contextBlock (r_role r) (r_model r) text ++ concatAll blocks) in H.
    unfold contextBlock in H. congruence.
Qed.

Lemma contextAfter_texts (problemText context : string) (rs : list StageResult) :
  contextAfter problemText rs = Some context ->
  exists texts,
    TextsOf rs texts /\
    context = problemText ++
              concatAll
                (map (fun rt => LF ++ LF ++ "--- " ++ r_role (fst rt) ++ " ("
                                   ++ r_model (fst rt) ++ ") ---" ++ LF ++ snd rt)
                   (combine rs texts)).
Proof.
  unfold contextAfter.
  destruct (concatSome (map blockOf rs)) as [body|] eqn:E; [|discriminate].
  cbn [option_map]. intros H.
  destruct (concatSome_blocks rs body E) as (texts & Htexts & Hbody).
  exists texts. split; [exact Htexts|]. rewrite <- Hbody. congruence.
Qed.

(** Stage names identify registry entries. *)
Lemma findStage_at_index (idx : Z) (stage : PipelineStage) :
  at_index PIPELINE_STAGES idx = Some stage ->
  findStage (name stage) PIPELINE_STAGES 0 = Some idx.
Proof.
  intros H. pose proof (at_index_Some_range _ _ _ H) as R. simpl in R.
  assert (idx = 0 \/ idx = 1 \/ idx = 2 \/ idx = 3 \/ idx = 4 \/ idx = 5 \/ idx = 6)
    as C by lia.
  decompose [or] C; subst idx; vm_compute in H; injection H as <-; reflexivity.
Qed.

Lemma stageIndexOf_fromStage (idxs : list Z) (rs : list StageResult) :
  Forall2 (fun idx r => exists stage,
               at_index PIPELINE_STAGES idx = Some stage /\ fromStage stage r)
    idxs rs ->
  map stageIndexOf rs = map Some idxs.
Proof.
  induction 1 as [|idx r idxs rs (stage & Hat & Hn & _) _ IH]; simpl; [reflexivity|].
  rewrite IH. f_equal. unfold stageIndexOf. rewrite Hn.
  now apply findStage_at_index.
Qed.

Lemma turns_eq (maxStages : Z) : turns maxStages = Z.to_nat (Z.min maxStages 7).
Proof. reflexivity. Qed.

Section EngineFacts.

Variable Env : Type.
Variable dateNow : Env -> Z * Env.
Variable ollamaGenerate : string -> string -> Env -> Outcome * Env.

(** One turn: the clock is read, the model is invoked and logged, the
    clock is read again; then the turn yields the new context and
    results when the response has a text, and throws when it has none. *)
Lemma runStage_spec (stage : PipelineStage) (ctx : string)
  (rs : list StageResult) (w : World Env) (prompt : string) :
  buildStagePrompt stage ctx rs = Some prompt ->
  exists settled duration e',
    let r := {| r_stage := name stage; r_model := model stage; r_role := role stage;
                r_chemistry := chemistry stage; r_response := settle stage settled;
                r_durationMs := duration |} in
    let c := mkCall (model stage) prompt settled in
    let w' := mkWorld e' (calls w ++ [c])%list in
    Served ollamaGenerate c /\
    runStage dateNow ollamaGenerate stage ctx rs w =
      match responseText (settle stage settled) with
      | Some text =>
          inr ((ctx ++ contextBlock (role stage) (model stage) text, (rs ++ [r])%list), w')
      | None => inl (cannotConvert, w')
      end.
Proof.
  intros Hp. unfold runStage. rewrite Hp. unfold bind, orThrow, now, generate, ret, throw.
  destruct (dateNow (env w)) as [t0 e1] eqn:E1. cbn [env calls].
  destruct (ollamaGenerate (model stage) prompt e1) as [o e2] eqn:E2. cbn [env calls].
  destruct (dateNow e2) as [t1 e3] eqn:E3. cbn [env calls].
  exists o, (t1 - t0), e3. cbv zeta. split.
  - exists e1. cbn [call_model call_prompt call_outcome]. now rewrite E2.
  - destruct (responseText (settle stage o)); reflexivity.
Qed.

Lemma pipelineLoop_exit fuel maxStages startIdx i ctx rs (w : World Env) :
  (i <? maxStages) && (i <? stageCount) = false ->
  pipelineLoop dateNow ollamaGenerate fuel maxStages startIdx i ctx rs w = inr (rs, w).
Proof. intros E. destruct fuel; simpl; rewrite E; reflexivity. Qed.

Lemma pipelineLoop_turn fuel maxStages startIdx i ctx rs (w : World Env) stage :
  (i <? maxStages) && (i <? stageCount) = true ->
  at_index PIPELINE_STAGES (Z.rem (startIdx + i) stageCount) = Some stage ->
  pipelineLoop dateNow ollamaGenerate (S fuel) maxStages startIdx i ctx rs w =
  bind (runStage dateNow ollamaGenerate stage ctx rs)
    (fun next =>
       pipelineLoop dateNow ollamaGenerate fuel maxStages startIdx (i + 1)
         (fst next) (snd next)) w.
Proof. intros E A. cbn [pipelineLoop]. rewrite E, A. reflexivity. Qed.

(** The loop never runs out of fuel and never misses a registry entry or
    a prompt.  Either it completes the turns that remain and extends the
    history by them, or one of these turns invokes its model, gets a
    value without a text, and throws. *)
Lemma pipelineLoop_outcome (problemText : string) (maxStages startIdx : Z) :
  0 <= startIdx ->
  forall fuel i ctx rs (w : World Env) idxs cs,
    0 <= i ->
    (Z.to_nat (stageCount - i) <= fuel)%nat ->
    History problemText idxs rs cs ctx ->
    Forall (Served ollamaGenerate) cs ->
    exists cs' w',
      calls w' = (calls w ++ cs')%list /\
      Forall (Served ollamaGenerate) (cs ++ cs')%list /\
      ((exists rs' ctx',
          pipelineLoop dateNow ollamaGenerate fuel maxStages startIdx i ctx rs w
            = inr (rs', w') /\
          History problemText
            (idxs ++ scheduleFrom startIdx i (Z.to_nat (Z.min maxStages stageCount - i)))%list
            rs' (cs ++ cs')%list ctx') \/
       (exists j rs0 done ctx0 stage prompt v,
          pipelineLoop dateNow ollamaGenerate fuel maxStages startIdx i ctx rs w
            = inl (cannotConvert, w') /\
          (j < Z.to_nat (Z.min maxStages stageCount - i))%nat /\
          History problemText (idxs ++ scheduleFrom startIdx i j)%list rs0 done ctx0 /\
          at_index PIPELINE_STAGES ((startIdx + i + Z.of_nat j) mod stageCount)
            = Some stage /\
          buildStagePrompt stage ctx0 rs0 = Some prompt /\
          responseText v = None /\
          (cs ++ cs')%list = (done ++ [mkCall (model stage) prompt (Resolved v)])%list)).
Proof.
  intros Hstart.
  assert (Hdone : forall fuel i ctx rs (w : World Env) idxs cs,
             (i <? maxStages) && (i <? stageCount) = false ->
             History problemText idxs rs cs ctx ->
             Forall (Served ollamaGenerate) cs ->
             exists cs' w',
               calls w' = (calls w ++ cs')%list /\
               Forall (Served ollamaGenerate) (cs ++ cs')%list /\
               ((exists rs' ctx',
                   pipelineLoop dateNow ollamaGenerate fuel maxStages startIdx i ctx rs w
                     = inr (rs', w') /\
                   History problemText
                     (idxs ++ scheduleFrom startIdx i
                                (Z.to_nat (Z.min maxStages stageCount - i)))%list
                     rs' (cs ++ cs')%list ctx') \/
                (exists j rs0 done ctx0 stage prompt v,
                   pipelineLoop dateNow ollamaGenerate fuel maxStages startIdx i ctx rs w
                     = inl (cannotConvert, w') /\
                   (j < Z.to_nat (Z.min maxStages stageCount - i))%nat /\
                   History problemText (idxs ++ scheduleFrom startIdx i j)%list
                     rs0 done ctx0 /\
                   at_index PIPELINE_STAGES ((startIdx + i + Z.of_nat j) mod stageCount)
                     = Some stage /\
                   buildStagePrompt stage ctx0 rs0 = Some prompt /\
                   responseText v = None /\
                   (cs ++ cs')%list
                     = (done ++ [mkCall (model stage) prompt (Resolved v)])%list))).
  { intros fuel i ctx rs w idxs cs E Hh Hs.
    exists []%list, w. rewrite !app_nil_r. split; [reflexivity|]. split; [exact Hs|].
    left. exists rs, ctx. split; [now apply pipelineLoop_exit|].
    replace (Z.to_nat (Z.min maxStages stageCount - i)) with 0%nat.
    - unfold scheduleFrom. simpl. now rewrite app_nil_r.
    - apply andb_false_iff in E. destruct E as [E | E]; apply Z.ltb_ge in E; lia. }
  induction fuel as [|fuel IH]; intros i ctx rs w idxs cs Hi Hfuel Hh Hs;
    destruct ((i <? maxStages) && (i <? stageCount)) eqn:E;
    try (now apply Hdone).
  - apply andb_true_iff in E. destruct E as [_ E]. apply Z.ltb_lt in E. lia.
  - apply andb_true_iff in E. destruct E as [E1 E2].
    apply Z.ltb_lt in E1. apply Z.ltb_lt in E2.
    assert (Hrem : Z.rem (startIdx + i) stageCount = (startIdx + i) mod stageCount).
    { apply Z.rem_mod_nonneg; [lia | rewrite stageCount_eq; lia]. }
    destruct (at_index_in_range ((startIdx + i) mod stageCount)) as [stage Hat].
    { apply Z.mod_pos_bound. rewrite stageCount_eq. lia. }
    rewrite (pipelineLoop_turn _ _ _ _ _ _ _ stage);
      [| apply andb_true_iff; split; now apply Z.ltb_lt | now rewrite Hrem].
    unfold bind.
    destruct (buildStagePrompt_defined stage ctx rs (History_HasText _ _ _ _ _ Hh))
      as [prompt Hprompt].
    destruct (runStage_spec stage ctx rs w prompt Hprompt)
      as (settled & duration & e' & Hserved & Hrun).
    cbv zeta in Hrun, Hserved. rewrite Hrun.
    set (r := {| r_stage := name stage; r_model := model stage; r_role := role stage;
                 r_chemistry := chemistry stage; r_response := settle stage settled;
                 r_durationMs := duration |}) in *.
    set (c := mkCall (model stage) prompt settled) in *.
    assert (Hall : Forall (Served ollamaGenerate) (cs ++ [c])%list).
    { apply Forall_app. split; [exact Hs | constructor; [exact Hserved | constructor]]. }
    destruct (responseText (settle stage settled)) as [text|] eqn:Etext.
    + cbn [fst snd].
      destruct (IH (i + 1) (ctx ++ contextBlock (role stage) (model stage) text)
                  (rs ++ [r])%list (mkWorld e' (calls w ++ [c])%list)
                  (idxs ++ [(startIdx + i) mod stageCount])%list (cs ++ [c])%list)
        as (cs' & w' & Hcalls & Hall' & Hcases).
      * lia.
      * lia.
      * subst c r. now apply History_turn.
      * exact Hall.
      * exists (c :: cs')%list, w'.
        cbn [calls] in Hcalls. rewrite <- !app_assoc in *. cbn [app] in *.
        split; [exact Hcalls|]. split; [exact Hall'|].
        destruct Hcases as [(rs' & ctx' & Hloop & Hhist)
                           | (j & rs0 & done & ctx0 & stage' & prompt' & v
                              & Hloop & Hj & Hhist & Hat' & Hp' & Hv & Hcs)].
        -- left. exists rs', ctx'. split; [exact Hloop|].
           replace (Z.to_nat (Z.min maxStages stageCount - i))
             with (S (Z.to_nat (Z.min maxStages stageCount - (i + 1)))) by lia.
           rewrite scheduleFrom_succ. exact Hhist.
        -- right. exists (S j), rs0, done, ctx0, stage', prompt', v.
           split; [exact Hloop|]. split; [lia|].
           split; [rewrite scheduleFrom_succ; rewrite <- app_assoc in Hhist; exact Hhist|].
           split; [|auto].
           replace (startIdx + i + Z.of_nat (S j)) with (startIdx + (i + 1) + Z.of_nat j)
             by lia.
           exact Hat'.
    + exists [c]%list, (mkWorld e' (calls w ++ [c])%list).
      split; [reflexivity|]. split; [exact Hall|].
      right. destruct settled as [v | err];
        [|cbn [settle] in Etext; rewrite responseText_errorMarker in Etext; discriminate].
      exists 0%nat, rs, cs, ctx, stage, prompt, v.
      split; [reflexivity|]. split; [lia|].
      split; [unfold scheduleFrom; simpl; now rewrite app_nil_r|].
      split; [now rewrite Z.add_0_r|]. auto.
Qed.

Lemma runPipeline_unfold (p : string) (maxStages : Z) (w : World Env) :
  runPipeline dateNow ollamaGenerate p maxStages w =
  let (t0, e1) := dateNow (env w) in
  match pipelineLoop dateNow ollamaGenerate (List.length PIPELINE_STAGES) maxStages
          (getStartStage (classifyError p)) 0 p [] (mkWorld e1 (calls w)) with
  | inl f => inl f
  | inr (rs, w1) =>
      let (t1, e2) := dateNow (env w1) in
      inr ({| problem := p; category := classifyError p; stagesRun := rs;
              totalDurationMs := t1 - t0 |},
           mkWorld e2 (calls w1))
  end.
Proof.
  unfold runPipeline, bind. unfold now at 1. destruct (dateNow (env w)) as [t0 e1].
  destruct (pipelineLoop dateNow ollamaGenerate (List.length PIPELINE_STAGES) maxStages
              (getStartStage (classifyError p)) 0 p [] (mkWorld e1 (calls w)))
    as [f | [rs w1]]; [reflexivity|].
  unfold now, ret. now destruct (dateNow (env w1)).
Qed.

(** How a run ends.  Either it returns, and its results and invocations
    form the history of the scheduled turns; or it throws the
    [TypeError] of a response without a text, in the turn that met it. *)
Lemma runPipeline_outcome (p : string) (maxStages : Z) (w : World Env) :
  let startIdx := getStartStage (classifyError p) in
  let run := runPipeline dateNow ollamaGenerate p maxStages w in
  calls (worldOf run) = (calls w ++ newCalls w (worldOf run))%list /\
  Forall (Served ollamaGenerate) (newCalls w (worldOf run)) /\
  ((exists res w' context,
      run = inr (res, w') /\
      problem res = p /\
      category res = classifyError p /\
      History p (schedule startIdx (turns maxStages)) (stagesRun res) (newCalls w w')
        context) \/
   (exists w',
      run = inl (cannotConvert, w') /\
      Stopped p startIdx (turns maxStages) (newCalls w w'))).
Proof.
  cbv zeta. rewrite runPipeline_unfold.
  destruct (dateNow (env w)) as [t0 e1].
  destruct (pipelineLoop_outcome p maxStages (getStartStage (classifyError p)))
    with (fuel := List.length PIPELINE_STAGES) (i := 0) (ctx := p)
         (rs := @nil StageResult) (w := mkWorld e1 (calls w))
         (idxs := @nil Z) (cs := @nil Call)
    as (cs' & w1 & Hcalls & Hall & Hcases).
  - destruct (classifyError p); simpl; lia.
  - lia.
  - unfold stageCount. lia.
  - constructor.
  - constructor.
  - cbn [calls app] in Hcalls, Hall, Hcases.
    rewrite Z.sub_0_r in Hcases.
    destruct Hcases as [(rs' & ctx' & Hloop & Hhist)
                       | (j & rs0 & done & ctx0 & stage & prompt & v
                          & Hloop & Hj & Hhist & Hat & Hp & Hv & Hcs)].
    + rewrite Hloop. destruct (dateNow (env w1)) as [t1 e2].
      cbn [worldOf calls].
      assert (Hnew : newCalls w {| env := e2; calls := calls w1 |} = cs').
      { unfold newCalls. cbn [calls]. rewrite Hcalls. apply skipn_length_app. }
      rewrite Hnew. split; [exact Hcalls|]. split; [exact Hall|].
      left. eexists. eexists. exists ctx'. split; [reflexivity|].
      cbn [problem category stagesRun]. rewrite Hnew.
      rewrite <- schedule_scheduleFrom in Hhist. auto.
    + rewrite Hloop. cbn [worldOf].
      assert (Hnew : newCalls w w1 = cs').
      { unfold newCalls. rewrite Hcalls. apply skipn_length_app. }
      rewrite Hnew. split; [exact Hcalls|]. split; [exact Hall|].
      right. exists w1. split; [reflexivity|]. rewrite Hnew.
      rewrite <- schedule_scheduleFrom in Hhist. rewrite Z.add_0_r in Hat.
      exact (Stopped_in_turn p _ _ _ j rs0 done ctx0 stage prompt v Hj Hhist Hat Hp Hv Hcs).
Qed.

(** With a service whose answers all have a text, a run returns, and its
    results and invocations form the history of the scheduled turns. *)
Lemma runPipeline_history (p : string) (maxStages : Z) (w : World Env) :
  Textual ollamaGenerate ->
  exists res w' context,
    runPipeline dateNow ollamaGenerate p maxStages w = inr (res, w') /\
    problem res = p /\
    category res = classifyError p /\
    calls w' = (calls w ++ newCalls w w')%list /\
    History p (schedule (getStartStage (classifyError p)) (turns maxStages))
      (stagesRun res) (newCalls w w') context /\
    Forall (Served ollamaGenerate) (newCalls w w').
Proof.
  intros Htextual.
  destruct (runPipeline_outcome p maxStages w) as (Hcalls & Hall & Hcases).
  cbv zeta in Hcases.
  destruct Hcases as [(res & w' & context & Hrun & Hp & Hc & Hh) | (w' & Hrun & Hstop)];
    rewrite Hrun in Hcalls, Hall; cbn [worldOf] in Hcalls, Hall.
  - exists res, w', context. auto 10.
  - exfalso. destruct Hstop as [m rs done context stage prompt v _ _ _ _ Hv Hcs].
    rewrite Hcs in Hall. apply Forall_app in Hall. destruct Hall as [_ Hlast].
    inversion Hlast as [|? ? [e He] _]; subst.
    cbn [call_model call_prompt call_outcome] in He.
    destruct (Htextual _ _ _ _ He) as [text Ht]. congruence.
Qed.

(** What the log of a run says about its [k]-th invocation, however the
    run ends: the turns before it are completed turns, and its prompt is
    built from their results and the context they reached. *)
Lemma runPipeline_call (p : string) (n : Z) (w : World Env) :
  let startIdx := getStartStage (classifyError p) in
  let run := runPipeline dateNow ollamaGenerate p n w in
  forall k c,
    nth_error (newCalls w (worldOf run)) k = Some c ->
    exists stage prior context,
      (k < turns n)%nat /\
      at_index PIPELINE_STAGES ((startIdx + Z.of_nat k) mod stageCount) = Some stage /\
      History p (schedule startIdx k) prior (firstn k (newCalls w (worldOf run))) context /\
      buildStagePrompt stage context prior = Some (call_prompt c) /\
      call_model c = model stage /\
      (forall res w1, run = inr (res, w1) -> prior = firstn k (stagesRun res)).
Proof.
  cbv zeta. intros k c Hk.
  destruct (runPipeline_outcome p n w) as (_ & _ & Hcases). cbv zeta in Hcases.
  destruct Hcases as [(res & w' & context & Hrun & _ & _ & Hh) | (w' & Hrun & Hstop)];
    rewrite Hrun in *; cbn [worldOf] in *.
  - destruct (History_length _ _ _ _ _ Hh) as [Lr Lc]. rewrite schedule_length in Lr, Lc.
    assert (Hlt : (k < turns n)%nat).
    { rewrite <- Lc. apply nth_error_Some. congruence. }
    destruct (History_nth _ _ _ _ _ Hh k _ (schedule_nth _ _ _ Hlt))
      as (stage & settled & duration & prompt & before & text
          & Hat & Hr & Hc & Hbefore & Hprompt & _).
    rewrite Hk in Hc. injection Hc as ->.
    rewrite schedule_firstn in Hbefore by lia.
    exists stage, (firstn k (stagesRun res)), before.
    split; [exact Hlt|]. split; [exact Hat|]. split; [exact Hbefore|].
    split; [exact Hprompt|]. split; [reflexivity|].
    intros res1 w1 [= <- _]. reflexivity.
  - destruct Hstop as [m rs done context stage prompt v Hm Hh Hat Hprompt Hv Hcs].
    destruct (History_length _ _ _ _ _ Hh) as [Lr Lc]. rewrite schedule_length in Lr, Lc.
    rewrite Hcs in *.
    assert (Hle : (k <= m)%nat).
    { assert (k < List.length (done ++ [mkCall (model stage) prompt (Resolved v)]))%nat
        by (apply nth_error_Some; congruence).
      rewrite length_app in H. simpl in H. lia. }
    destruct (Nat.eq_dec k m) as [-> | Hne].
    + rewrite nth_error_app2 in Hk by lia.
      replace (m - List.length done)%nat with 0%nat in Hk by lia.
      injection Hk as <-.
      exists stage, rs, context.
      split; [exact Hm|]. split; [exact Hat|].
      assert (Hf : firstn m (done ++ [mkCall (model stage) prompt (Resolved v)])%list = done)
        by (rewrite <- Lc; apply firstn_length_app).
      rewrite Hf.
      split; [exact Hh|]. split; [exact Hprompt|]. split; [reflexivity|].
      intros res1 w1 H. discriminate H.
    + rewrite nth_error_app1 in Hk by lia.
      assert (Hlt : (k < m)%nat) by lia.
      destruct (History_nth _ _ _ _ _ Hh k _ (schedule_nth _ _ _ Hlt))
        as (stage' & settled & duration & prompt' & before & text
            & Hat' & Hr & Hc & Hbefore & Hprompt' & _).
      rewrite Hk in Hc. injection Hc as ->.
      rewrite schedule_firstn in Hbefore by lia.
      exists stage', (firstn k rs), before.
      split; [lia|]. split; [exact Hat'|].
      rewrite firstn_app_le by lia.
      split; [exact Hbefore|]. split; [exact Hprompt'|]. split; [reflexivity|].
      intros res1 w1 H. discriminate H.
Qed.

(** C10: with a budget of zero or less the loop body never runs: the run
    returns, it makes no model invocation (the environment only sees the
    two clock readings), and the result has no stage results, the given
    problem text and the category that [classifyError] assigns to it. *)
Theorem runPipeline_no_budget (p : string) (n : Z) (w : World Env) :
  n <= 0 ->
  exists res w',
    runPipeline dateNow ollamaGenerate p n w = inr (res, w') /\
    stagesRun res = [] /\
    problem res = p /\
    category res = classifyError p /\
    calls w' = calls w /\
    newCalls w w' = [] /\
    env w' = snd (dateNow (snd (dateNow (env w)))).
Proof.
  intros Hn. unfold runPipeline, bind. unfold now at 1.
  destruct (dateNow (env w)) as [t0 e1]. cbn [snd].
  rewrite pipelineLoop_exit.
  - unfold now, ret. cbn [env calls]. destruct (dateNow e1) as [t1 e2].
    eexists. eexists. split; [reflexivity|]. cbn.
    repeat split; auto. unfold newCalls. cbn [calls].
    rewrite <- (app_nil_r (calls w)) at 2. apply skipn_length_app.
  - apply andb_false_iff. left. apply Z.ltb_ge. lia.
Qed.

(** C6: in every run, however it ends, the prompt of turn [k] is built
    from a context that is the problem text followed by one block
    [LF LF "--- " role " (" model ") ---" LF text] for each of the turns
    [0 .. k - 1], in execution order, where [text] is the response text
    of that turn: the string form of the [response] field when the
    response is an object that has one, and the JSON serialization of
    the response otherwise.  The results of these turns are records of
    the scheduled stages that hold what the invocations of the turns
    settled to, and they are the first [k] results of a run that
    returns.  A run builds a prompt for each of the [min(n, 7)] stage
    positions of its budget when the answers of the service all have a
    text, and for no more than these in any case. *)
Theorem runPipeline_context (p : string) (n : Z) (w : World Env) :
  let run := runPipeline dateNow ollamaGenerate p n w in
  (forall k c,
      nth_error (newCalls w (worldOf run)) k = Some c ->
      exists stage prior texts,
        let context :=
          p ++ concatAll
                 (map (fun rt => LF ++ LF ++ "--- " ++ r_role (fst rt) ++ " ("
                                    ++ r_model (fst rt) ++ ") ---" ++ LF ++ snd rt)
                    (combine prior texts)) in
        at_index PIPELINE_STAGES
          ((getStartStage (classifyError p) + Z.of_nat k) mod stageCount) = Some stage /\
        call_model c = model stage /\
        List.length prior = k /\
        Forall2 (fun idx r => exists st,
                     at_index PIPELINE_STAGES idx = Some st /\ fromStage st r)
          (schedule (getStartStage (classifyError p)) k) prior /\
        map r_response prior = map responseOf (firstn k (newCalls w (worldOf run))) /\
        (forall res w', run = inr (res, w') -> prior = firstn k (stagesRun res)) /\
        TextsOf prior texts /\
        buildStagePrompt stage context prior = Some (call_prompt c) /\
        Contains context (call_prompt c) /\
        Prefix p context) /\
  (List.length (newCalls w (worldOf run)) <= turns n)%nat /\
  (Textual ollamaGenerate -> List.length (newCalls w (worldOf run)) = turns n) /\
  (forall res w', run = inr (res, w') ->
                  List.length (newCalls w w') = List.length (stagesRun res)) /\
  (forall props x,
      Json.getProp "response" props = Some x ->
      responseText (JObj props) = Json.toString x) /\
  (forall v, hasResponse v = false -> responseText v = Some (Json.stringify v)).
Proof.
  cbv zeta. split; [|split; [|split; [|split; [|split]]]].
  - intros k c Hk.
    destruct (runPipeline_call p n w k c Hk)
      as (stage & prior & context & Hlt & Hat & Hh & Hprompt & Hmodel & Hres).
    destruct (contextAfter_texts _ _ _ (History_context _ _ _ _ _ Hh))
      as (texts & Htexts & Hctx).
    destruct (History_length _ _ _ _ _ Hh) as [Lr _]. rewrite schedule_length in Lr.
    exists stage, prior, texts. rewrite <- Hctx.
    split; [exact Hat|]. split; [exact Hmodel|]. split; [exact Lr|].
    split; [eapply History_fromStage; eassumption|].
    split; [eapply History_responses; eassumption|].
    split; [exact Hres|]. split; [exact Htexts|]. split; [exact Hprompt|].
    split; [eapply buildStagePrompt_contains_context; eassumption|].
    rewrite Hctx. eexists. reflexivity.
  - destruct (runPipeline_outcome p n w) as (_ & _ & Hcases). cbv zeta in Hcases.
    destruct Hcases as [(res & w' & context & Hrun & _ & _ & Hh) | (w' & Hrun & Hstop)];
      rewrite Hrun; cbn [worldOf].
    + destruct (History_length _ _ _ _ _ Hh) as [_ Lc]. rewrite schedule_length in Lc. lia.
    + destruct Hstop as [m rs done context stage prompt v Hm Hh _ _ _ Hcs].
      destruct (History_length _ _ _ _ _ Hh) as [_ Lc]. rewrite schedule_length in Lc.
      rewrite Hcs, length_app. cbn [List.length]. lia.
  - intros Htextual.
    destruct (runPipeline_history p n w Htextual)
      as (res & w' & context & Hrun & _ & _ & _ & Hh & _).
    rewrite Hrun. cbn [worldOf].
    destruct (History_length _ _ _ _ _ Hh) as [_ Lc]. now rewrite schedule_length in Lc.
  - intros res w' Hrun.
    destruct (runPipeline_outcome p n w) as (_ & _ & Hcases). cbv zeta in Hcases.
    rewrite Hrun in Hcases.
    destruct Hcases as [(res1 & w1 & context & E & _ & _ & Hh) | (w1 & E & _)];
      [|discriminate].
    injection E as <- <-.
    destruct (History_length _ _ _ _ _ Hh) as [Lr Lc]. congruence.
  - intros props x Hx. unfold responseText, hasResponse. simpl. now rewrite Hx.
  - intros v Hv. unfold responseText. rewrite Hv, andb_false_r. reflexivity.
Qed.

(** X25: with a service whose answers all have a text, a run returns a
    result whatever else the service does, and it makes every turn that
    the budget allows.  Where the invocation of turn [k] is rejected,
    result [k] holds the error marker
    [{ error: "Model <model> unavailable: <failure>" }] naming the model
    of the stage of that turn and the failure, and every later turn
    within the budget still invokes its model and records its result. *)
Theorem runPipeline_isolates_failures (p : string) (n : Z) (w : World Env) :
  Textual ollamaGenerate ->
  exists res w',
    runPipeline dateNow ollamaGenerate p n w = inr (res, w') /\
    List.length (stagesRun res) = turns n /\
    List.length (newCalls w w') = turns n /\
    forall k c err,
      nth_error (newCalls w w') k = Some c ->
      call_outcome c = Rejected err ->
      exists stage r msg,
        at_index PIPELINE_STAGES
          ((getStartStage (classifyError p) + Z.of_nat k) mod stageCount) = Some stage /\
        call_model c = model stage /\
        nth_error (stagesRun res) k = Some r /\
        fromStage stage r /\
        r_response r = JObj [("error", JStr msg)] /\
        msg = "Model " ++ model stage ++ " unavailable: " ++ err /\
        Contains (model stage) msg /\
        Contains err msg /\
        forall j, (k < j < turns n)%nat ->
          exists r' c',
            nth_error (stagesRun res) j = Some r' /\
            nth_error (newCalls w w') j = Some c'.
Proof.
  intros Htextual.
  destruct (runPipeline_history p n w Htextual)
    as (res & w' & context & Hrun & _ & _ & _ & Hh & _).
  exists res, w'. split; [exact Hrun|].
  destruct (History_length _ _ _ _ _ Hh) as [Lr Lc].
  rewrite schedule_length in Lr, Lc.
  split; [exact Lr|]. split; [exact Lc|].
  intros k c err Hk Hrej.
  assert (Hlt : (k < turns n)%nat).
  { rewrite <- Lc. apply nth_error_Some. congruence. }
  destruct (History_nth _ _ _ _ _ Hh k _ (schedule_nth _ _ _ Hlt))
    as (stage & settled & duration & prompt & before & text & Hat & Hr & Hc & _).
  rewrite Hk in Hc. injection Hc as ->. simpl in Hrej. subst settled.
  eexists stage, _, _. split; [exact Hat|]. split; [reflexivity|].
  split; [exact Hr|]. split; [repeat split|].
  split; [reflexivity|]. split; [reflexivity|].
  split; [|split].
  - exists "Model ", (" unavailable: " ++ err). reflexivity.
  - exists ("Model " ++ model stage ++ " unavailable: "), EmptyString.
    now rewrite append_nil_r, !append_assoc.
  - intros j Hj.
    destruct (nth_error (stagesRun res) j) as [r'|] eqn:Er;
      [|apply nth_error_None in Er; lia].
    destruct (nth_error (newCalls w w') j) as [c'|] eqn:Ec;
      [|apply nth_error_None in Ec; lia].
    eauto.
Qed.

(** X26: the registry holds seven stages in a fixed order, and with a
    service whose answers all have a text a run with a budget of at
    least one returns a result with [min(n, 7)] stage results: one for a
    budget of 1, seven for a budget of 7, and seven for any larger
    budget. *)
Theorem runPipeline_stage_count (p : string) (n : Z) (w : World Env) :
  Textual ollamaGenerate ->
  1 <= n ->
  List.length PIPELINE_STAGES = 7%nat /\
  map name PIPELINE_STAGES =
    ["syntax_correction"; "logic_validation"; "fast_reaction";
     "dependency_management"; "strategic_reasoning"; "final_review"; "fallback"] /\
  exists res w',
    runPipeline dateNow ollamaGenerate p n w = inr (res, w') /\
    List.length (stagesRun res) = Z.to_nat (Z.min n 7) /\
    (n = 1 -> List.length (stagesRun res) = 1%nat) /\
    (n = 7 -> List.length (stagesRun res) = 7%nat) /\
    (7 < n -> List.length (stagesRun res) = 7%nat).
Proof.
  intros Htextual Hn. split; [reflexivity|]. split; [reflexivity|].
  destruct (runPipeline_history p n w Htextual)
    as (res & w' & context & Hrun & _ & _ & _ & Hh & _).
  exists res, w'. split; [exact Hrun|].
  apply History_length in Hh. destruct Hh as [Hlen _].
  rewrite schedule_length, turns_eq in Hlen.
  rewrite Hlen. repeat split; intros; lia.
Qed.

(** X27: with a service whose answers all have a text, the stages that a
    run with a budget of at least one executes are, in order, the
    registry entries at the indices [(startIndex + i) mod 7] for
    [i = 0 .. min(n, 7) - 1]; for a problem classified syntax and a
    budget of 3 these are 0, 1, 2, and for one classified dependency and
    a budget of 7 they are 3, 4, 5, 6, 0, 1, 2. *)
Theorem runPipeline_stage_order (p : string) (n : Z) (w : World Env) :
  Textual ollamaGenerate ->
  1 <= n ->
  exists res w',
    runPipeline dateNow ollamaGenerate p n w = inr (res, w') /\
    Forall2 (fun idx r => exists stage,
                 at_index PIPELINE_STAGES idx = Some stage /\ fromStage stage r)
      (map (fun i => (getStartStage (classifyError p) + Z.of_nat i) mod 7)
         (seq 0 (Z.to_nat (Z.min n 7))))
      (stagesRun res) /\
    map stageIndexOf (stagesRun res) =
      map (fun i => Some ((getStartStage (classifyError p) + Z.of_nat i) mod 7))
        (seq 0 (Z.to_nat (Z.min n 7))) /\
    (classifyError p = syntax -> n = 3 ->
     map stageIndexOf (stagesRun res) = [Some 0; Some 1; Some 2]) /\
    (classifyError p = dependency -> n = 7 ->
     map stageIndexOf (stagesRun res) =
       [Some 3; Some 4; Some 5; Some 6; Some 0; Some 1; Some 2]).
Proof.
  intros Htextual Hn.
  destruct (runPipeline_history p n w Htextual)
    as (res & w' & context & Hrun & _ & _ & _ & Hh & _).
  exists res, w'. split; [exact Hrun|].
  pose proof (History_fromStage _ _ _ _ _ Hh) as HF.
  pose proof (stageIndexOf_fromStage _ _ HF) as HI.
  change (schedule (getStartStage (classifyError p)) (turns n))
    with (map (fun i => (getStartStage (classifyError p) + Z.of_nat i) mod 7)
            (seq 0 (Z.to_nat (Z.min n 7)))) in HF, HI.
  rewrite map_map in HI.
  split; [exact HF|]. split; [exact HI|].
  split; intros Hc ->; rewrite HI, Hc; reflexivity.
Qed.


End EngineFacts.


(** * The entry points *)

Section EntryPoints.

Variable Env : Type.
Variable dateNow : Env -> Z * Env.
Variable ollamaGenerate : string -> string -> Env -> Outcome * Env.

(** C9: [quickDiagnose] is [runPipeline] with a budget of 1 and
    [deepDiagnose] is [runPipeline] with a budget of 7; the
    [warroom_diagnose] tool, given a problem text that is not blank,
    runs [quickDiagnose] for the depth quick, [deepDiagnose] for the
    depth deep, and [runPipeline] with a budget of 3 for the depth
    standard, which is also the depth of a call that names none.  The
    tool passes the trimmed problem text. *)
Theorem diagnose_entry_points (p : string) (w : World Env)
  (params : list (string * JsValue)) (text : string) :
  stringParam "problem" params = Some text ->
  trim text <> EmptyString ->
  quickDiagnose dateNow ollamaGenerate p w = runPipeline dateNow ollamaGenerate p 1 w /\
  deepDiagnose dateNow ollamaGenerate p w = runPipeline dateNow ollamaGenerate p 7 w /\
  (stringParam "depth" params = Some "quick" ->
   diagnoseExecute dateNow ollamaGenerate params w
     = payloadOf (quickDiagnose dateNow ollamaGenerate (trim text) w) /\
   diagnoseExecute dateNow ollamaGenerate params w
     = payloadOf (runPipeline dateNow ollamaGenerate (trim text) 1 w)) /\
  (stringParam "depth" params = Some "deep" ->
   diagnoseExecute dateNow ollamaGenerate params w
     = payloadOf (deepDiagnose dateNow ollamaGenerate (trim text) w) /\
   diagnoseExecute dateNow ollamaGenerate params w
     = payloadOf (runPipeline dateNow ollamaGenerate (trim text) 7 w)) /\
  (stringParam "depth" params = Some "standard" ->
   diagnoseExecute dateNow ollamaGenerate params w
     = payloadOf (runPipeline dateNow ollamaGenerate (trim text) 3 w)) /\
  (stringParam "depth" params = None ->
   diagnoseExecute dateNow ollamaGenerate params w
     = payloadOf (runPipeline dateNow ollamaGenerate (trim text) 3 w)).
Proof.
  intros Hp Hne.
  assert (Hexec : forall depth budget,
             (if String.eqb depth "quick" then quickDiagnose dateNow ollamaGenerate (trim text)
              else if String.eqb depth "deep" then deepDiagnose dateNow ollamaGenerate (trim text)
              else runPipeline dateNow ollamaGenerate (trim text) 3)
             = runPipeline dateNow ollamaGenerate (trim text) budget ->
             match stringParam "depth" params with Some d => d | None => "standard" end
             = depth ->
             diagnoseExecute dateNow ollamaGenerate params w
             = payloadOf (runPipeline dateNow ollamaGenerate (trim text) budget w)).
  { intros depth budget Hsel Hd. unfold diagnoseExecute. rewrite Hp.
    apply String.eqb_neq in Hne. rewrite Hne, Hd, Hsel.
    unfold bind, payloadOf.
    destruct (runPipeline dateNow ollamaGenerate (trim text) budget w) as [f | [r w']];
      reflexivity. }
  split; [reflexivity|]. split; [reflexivity|].
  split; [|split; [|split]].
  - intros Hd. split; apply Hexec with (depth := "quick");
      solve [reflexivity | now rewrite Hd].
  - intros Hd. split; apply Hexec with (depth := "deep");
      solve [reflexivity | now rewrite Hd].
  - intros Hd. apply Hexec with (depth := "standard");
      solve [reflexivity | now rewrite Hd].
  - intros Hd. apply Hexec with (depth := "standard");
      solve [reflexivity | now rewrite Hd].
Qed.

End EntryPoints.

(** * Determinism up to timing *)

Lemma summaryLine_same (a b : StageResult) :
  sameStageResult a b -> summaryLine a = summaryLine b.
Proof.
  intros (_ & Hm & Hr & _ & Hresp). unfold summaryLine. now rewrite Hm, Hr, Hresp.
Qed.

Lemma map_same {B : Type} (f : StageResult -> B) (rs1 rs2 : list StageResult) :
  (forall a b, sameStageResult a b -> f a = f b) ->
  Forall2 sameStageResult rs1 rs2 -> map f rs1 = map f rs2.
Proof.
  intros Hf. induction 1 as [|a b rs1 rs2 Hab _ IH]; simpl; [reflexivity|].
  now rewrite (Hf a b Hab), IH.
Qed.

(** The timing fields have no part in a prompt. *)
Lemma buildStagePrompt_same stage (context : string) (rs1 rs2 : list StageResult) :
  Forall2 sameStageResult rs1 rs2 ->
  buildStagePrompt stage context rs1 = buildStagePrompt stage context rs2.
Proof.
  intros H. rewrite !buildStagePrompt_shape.
  destruct H as [|a b rs1 rs2 Hab H]; [reflexivity|].
  unfold priorSection.
  now rewrite (map_same summaryLine (a :: rs1) (b :: rs2) summaryLine_same
                 (Forall2_cons _ _ Hab H)).
Qed.

(** Two histories over the same turns, both answered by the same
    function, made the same invocations, reached the same context and
    record the same results apart from the durations. *)
Lemma History_deterministic (g : string -> string -> Outcome) (p : string)
  (idxs : list Z) (rs1 : list StageResult) (cs1 : list Call) (ctx1 : string) :
  History p idxs rs1 cs1 ctx1 ->
  Forall (AnsweredBy g) cs1 ->
  forall rs2 cs2 ctx2,
    History p idxs rs2 cs2 ctx2 ->
    Forall (AnsweredBy g) cs2 ->
    Forall2 sameStageResult rs1 rs2 /\ cs1 = cs2 /\ ctx1 = ctx2.
Proof.
  induction 1 as [|idxs rs1 cs1 ctx1 idx stage settled duration prompt text
                    H1 IH Hat Hprompt Htext];
    intros Hall1 rs2 cs2 ctx2 H2 Hall2.
  - inversion H2 as [|? ? ? ? ? ? ? ? ? ? ? ? ? ? Heq]; [auto|].
    symmetry in Heq. now apply app_cons_not_nil in Heq.
  - inversion H2 as [Heq | idxs' rs2' cs2' ctx2' idx' stage' settled' duration' prompt' text'
                           H2' Hat' Hprompt' Htext' Heq];
      [now apply app_cons_not_nil in Heq|].
    apply app_inj_tail in Heq. destruct Heq as [-> ->]. subst rs2 cs2 ctx2.
    assert (stage' = stage) by congruence. subst stage'.
    apply Forall_app in Hall1. destruct Hall1 as [Hall1 Hc1].
    apply Forall_app in Hall2. destruct Hall2 as [Hall2 Hc2].
    destruct (IH Hall1 _ _ _ H2' Hall2) as (HF & -> & ->).
    rewrite (buildStagePrompt_same stage ctx2' rs1 rs2' HF) in Hprompt.
    assert (prompt' = prompt) by congruence. subst prompt'.
    apply Forall_inv in Hc1. apply Forall_inv in Hc2.
    unfold AnsweredBy in Hc1, Hc2. cbn [call_outcome call_model call_prompt] in Hc1, Hc2.
    subst settled settled'.
    assert (text' = text) by congruence. subst text'.
    split; [|split; reflexivity].
    apply Forall2_app; [exact HF|]. constructor; [|constructor].
    repeat split.
Qed.

Lemma Served_AnsweredBy {Env : Type}
  (ollamaGenerate : string -> string -> Env -> Outcome * Env)
  (g : string -> string -> Outcome) (cs : list Call) :
  Deterministic ollamaGenerate g ->
  Forall (Served ollamaGenerate) cs -> Forall (AnsweredBy g) cs.
Proof.
  intros Hg. apply Forall_impl. intros c (e & He).
  unfold AnsweredBy. now rewrite <- He, Hg.
Qed.

Lemma Forall_firstn_of {A : Type} (P : A -> Prop) (k : nat) (l : list A) :
  Forall P l -> Forall P (firstn k l).
Proof.
  revert k. induction l as [|x l IH]; intros k H; destruct k; simpl; auto.
  inversion H; subst. constructor; auto.
Qed.

(** Under one answering function, no run completes a turn in which
    another run stops. *)
Lemma History_excludes_stop (g : string -> string -> Outcome) (p : string)
  (startIdx : Z) (n m : nat)
  (rs : list StageResult) (cs : list Call) (context : string)
  (rs0 : list StageResult) (done : list Call) (context0 : string)
  (stage : PipelineStage) (prompt : string) (v : JsValue) :
  History p (schedule startIdx n) rs cs context ->
  Forall (AnsweredBy g) cs ->
  (m < n)%nat ->
  History p (schedule startIdx m) rs0 done context0 ->
  Forall (AnsweredBy g) done ->
  at_index PIPELINE_STAGES ((startIdx + Z.of_nat m) mod stageCount) = Some stage ->
  buildStagePrompt stage context0 rs0 = Some prompt ->
  g (model stage) prompt = Resolved v ->
  responseText v = None ->
  False.
Proof.
  intros Hh Hall Hm Hh0 Hall0 Hat Hprompt Hg Hv.
  destruct (History_nth _ _ _ _ _ Hh m _ (schedule_nth _ _ _ Hm))
    as (stage' & settled & duration & prompt' & before & text
        & Hat' & _ & Hc & Hbefore & Hprompt' & Htext).
  assert (stage' = stage) by congruence. subst stage'.
  rewrite schedule_firstn in Hbefore by lia.
  destruct (History_deterministic g p _ _ _ _ Hbefore (Forall_firstn_of _ m _ Hall)
              _ _ _ Hh0 Hall0) as (HF & _ & ->).
  rewrite (buildStagePrompt_same stage context0 _ _ HF) in Hprompt'.
  assert (prompt' = prompt) by congruence. subst prompt'.
  assert (Hans : AnsweredBy g (mkCall (model stage) prompt settled)).
  { rewrite Forall_forall in Hall. apply Hall. eapply nth_error_In. exact Hc. }
  unfold AnsweredBy in Hans. cbn [call_outcome call_model call_prompt] in Hans.
  rewrite Hans, Hg in Htext. cbn [settle] in Htext. congruence.
Qed.

Lemma Forall2_sameStageResult_nth (l1 l2 : list StageResult) :
  Forall2 sameStageResult l1 l2 ->
  forall k r1 r2,
    nth_error l1 k = Some r1 -> nth_error l2 k = Some r2 -> sameStageResult r1 r2.
Proof.
  intros HF k. revert l1 l2 HF.
  induction k as [|k IH]; intros l1 l2 HF r1 r2 H1 H2;
    destruct HF as [|a b l1 l2 Hab HF]; try discriminate; simpl in H1, H2.
  - injection H1 as <-. injection H2 as <-. exact Hab.
  - eapply IH; eassumption.
Qed.

(** X28: a run is deterministic up to timing.  When the service is a
    function of the model reference and the prompt, two runs on the same
    problem text and budget, whatever their clocks and the states they
    start in, make the same invocations with the same outcomes and end
    alike: both return, with results that agree in the problem, the
    category and, stage result by stage result, in the stage, model,
    role, chemistry and response (in every field but the durations), or
    both reject with the same [TypeError]. *)
Theorem runPipeline_deterministic_up_to_timing
  (Env1 Env2 : Type)
  (dateNow1 : Env1 -> Z * Env1) (service1 : string -> string -> Env1 -> Outcome * Env1)
  (dateNow2 : Env2 -> Z * Env2) (service2 : string -> string -> Env2 -> Outcome * Env2)
  (g : string -> string -> Outcome)
  (p : string) (n : Z) (w1 : World Env1) (w2 : World Env2) :
  Deterministic service1 g ->
  Deterministic service2 g ->
  let run1 := runPipeline dateNow1 service1 p n w1 in
  let run2 := runPipeline dateNow2 service2 p n w2 in
  newCalls w1 (worldOf run1) = newCalls w2 (worldOf run2) /\
  ((exists res1 w1' res2 w2',
      run1 = inr (res1, w1') /\
      run2 = inr (res2, w2') /\
      sameUpToTiming res1 res2 /\
      problem res1 = problem res2 /\
      category res1 = category res2 /\
      List.length (stagesRun res1) = List.length (stagesRun res2) /\
      forall k r1 r2,
        nth_error (stagesRun res1) k = Some r1 ->
        nth_error (stagesRun res2) k = Some r2 ->
        r_stage r1 = r_stage r2 /\ r_model r1 = r_model r2 /\ r_role r1 = r_role r2 /\
        r_chemistry r1 = r_chemistry r2 /\ r_response r1 = r_response r2) \/
   (exists w1' w2',
      run1 = inl (cannotConvert, w1') /\
      run2 = inl (cannotConvert, w2'))).
Proof.
  intros Hg1 Hg2. cbv zeta.
  destruct (runPipeline_outcome Env1 dateNow1 service1 p n w1) as (_ & Hs1 & Hcases1).
  destruct (runPipeline_outcome Env2 dateNow2 service2 p n w2) as (_ & Hs2 & Hcases2).
  cbv zeta in Hcases1, Hcases2.
  apply (Served_AnsweredBy service1 g _ Hg1) in Hs1.
  apply (Served_AnsweredBy service2 g _ Hg2) in Hs2.
  destruct Hcases1 as [(res1 & w1' & ctx1 & Hrun1 & Hp1 & Hc1 & Hh1) | (w1' & Hrun1 & Hstop1)];
    destruct Hcases2 as [(res2 & w2' & ctx2 & Hrun2 & Hp2 & Hc2 & Hh2) | (w2' & Hrun2 & Hstop2)];
    rewrite Hrun1, Hrun2 in *; cbn [worldOf] in *.
  - destruct (History_deterministic g p _ _ _ _ Hh1 Hs1 _ _ _ Hh2 Hs2) as (HF & Hcs & _).
    split; [exact Hcs|]. left. exists res1, w1', res2, w2'.
    split; [reflexivity|]. split; [reflexivity|].
    split; [repeat split; congruence|].
    split; [congruence|]. split; [congruence|].
    split; [eapply Forall2_length; eassumption|].
    intros k r1 r2 H1 H2. exact (Forall2_sameStageResult_nth _ _ HF k r1 r2 H1 H2).
  - exfalso. destruct Hstop2 as [m rs0 done ctx0 stage prompt v Hm Hh0 Hat Hprompt Hv Hcs].
    rewrite Hcs in Hs2. apply Forall_app in Hs2. destruct Hs2 as [Hdone Hlast].
    apply Forall_inv in Hlast. unfold AnsweredBy in Hlast.
    cbn [call_outcome call_model call_prompt] in Hlast.
    exact (History_excludes_stop g p _ (turns n) m _ _ _ _ _ _ _ _ _
             Hh1 Hs1 Hm Hh0 Hdone Hat Hprompt (eq_sym Hlast) Hv).
  - exfalso. destruct Hstop1 as [m rs0 done ctx0 stage prompt v Hm Hh0 Hat Hprompt Hv Hcs].
    rewrite Hcs in Hs1. apply Forall_app in Hs1. destruct Hs1 as [Hdone Hlast].
    apply Forall_inv in Hlast. unfold AnsweredBy in Hlast.
    cbn [call_outcome call_model call_prompt] in Hlast.
    exact (History_excludes_stop g p _ (turns n) m _ _ _ _ _ _ _ _ _
             Hh2 Hs2 Hm Hh0 Hdone Hat Hprompt (eq_sym Hlast) Hv).
  - destruct Hstop1 as [m1 rs1 done1 ctx1 stage1 prompt1 v1 Hm1 Hh1 Hat1 Hprompt1 Hv1 Hcs1].
    destruct Hstop2 as [m2 rs2 done2 ctx2 stage2 prompt2 v2 Hm2 Hh2 Hat2 Hprompt2 Hv2 Hcs2].
    rewrite Hcs1 in Hs1. apply Forall_app in Hs1. destruct Hs1 as [Hdone1 Hlast1].
    rewrite Hcs2 in Hs2. apply Forall_app in Hs2. destruct Hs2 as [Hdone2 Hlast2].
    apply Forall_inv in Hlast1. apply Forall_inv in Hlast2.
    unfold AnsweredBy in Hlast1, Hlast2.
    cbn [call_outcome call_model call_prompt] in Hlast1, Hlast2.
    destruct (Nat.lt_trichotomy m1 m2) as [Hlt | [Heq | Hgt]].
    + exfalso.
      exact (History_excludes_stop g p _ m2 m1 _ _ _ _ _ _ _ _ _
               Hh2 Hdone2 Hlt Hh1 Hdone1 Hat1 Hprompt1 (eq_sym Hlast1) Hv1).
    + subst m2. assert (stage2 = stage1) by congruence. subst stage2.
      destruct (History_deterministic g p _ _ _ _ Hh1 Hdone1 _ _ _ Hh2 Hdone2)
        as (HF & -> & ->).
      rewrite (buildStagePrompt_same stage1 ctx2 _ _ HF) in Hprompt1.
      assert (prompt2 = prompt1) by congruence. subst prompt2.
      split; [|right; exists w1', w2'; split; reflexivity].
      rewrite Hcs1, Hcs2. do 3 f_equal. congruence.
    + exfalso.
      exact (History_excludes_stop g p _ m1 m2 _ _ _ _ _ _ _ _ _
               Hh1 Hdone1 Hgt Hh2 Hdone2 Hat2 Hprompt2 (eq_sym Hlast2) Hv2).
Qed.

(** * Where a run rejects *)

(** C1, at a failing input.  The mistral model is down and every other
    model answers with a JSON document whose [response] field is an
    object that has a [toString] property.  A run on a build problem
    with a budget of 3 absorbs the failure of its first turn, invokes
    the model of its second turn, and then rejects with a [TypeError]:
    it returns no result and never invokes the model of its third
    turn. *)
Theorem runPipeline_stops_after_absorbed_failure :
  exists w',
    runPipeline Sample.clock Exotic.flaky "Build failed: tsc" 3 Sample.start
      = inl (cannotConvert, w') /\
    turns 3 = 3%nat /\
    map call_model (calls w') = ["mistral:latest"; "gemma:7b"] /\
    map call_outcome (calls w')
      = [Rejected "Error: connect ECONNREFUSED"; Resolved Exotic.reply] /\
    responseText Exotic.reply = None.
Proof.
  eexists. split; [vm_compute; reflexivity|]. repeat split.
Qed.

(** C2, at a failing input.  Every model answers with a JSON document
    whose [response] field is an object that has a [toString] property.
    A run with a budget of 1 invokes one model and rejects with a
    [TypeError]: it returns no result, so not one with a single stage
    result. *)
Theorem runPipeline_single_turn_rejects :
  exists w',
    runPipeline Sample.clock Exotic.service "Build failed: tsc" 1 Sample.start
      = inl (cannotConvert, w') /\
    List.length (calls w') = 1%nat /\
    ~ exists res w1,
        runPipeline Sample.clock Exotic.service "Build failed: tsc" 1 Sample.start
          = inr (res, w1) /\
        List.length (stagesRun res) = 1%nat.
Proof.
  eexists. split; [vm_compute; reflexivity|]. split; [reflexivity|].
  intros (res & w1 & H & _). vm_compute in H. discriminate H.
Qed.

(** C4, at a failing input.  Every model answers with a JSON document
    whose [response] field is an object that has a [toString] property.
    A run on a syntax problem with a budget of 3 executes the stage at
    index 0 only and rejects: the stages at indices 1 and 2 are never
    executed. *)
Theorem runPipeline_visits_first_stage_only :
  classifyError "Unexpected token '>' in JSX" = syntax /\
  exists w',
    runPipeline Sample.clock Exotic.service "Unexpected token '>' in JSX" 3 Sample.start
      = inl (cannotConvert, w') /\
    map call_model (calls w') = ["falcon:7b"] /\
    option_map model (at_index PIPELINE_STAGES 0) = Some "falcon:7b".
Proof.
  split; [reflexivity|]. eexists. split; [vm_compute; reflexivity|]. split; reflexivity.
Qed.



(** * The theorems at work on the sample environment *)

Lemma Sample_service_textual : Textual Sample.service.
Proof.
  intros m pr e v H. unfold Sample.service in H. cbn [fst] in H.
  destruct (String.eqb m "mistral:latest"); [discriminate|].
  injection H as <-. eexists. reflexivity.
Defined.

Lemma Sample_service_deterministic : Deterministic Sample.service Sample.answer.
Proof. intros m pr e. reflexivity. Defined.

(** The mistral model is down: a build problem starts there, its result
    holds the error marker, and the two stages after it still run. *)
Lemma runPipeline_isolates_failures_witness :
  Textual Sample.service /\
  exists res w',
    runPipeline Sample.clock Sample.service "Build failed: tsc" 3 Sample.start
      = inr (res, w') /\
    option_map r_response (nth_error (stagesRun res) 0)
      = Some (errorMarker "mistral:latest" "Error: connect ECONNREFUSED") /\
    List.length (stagesRun res) = 3%nat.
Proof.
  split; [exact Sample_service_textual|].
  destruct (runPipeline_isolates_failures nat Sample.clock Sample.service
              "Build failed: tsc" 3 Sample.start Sample_service_textual)
    as (res & w' & Hrun & Hlen & _ & Hfail).
  exists res, w'. split; [exact Hrun|]. split; [|exact Hlen].
  pose proof Hrun as Hval. vm_compute in Hval. injection Hval as <- <-.
  destruct (Hfail 0%nat _ _ eq_refl eq_refl)
    as (stage & r & msg & Hat & _ & Hr & _ & Hresp & Hmsg & _).
  vm_compute in Hat. injection Hat as <-.
  rewrite Hr. simpl. rewrite Hresp, Hmsg. reflexivity.
Defined.

Lemma runPipeline_stage_count_witness :
  Textual Sample.service /\ 1 <= 9 /\
  exists res w',
    runPipeline Sample.clock Sample.service "Build failed: tsc" 9 Sample.start
      = inr (res, w') /\
    List.length (stagesRun res) = 7%nat.
Proof.
  split; [exact Sample_service_textual|]. split; [lia|].
  destruct (runPipeline_stage_count nat Sample.clock Sample.service
              "Build failed: tsc" 9 Sample.start Sample_service_textual ltac:(lia))
    as (_ & _ & res & w' & Hrun & _ & _ & _ & Hlen).
  exists res, w'. split; [exact Hrun | apply Hlen; lia].
Defined.

Lemma runPipeline_stage_order_witness :
  Textual Sample.service /\ 1 <= 7 /\
  classifyError "Module not found: cannot find module 'foo'" = dependency /\
  exists res w',
    runPipeline Sample.clock Sample.service
      "Module not found: cannot find module 'foo'" 7 Sample.start = inr (res, w') /\
    map stageIndexOf (stagesRun res)
      = [Some 3; Some 4; Some 5; Some 6; Some 0; Some 1; Some 2].
Proof.
  split; [exact Sample_service_textual|]. split; [lia|]. split; [reflexivity|].
  destruct (runPipeline_stage_order nat Sample.clock Sample.service
              "Module not found: cannot find module 'foo'" 7 Sample.start
              Sample_service_textual ltac:(lia))
    as (res & w' & Hrun & _ & _ & _ & Hdep).
  exists res, w'. split; [exact Hrun | apply Hdep; reflexivity].
Defined.

Lemma runPipeline_no_budget_witness :
  0 <= 0 /\
  exists res w',
    runPipeline Sample.clock Sample.service "Build failed: tsc" 0 Sample.start
      = inr (res, w') /\
    stagesRun res = [] /\
    calls w' = [].
Proof.
  split; [lia|].
  destruct (runPipeline_no_budget nat Sample.clock Sample.service
              "Build failed: tsc" 0 Sample.start ltac:(lia))
    as (res & w' & Hrun & Hnone & _ & _ & Hcalls & _).
  exists res, w'. split; [exact Hrun|]. split; [exact Hnone | exact Hcalls].
Defined.

Lemma diagnose_entry_points_witness :
  stringParam "problem" (Sample.params "standard") = Some "  Build failed: tsc  " /\
  trim "  Build failed: tsc  " <> EmptyString /\
  diagnoseExecute Sample.clock Sample.service (Sample.params "standard") Sample.start
    = payloadOf (runPipeline Sample.clock Sample.service "Build failed: tsc" 3 Sample.start).
Proof.
  assert (Hne : trim "  Build failed: tsc  " <> EmptyString) by (vm_compute; discriminate).
  split; [reflexivity|]. split; [exact Hne|].
  destruct (diagnose_entry_points nat Sample.clock Sample.service "Build failed: tsc"
              Sample.start (Sample.params "standard") "  Build failed: tsc  "
              eq_refl Hne)
    as (_ & _ & _ & _ & Hstandard & _).
  apply Hstandard. reflexivity.
Defined.

(** Two runs under different clocks, from different states: the results
    agree apart from the timing, which differs. *)
Lemma runPipeline_deterministic_up_to_timing_witness :
  Deterministic Sample.service Sample.answer /\
  exists res1 w1 res2 w2,
    runPipeline Sample.clock Sample.service "Build failed: tsc" 3 Sample.start
      = inr (res1, w1) /\
    runPipeline Sample.slowClock Sample.service "Build failed: tsc" 3 Sample.later
      = inr (res2, w2) /\
    sameUpToTiming res1 res2 /\
    totalDurationMs res1 <> totalDurationMs res2.
Proof.
  split; [exact Sample_service_deterministic|].
  destruct (runPipeline_deterministic_up_to_timing nat nat
              Sample.clock Sample.service Sample.slowClock Sample.service
              Sample.answer "Build failed: tsc" 3 Sample.start Sample.later
              Sample_service_deterministic Sample_service_deterministic)
    as (_ & [(res1 & w1 & res2 & w2 & Hrun1 & Hrun2 & Hsame & _)
            | (w1 & w2 & Hrun1 & _)]).
  - exists res1, w1, res2, w2.
    split; [exact Hrun1|]. split; [exact Hrun2|]. split; [exact Hsame|].
    pose proof Hrun1 as V1. pose proof Hrun2 as V2.
    vm_compute in V1, V2. injection V1 as <- <-. injection V2 as <- <-.
    vm_compute. discriminate.
  - exfalso. vm_compute in Hrun1. discriminate Hrun1.
Defined.

(** A text without keywords starts at the first responder. *)
Lemma getStartStage_table_witness :
  classifyError "hello world" = unknown /\
  getStartStage (classifyError "hello world") = 2.
Proof.
  destruct (getStartStage_table unknown "hello world") as (_ & _ & _ & _ & Hnone).
  apply Hnone. intros c keywords k Hin Hk Hocc.
  apply includes_spec in Hocc. cbn in Hin.
  repeat (destruct Hin as [Hin | Hin];
          [ injection Hin as <- <-; cbn in Hk;
            repeat (destruct Hk as [<- | Hk]; [discriminate Hocc|]);
            contradiction
          | ]).
  contradiction.
Defined.

(** The prompt of the second turn holds the problem text and the block
    of the first, failed, turn. *)
Lemma runPipeline_context_witness :
  exists c,
    nth_error
      (newCalls Sample.start
         (worldOf (runPipeline Sample.clock Sample.service "Build failed: tsc" 3
                     Sample.start))) 1 = Some c /\
    Contains
      ("Build failed: tsc" ++ LF ++ LF ++ "--- First Responder (mistral:latest) ---" ++ LF
         ++ Json.stringify (errorMarker "mistral:latest" "Error: connect ECONNREFUSED"))
      (call_prompt c).
Proof.
  destruct (runPipeline_context nat Sample.clock Sample.service
              "Build failed: tsc" 3 Sample.start) as (Hctx & _).
  cbv zeta in Hctx.
  eexists. split; [vm_compute; reflexivity|].
  destruct (Hctx 1%nat _ ltac:(vm_compute; reflexivity))
    as (stage & prior & texts & _ & _ & Hlen & Hfrom & Hresp & _ & Htexts & _ & Hin & _).
  destruct prior as [|r [|r' prior]]; try discriminate Hlen.
  inversion Htexts as [|? text ? texts' Ht Hrest]; subst.
  inversion Hrest; subst.
  assert (Hfirst :
            map responseOf
              (firstn 1
                 (newCalls Sample.start
                    (worldOf (runPipeline Sample.clock Sample.service "Build failed: tsc" 3
                                Sample.start))))
            = [errorMarker "mistral:latest" "Error: connect ECONNREFUSED"])
    by (vm_compute; reflexivity).
  rewrite Hfirst in Hresp. cbn [map] in Hresp.
  assert (Hr : r_response r = errorMarker "mistral:latest" "Error: connect ECONNREFUSED")
    by congruence.
  rewrite Hr, responseText_errorMarker in Ht.
  assert (Htext : text = Json.stringify
                           (errorMarker "mistral:latest" "Error: connect ECONNREFUSED"))
    by congruence.
  inversion Hfrom as [|? ? ? ? (st & Hat & _ & Hm & Hro & _) _]; subst.
  vm_compute in Hat. injection Hat as <-. cbn [role model] in Hm, Hro.
  cbn [combine map concatAll fold_right fst snd] in Hin.
  rewrite Hm, Hro, append_nil_r in Hin.
  exact Hin.
Defined.


(** * The end-to-end scenarios of the specification *)

Example scenario_syntax :
  classifyError "Unexpected token '>' in JSX" = syntax /\
  getStartStage syntax = 0 /\
  exists r t w',
    quickDiagnose Sample.clock Sample.service "Unexpected token '>' in JSX" Sample.start
      = inr ({| problem := "Unexpected token '>' in JSX"; category := syntax;
                stagesRun := [r]; totalDurationMs := t |}, w') /\
    r_role r = "Syntax Specialist" /\ r_model r = "falcon:7b".
Proof.
  split; [reflexivity|]. split; [reflexivity|].
  eexists. eexists. eexists. split; [vm_compute; reflexivity|]. split; reflexivity.
Qed.

Example scenario_dependency :
  classifyError "Module not found: cannot find module 'foo'" = dependency /\
  getStartStage dependency = 3 /\
  option_map role (at_index PIPELINE_STAGES 3) = Some "Dependency Coordinator".
Proof. repeat split. Qed.


(** * More about the executor *)

Lemma schedule_NoDup (startIdx : Z) (n : nat) :
  (n <= 7)%nat -> NoDup (schedule startIdx n).
Proof.
  intros Hn. unfold schedule. apply NoDup_map_NoDup_ForallPairs; [|apply seq_NoDup].
  intros a b Ha Hb. apply in_seq in Ha. apply in_seq in Hb.
  rewrite stageCount_eq. intros H.
  assert (Z.of_nat a = Z.of_nat b) by (Z.div_mod_to_equations; lia).
  lia.
Qed.

Lemma schedule_snoc (startIdx : Z) (m : nat) :
  schedule startIdx (S m)
  = (schedule startIdx m ++ [(startIdx + Z.of_nat m) mod stageCount])%list.
Proof. unfold schedule. now rewrite seq_S, map_app. Qed.

Lemma turns_le (n : Z) : (turns n <= 7)%nat.
Proof. rewrite turns_eq. lia. Qed.

Lemma History_names problemText idxs rs cs context :
  History problemText idxs rs cs context -> map r_stage rs = map stageNameAt idxs.
Proof.
  induction 1 as [|idxs rs cs context idx stage settled duration prompt text
                    _ IH Hat _ _]; [reflexivity|].
  rewrite !map_app, IH. f_equal. cbn [map r_stage]. unfold stageNameAt.
  now rewrite Hat.
Qed.

Lemma History_call_models problemText idxs rs cs context :
  History problemText idxs rs cs context ->
  Forall2 (fun idx c => exists stage,
               at_index PIPELINE_STAGES idx = Some stage /\ call_model c = model stage)
    idxs cs.
Proof.
  induction 1 as [|idxs rs cs context idx stage settled duration prompt text
                    _ IH Hat _ _]; [constructor|].
  apply Forall2_app; [exact IH|]. constructor; [|constructor]. now exists stage.
Qed.

(** Two registry entries with the same model are the same entry. *)
Lemma model_identifies_stage (i j : Z) (s1 s2 : PipelineStage) :
  at_index PIPELINE_STAGES i = Some s1 ->
  at_index PIPELINE_STAGES j = Some s2 ->
  model s1 = model s2 -> i = j.
Proof.
  intros H1 H2.
  pose proof (at_index_Some_range _ _ _ H1) as R1.
  pose proof (at_index_Some_range _ _ _ H2) as R2. simpl in R1, R2.
  assert (i = 0 \/ i = 1 \/ i = 2 \/ i = 3 \/ i = 4 \/ i = 5 \/ i = 6) as C1 by lia.
  assert (j = 0 \/ j = 1 \/ j = 2 \/ j = 3 \/ j = 4 \/ j = 5 \/ j = 6) as C2 by lia.
  decompose [or] C1; decompose [or] C2; subst i j; try reflexivity;
    vm_compute in H1, H2; injection H1 as <-; injection H2 as <-;
    intros E; discriminate E.
Qed.

Lemma call_models_NoDup (idxs : list Z) (cs : list Call) :
  Forall2 (fun idx c => exists stage,
               at_index PIPELINE_STAGES idx = Some stage /\ call_model c = model stage)
    idxs cs ->
  NoDup idxs -> NoDup (map call_model cs).
Proof.
  induction 1 as [|idx c idxs cs (stage & Hat & Hm) HF IH]; intros Hnd; simpl;
    [constructor|].
  inversion Hnd as [|? ? Hnotin Hnd']; subst. constructor; [|now apply IH].
  intros Hin. apply in_map_iff in Hin. destruct Hin as (c' & Hc' & Hin).
  apply Hnotin. clear IH Hnd Hnd' Hnotin.
  induction HF as [|idx' c0 idxs cs (stage' & Hat' & Hm') HF IH]; [contradiction|].
  destruct Hin as [-> | Hin].
  - left. symmetry. eapply model_identifies_stage; eauto. congruence.
  - right. now apply IH.
Qed.

Section ExecutorFacts.

Variable Env : Type.
Variable dateNow : Env -> Z * Env.
Variable ollamaGenerate : string -> string -> Env -> Outcome * Env.

(** X1: with a service whose answers all have a text, [quickDiagnose]
    consults exactly one model, the one at the start index of the
    problem's category; that index is at most 4, so the quick path never
    runs the final review or the fallback stage. *)
Theorem quickDiagnose_single_opening_stage (p : string) (w : World Env) :
  Textual ollamaGenerate ->
  exists res w' r,
    quickDiagnose dateNow ollamaGenerate p w = inr (res, w') /\
    stagesRun res = [r] /\
    stageIndexOf r = Some (getStartStage (classifyError p)) /\
    0 <= getStartStage (classifyError p) <= 4 /\
    r_stage r <> "final_review" /\
    r_stage r <> "fallback" /\
    List.length (newCalls w w') = 1%nat.
Proof.
  intros Htextual. unfold quickDiagnose.
  destruct (runPipeline_history Env dateNow ollamaGenerate p 1 w Htextual)
    as (res & w' & context & Hrun & _ & _ & _ & Hh & _).
  destruct (History_length _ _ _ _ _ Hh) as [Lr Lc].
  rewrite schedule_length in Lr, Lc. change (turns 1) with 1%nat in *.
  destruct (History_nth _ _ _ _ _ Hh 0%nat _ (schedule_nth _ 1 0 ltac:(lia)))
    as (stage & settled & duration & prompt & before & text & Hat & Hr & _).
  destruct (stagesRun res) as [|r [|r' rest]] eqn:Ers; try discriminate.
  exists res, w', r. split; [exact Hrun|]. split; [exact Ers|].
  simpl in Hr. injection Hr as ->.
  unfold stageIndexOf. cbn [r_stage].
  destruct (classifyError p); vm_compute in Hat; injection Hat as <-;
    repeat split; try discriminate; try reflexivity; try exact Lc;
    cbn; lia.
Qed.

(** X2: no stage runs twice in one run, whatever the budget and however
    the run ends: the models of the invocations are pairwise distinct,
    and so are the stage names of the results of a run that returns. *)
Theorem runPipeline_no_stage_twice (p : string) (n : Z) (w : World Env) :
  let run := runPipeline dateNow ollamaGenerate p n w in
  NoDup (map call_model (newCalls w (worldOf run))) /\
  (forall res w', run = inr (res, w') -> NoDup (map r_stage (stagesRun res))).
Proof.
  cbv zeta.
  destruct (runPipeline_outcome Env dateNow ollamaGenerate p n w) as (_ & _ & Hcases).
  cbv zeta in Hcases.
  destruct Hcases as [(res & w' & context & Hrun & _ & _ & Hh) | (w' & Hrun & Hstop)];
    rewrite Hrun; cbn [worldOf].
  - pose proof (schedule_NoDup (getStartStage (classifyError p)) (turns n) (turns_le n))
      as Hnd.
    split.
    + eapply call_models_NoDup; [|exact Hnd]. eapply History_call_models; eassumption.
    + intros res1 w1 [= <- _].
      pose proof (stageIndexOf_fromStage _ _ (History_fromStage _ _ _ _ _ Hh)) as HI.
      apply (NoDup_map_inv (fun nm => findStage nm PIPELINE_STAGES 0)).
      rewrite map_map. change (map (fun r => findStage (r_stage r) PIPELINE_STAGES 0))
        with (map stageIndexOf). rewrite HI.
      apply NoDup_map_NoDup_ForallPairs; [|exact Hnd].
      intros a b _ _ E. now injection E.
  - destruct Hstop as [m rs done context stage prompt v Hm Hh Hat _ _ Hcs].
    split; [|intros res1 w1 H; discriminate H].
    rewrite Hcs.
    apply (call_models_NoDup (schedule (getStartStage (classifyError p)) (S m))).
    + rewrite schedule_snoc. apply Forall2_app.
      * eapply History_call_models; eassumption.
      * constructor; [|constructor]. now exists stage.
    + apply schedule_NoDup. pose proof (turns_le n). lia.
Qed.

(** X3: with a service whose answers all have a text, a run with a
    budget of seven or more, [deepDiagnose] among them, runs every stage
    of the registry exactly once: the stage names of its results are a
    rearrangement of the registry's. *)
Theorem runPipeline_full_rotation (p : string) (n : Z) (w : World Env) :
  Textual ollamaGenerate ->
  7 <= n ->
  exists res w',
    runPipeline dateNow ollamaGenerate p n w = inr (res, w') /\
    Permutation (map r_stage (stagesRun res)) (map name PIPELINE_STAGES) /\
    (forall stage, In stage PIPELINE_STAGES ->
                   exists r, In r (stagesRun res) /\ r_stage r = name stage).
Proof.
  intros Htextual Hn.
  destruct (runPipeline_history Env dateNow ollamaGenerate p n w Htextual)
    as (res & w' & context & Hrun & _ & _ & _ & Hh & _).
  exists res, w'. split; [exact Hrun|].
  assert (Ht : turns n = 7%nat) by (rewrite turns_eq; lia).
  rewrite Ht in Hh. apply History_names in Hh.
  assert (HP : Permutation (map r_stage (stagesRun res)) (map name PIPELINE_STAGES)).
  { rewrite Hh.
    destruct (classifyError p); cbn [getStartStage].
    - apply Permutation_refl.
    - exact (Permutation_app_comm
               (skipn 1 (map name PIPELINE_STAGES)) (firstn 1 (map name PIPELINE_STAGES))).
    - exact (Permutation_app_comm
               (skipn 2 (map name PIPELINE_STAGES)) (firstn 2 (map name PIPELINE_STAGES))).
    - exact (Permutation_app_comm
               (skipn 3 (map name PIPELINE_STAGES)) (firstn 3 (map name PIPELINE_STAGES))).
    - exact (Permutation_app_comm
               (skipn 4 (map name PIPELINE_STAGES)) (firstn 4 (map name PIPELINE_STAGES))).
    - exact (Permutation_app_comm
               (skipn 2 (map name PIPELINE_STAGES)) (firstn 2 (map name PIPELINE_STAGES))). }
  split; [exact HP|].
  intros stage Hin.
  assert (Hname : In (name stage) (map r_stage (stagesRun res))).
  { eapply Permutation_in; [apply Permutation_sym; exact HP|]. now apply in_map. }
  apply in_map_iff in Hname. destruct Hname as (r & Hr & Hinr). now exists r.
Qed.

End ExecutorFacts.


Lemma sumDurations_snoc (rs : list StageResult) (r : StageResult) :
  sumDurations (rs ++ [r])%list = sumDurations rs + r_durationMs r.
Proof.
  unfold sumDurations. induction rs as [|x rs IH]; simpl; [lia|].
  rewrite IH. lia.
Qed.

Lemma Deterministic_Textual {Env : Type}
  (ollamaGenerate : string -> string -> Env -> Outcome * Env)
  (g : string -> string -> Outcome) :
  Deterministic ollamaGenerate g ->
  (forall modelRef prompt v, g modelRef prompt = Resolved v -> HasText v) ->
  Textual ollamaGenerate.
Proof.
  intros Hg Ht modelRef prompt e v H. rewrite Hg in H. eapply Ht; eassumption.
Qed.

(** X4: with a service that is a function of the model reference and
    the prompt and whose answers all have a text, a smaller budget gives
    a prefix of what a larger budget gives: the results of a run with
    budget [m] are, apart from the durations, the first results of a run
    with budget [n >= m] on the same problem. *)
Theorem runPipeline_budget_prefix
  (Env1 Env2 : Type)
  (dateNow1 : Env1 -> Z * Env1) (service1 : string -> string -> Env1 -> Outcome * Env1)
  (dateNow2 : Env2 -> Z * Env2) (service2 : string -> string -> Env2 -> Outcome * Env2)
  (g : string -> string -> Outcome)
  (p : string) (m n : Z) (w1 : World Env1) (w2 : World Env2) :
  Deterministic service1 g ->
  Deterministic service2 g ->
  (forall modelRef prompt v, g modelRef prompt = Resolved v -> HasText v) ->
  m <= n ->
  exists small w1' large w2',
    runPipeline dateNow1 service1 p m w1 = inr (small, w1') /\
    runPipeline dateNow2 service2 p n w2 = inr (large, w2') /\
    category small = category large /\
    (List.length (stagesRun small) <= List.length (stagesRun large))%nat /\
    Forall2 sameStageResult (stagesRun small)
      (firstn (List.length (stagesRun small)) (stagesRun large)).
Proof.
  intros Hg1 Hg2 Htext Hmn.
  destruct (runPipeline_history Env1 dateNow1 service1 p m w1
              (Deterministic_Textual service1 g Hg1 Htext))
    as (small & w1' & ctx1 & Hrun1 & _ & Hc1 & _ & Hh1 & Hs1).
  destruct (runPipeline_history Env2 dateNow2 service2 p n w2
              (Deterministic_Textual service2 g Hg2 Htext))
    as (large & w2' & ctx2 & Hrun2 & _ & Hc2 & _ & Hh2 & Hs2).
  exists small, w1', large, w2'. split; [exact Hrun1|]. split; [exact Hrun2|].
  split; [congruence|].
  destruct (History_length _ _ _ _ _ Hh1) as [L1 _].
  destruct (History_length _ _ _ _ _ Hh2) as [L2 _].
  rewrite schedule_length in L1, L2.
  assert (Hle : (turns m <= turns n)%nat) by (rewrite !turns_eq; lia).
  split; [lia|]. rewrite L1.
  destruct (History_firstn _ _ _ _ _ Hh2 (turns m)) as [before Hcut].
  rewrite schedule_firstn in Hcut by exact Hle.
  eapply History_deterministic; [exact Hh1 | | exact Hcut |].
  - exact (Served_AnsweredBy service1 g _ Hg1 Hs1).
  - apply Forall_firstn_of. exact (Served_AnsweredBy service2 g _ Hg2 Hs2).
Qed.

(** The context holds the block of each of its results. *)
Lemma contextAfter_contains_block (problemText context text : string)
  (rs : list StageResult) (j : nat) (r : StageResult) :
  contextAfter problemText rs = Some context ->
  nth_error rs j = Some r ->
  responseText (r_response r) = Some text ->
  Contains (contextBlock (r_role r) (r_model r) text) context.
Proof.
  unfold contextAfter, concatSome. intros Hc Hr Ht.
  destruct (Json.allSome (map blockOf rs)) as [blocks|] eqn:E; [|discriminate].
  cbn [option_map] in Hc.
  replace context with (problemText ++ concatAll blocks) by congruence.
  apply Contains_append_r, concatAll_contains.
  destruct (Forall2_nth _ _ _ (allSome_Forall2 blockOf rs blocks E) j r Hr)
    as (block & Hb & Hblock).
  unfold blockOf in Hblock. rewrite Ht in Hblock. cbn [option_map] in Hblock.
  replace (contextBlock (r_role r) (r_model r) text) with block by congruence.
  eapply nth_error_In. exact Hb.
Qed.

Section ExecutorFlow.

Variable Env : Type.
Variable dateNow : Env -> Z * Env.
Variable ollamaGenerate : string -> string -> Env -> Outcome * Env.

(** X5: what a turn answered reaches every later turn in full, however
    the run ends: the response of turn [j] has a text, and the prompt of
    every turn [k > j] holds the context block of turn [j], and so the
    whole of that text; where turn [j] was rejected, the text is the
    JSON form of its error marker. *)
Theorem runPipeline_prompts_carry_responses (p : string) (n : Z) (w : World Env) :
  let made := newCalls w (worldOf (runPipeline dateNow ollamaGenerate p n w)) in
  forall j k cj ck,
    (j < k)%nat ->
    nth_error made j = Some cj ->
    nth_error made k = Some ck ->
    exists stage text,
      at_index PIPELINE_STAGES
        ((getStartStage (classifyError p) + Z.of_nat j) mod stageCount) = Some stage /\
      call_model cj = model stage /\
      responseText (responseOf cj) = Some text /\
      Contains (contextBlock (role stage) (model stage) text) (call_prompt ck) /\
      Contains text (call_prompt ck) /\
      (forall err, call_outcome cj = Rejected err ->
                   text = Json.stringify (errorMarker (call_model cj) err)).
Proof.
  cbv zeta. intros j k cj ck Hjk Hcj Hck.
  destruct (runPipeline_call Env dateNow ollamaGenerate p n w k ck Hck)
    as (stk & prior & context & Hk & _ & Hh & Hprompt & _ & _).
  destruct (History_length _ _ _ _ _ Hh) as [Lr Lc]. rewrite schedule_length in Lr, Lc.
  destruct (History_nth _ _ _ _ _ Hh j _ (schedule_nth _ _ _ Hjk))
    as (stj & oj & dj & pj & before & text & Hat & Hr & Hc & _ & _ & Htext).
  rewrite nth_error_firstn in Hc.
  destruct (Nat.ltb_spec j k) as [_ | Hge]; [|lia].
  rewrite Hcj in Hc. injection Hc as ->.
  exists stj, text. split; [exact Hat|]. split; [reflexivity|].
  assert (Hresp : responseOf (mkCall (model stj) pj oj) = settle stj oj)
    by (unfold responseOf; cbn [call_outcome call_model]; now destruct oj).
  rewrite Hresp. split; [exact Htext|].
  assert (Hblock : Contains (contextBlock (role stj) (model stj) text) (call_prompt ck)).
  { eapply Contains_trans; [|eapply buildStagePrompt_contains_context; exact Hprompt].
    exact (contextAfter_contains_block p context text prior j _
             (History_context _ _ _ _ _ Hh) Hr Htext). }
  split; [exact Hblock|]. split.
  - eapply Contains_trans; [|exact Hblock]. unfold contextBlock. in_chain.
  - intros err Herr. cbn [call_outcome call_model] in *. subst oj.
    cbn [settle] in Htext. rewrite responseText_errorMarker in Htext. congruence.
Qed.

Variable tick : Env -> Z.
Hypothesis Hclock : MonotoneClock dateNow ollamaGenerate tick.

Lemma runStage_timing stage ctx rs (w : World Env) ctx' rs' w' :
  runStage dateNow ollamaGenerate stage ctx rs w = inr ((ctx', rs'), w') ->
  exists r, rs' = (rs ++ [r])%list /\
            0 <= r_durationMs r /\
            tick (env w) + r_durationMs r <= tick (env w').
Proof.
  destruct Hclock as [Hnow Hgen].
  unfold runStage.
  destruct (buildStagePrompt stage ctx rs) as [prompt|];
    [|unfold bind, orThrow, throw; discriminate].
  unfold bind, orThrow, now, generate, ret, throw.
  pose proof (Hnow (env w)) as H0.
  destruct (dateNow (env w)) as [t0 e1]. cbn [fst snd env calls] in *.
  pose proof (Hgen (model stage) prompt e1) as H1.
  destruct (ollamaGenerate (model stage) prompt e1) as [o e2].
  cbn [fst snd env calls] in *.
  pose proof (Hnow e2) as H2.
  destruct (dateNow e2) as [t1 e3]. cbn [fst snd env calls] in *.
  destruct (responseText (settle stage o)) as [text|]; [|discriminate].
  intros H. injection H as _ <- <-. eexists. split; [reflexivity|].
  cbn [r_durationMs env]. lia.
Qed.

Lemma pipelineLoop_timing (maxStages startIdx : Z) :
  forall fuel i ctx rs (w : World Env) rs' w',
    pipelineLoop dateNow ollamaGenerate fuel maxStages startIdx i ctx rs w
      = inr (rs', w') ->
    Forall (fun r => 0 <= r_durationMs r) rs ->
    Forall (fun r => 0 <= r_durationMs r) rs' /\
    sumDurations rs' - sumDurations rs <= tick (env w') - tick (env w).
Proof.
  induction fuel as [|fuel IH]; intros i ctx rs w rs' w' Hloop Hpos;
    destruct ((i <? maxStages) && (i <? stageCount)) eqn:E.
  - simpl in Hloop. rewrite E in Hloop. discriminate.
  - rewrite pipelineLoop_exit in Hloop by exact E. injection Hloop as <- <-.
    split; [exact Hpos | lia].
  - cbn [pipelineLoop] in Hloop. rewrite E in Hloop.
    destruct (at_index PIPELINE_STAGES (Z.rem (startIdx + i) stageCount)) as [stage|];
      [|discriminate].
    unfold bind in Hloop.
    destruct (runStage dateNow ollamaGenerate stage ctx rs w)
      as [f | [[ctx1 rs1] w1]] eqn:Hstage; [discriminate|].
    destruct (runStage_timing _ _ _ _ _ _ _ Hstage) as (r & -> & Hr0 & Hr1).
    cbn [fst snd] in Hloop.
    destruct (IH _ _ _ _ _ _ Hloop) as [Hall Hsum].
    + apply Forall_app. split; [exact Hpos | constructor; [exact Hr0 | constructor]].
    + split; [exact Hall|]. rewrite sumDurations_snoc in Hsum. lia.
  - rewrite pipelineLoop_exit in Hloop by exact E. injection Hloop as <- <-.
    split; [exact Hpos | lia].
Qed.

(** X6: under a clock that never runs backwards, with a service whose
    answers all have a text, a run returns a result in which no stage
    has a negative duration and the stage durations add up to no more
    than the total duration of the run. *)
Theorem runPipeline_durations (p : string) (n : Z) (w : World Env) :
  Textual ollamaGenerate ->
  exists res w',
    runPipeline dateNow ollamaGenerate p n w = inr (res, w') /\
    Forall (fun r => 0 <= r_durationMs r) (stagesRun res) /\
    0 <= sumDurations (stagesRun res) <= totalDurationMs res.
Proof.
  intros Htextual.
  destruct (runPipeline_history Env dateNow ollamaGenerate p n w Htextual)
    as (res & w' & context & Hrun & _).
  exists res, w'. split; [exact Hrun|].
  destruct Hclock as [Hnow Hgen].
  rewrite runPipeline_unfold in Hrun.
  pose proof (Hnow (env w)) as H0.
  destruct (dateNow (env w)) as [t0 e1]. cbn [fst snd] in H0.
  destruct (pipelineLoop dateNow ollamaGenerate (List.length PIPELINE_STAGES) n
              (getStartStage (classifyError p)) 0 p [] {| env := e1; calls := calls w |})
    as [f | [rs w1]] eqn:Hloop; [discriminate|].
  destruct (pipelineLoop_timing _ _ _ _ _ _ _ _ _ Hloop (Forall_nil _)) as [Hall Hsum].
  pose proof (Hnow (env w1)) as H1.
  destruct (dateNow (env w1)) as [t1 e2]. cbn [fst snd] in H1.
  injection Hrun as <- <-. cbn [stagesRun totalDurationMs env] in *.
  split; [exact Hall|]. change (sumDurations []) with 0 in Hsum.
  split; [|lia].
  clear - Hall. unfold sumDurations.
  induction Hall as [|r rs Hr _ IH]; simpl; lia.
Qed.

End ExecutorFlow.

Lemma Sample_answers_textual :
  forall modelRef prompt v, Sample.answer modelRef prompt = Resolved v -> HasText v.
Proof.
  intros m pr v H. exact (Sample_service_textual m pr 0%nat v H).
Defined.

Lemma quickDiagnose_single_opening_stage_witness :
  Textual Sample.service /\
  exists res w' r,
    quickDiagnose Sample.clock Sample.service "Build failed: tsc" Sample.start
      = inr (res, w') /\
    stagesRun res = [r] /\
    r_stage r <> "final_review" /\
    List.length (newCalls Sample.start w') = 1%nat.
Proof.
  split; [exact Sample_service_textual|].
  destruct (quickDiagnose_single_opening_stage nat Sample.clock Sample.service
              "Build failed: tsc" Sample.start Sample_service_textual)
    as (res & w' & r & Hrun & Hone & _ & _ & Hfinal & _ & Hcalls).
  exists res, w', r. auto.
Defined.

(** The exotic service stops the run in its first turn: one model is
    invoked, once. *)
Lemma runPipeline_no_stage_twice_witness :
  NoDup
    (map call_model
       (newCalls Sample.start
          (worldOf (runPipeline Sample.clock Exotic.service "Build failed: tsc" 3
                      Sample.start)))) /\
  exists res w',
    runPipeline Sample.clock Sample.service "Build failed: tsc" 3 Sample.start
      = inr (res, w') /\
    NoDup (map r_stage (stagesRun res)).
Proof.
  split.
  - exact (proj1 (runPipeline_no_stage_twice nat Sample.clock Exotic.service
                    "Build failed: tsc" 3 Sample.start)).
  - eexists. eexists. split; [vm_compute; reflexivity|].
    apply (proj2 (runPipeline_no_stage_twice nat Sample.clock Sample.service
                    "Build failed: tsc" 3 Sample.start) _ _ ltac:(vm_compute; reflexivity)).
Defined.

Lemma runPipeline_budget_prefix_witness :
  Deterministic Sample.service Sample.answer /\
  (forall modelRef prompt v, Sample.answer modelRef prompt = Resolved v -> HasText v) /\
  1 <= 7 /\
  exists small w1 large w2,
    runPipeline Sample.clock Sample.service "Build failed: tsc" 1 Sample.start
      = inr (small, w1) /\
    runPipeline Sample.slowClock Sample.service "Build failed: tsc" 7 Sample.later
      = inr (large, w2) /\
    Forall2 sameStageResult (stagesRun small)
      (firstn (List.length (stagesRun small)) (stagesRun large)).
Proof.
  split; [exact Sample_service_deterministic|].
  split; [exact Sample_answers_textual|]. split; [lia|].
  destruct (runPipeline_budget_prefix nat nat
              Sample.clock Sample.service Sample.slowClock Sample.service
              Sample.answer "Build failed: tsc" 1 7 Sample.start Sample.later
              Sample_service_deterministic Sample_service_deterministic
              Sample_answers_textual ltac:(lia))
    as (small & w1 & large & w2 & H1 & H2 & _ & _ & Hpre).
  exists small, w1, large, w2. auto.
Defined.

Lemma runPipeline_full_rotation_witness :
  Textual Sample.service /\ 7 <= 7 /\
  exists res w',
    runPipeline Sample.clock Sample.service "Build failed: tsc" 7 Sample.start
      = inr (res, w') /\
    Permutation (map r_stage (stagesRun res)) (map name PIPELINE_STAGES).
Proof.
  split; [exact Sample_service_textual|]. split; [lia|].
  destruct (runPipeline_full_rotation nat Sample.clock Sample.service
              "Build failed: tsc" 7 Sample.start Sample_service_textual ltac:(lia))
    as (res & w' & Hrun & Hperm & _).
  exists res, w'. auto.
Defined.

(** The prompt of the third turn holds what the first two turns
    answered. *)
Lemma runPipeline_prompts_carry_responses_witness :
  exists cj ck text,
    nth_error
      (newCalls Sample.start
         (worldOf (runPipeline Sample.clock Sample.service "Build failed: tsc" 3
                     Sample.start))) 1 = Some cj /\
    nth_error
      (newCalls Sample.start
         (worldOf (runPipeline Sample.clock Sample.service "Build failed: tsc" 3
                     Sample.start))) 2 = Some ck /\
    responseText (responseOf cj) = Some text /\
    Contains text (call_prompt ck).
Proof.
  eexists. eexists.
  destruct (runPipeline_prompts_carry_responses nat Sample.clock Sample.service
              "Build failed: tsc" 3 Sample.start 1%nat 2%nat _ _ ltac:(lia)
              ltac:(vm_compute; reflexivity) ltac:(vm_compute; reflexivity))
    as (stage & text & _ & _ & Htext & _ & Hin & _).
  exists text. split; [vm_compute; reflexivity|]. split; [vm_compute; reflexivity|].
  split; [exact Htext | exact Hin].
Defined.

Lemma runPipeline_durations_witness :
  MonotoneClock Sample.clock Sample.service Demo.tick /\
  Textual Sample.service /\
  exists res w',
    runPipeline Sample.clock Sample.service "Build failed: tsc" 3 Sample.start
      = inr (res, w') /\
    0 <= sumDurations (stagesRun res) <= totalDurationMs res.
Proof.
  assert (Hmono : MonotoneClock Sample.clock Sample.service Demo.tick).
  { split; intros; unfold Demo.tick; simpl; lia. }
  split; [exact Hmono|]. split; [exact Sample_service_textual|].
  destruct (runPipeline_durations nat Sample.clock Sample.service Demo.tick Hmono
              "Build failed: tsc" 3 Sample.start Sample_service_textual)
    as (res & w' & Hrun & _ & Hsum).
  exists res, w'. auto.
Defined.

(** * Trimming *)

Lemma trimEnd_cons (c : ascii) (t : string) :
  trimEnd (String c t) =
  match trimEnd t with
  | EmptyString => if isSpace c then EmptyString else String c EmptyString
  | String c' t' => String c (String c' t')
  end.
Proof. reflexivity. Qed.

Lemma trimStart_length (s : string) :
  (String.length (trimStart s) <= String.length s)%nat.
Proof.
  induction s as [|c t IH]; simpl; [lia|].
  destruct (isSpace c); simpl; lia.
Qed.

Lemma trimStart_idem (s : string) : trimStart (trimStart s) = trimStart s.
Proof.
  induction s as [|c t IH]; simpl; [reflexivity|].
  destruct (isSpace c) eqn:E; [exact IH | simpl; now rewrite E].
Qed.

Lemma trimEnd_idem (s : string) : trimEnd (trimEnd s) = trimEnd s.
Proof.
  induction s as [|c t IH]; [reflexivity|].
  rewrite trimEnd_cons. destruct (trimEnd t) as [|c' t'] eqn:Et.
  - destruct (isSpace c) eqn:E; [reflexivity|].
    rewrite trimEnd_cons. simpl. now rewrite E.
  - rewrite trimEnd_cons, IH. reflexivity.
Qed.

Lemma trimEnd_keeps_clean_start (s : string) :
  trimStart s = s -> trimStart (trimEnd s) = trimEnd s.
Proof.
  destruct s as [|c t]; [reflexivity|]. intros H.
  assert (E : isSpace c = false).
  { simpl in H. destruct (isSpace c); [|reflexivity].
    pose proof (trimStart_length t) as L. rewrite H in L. simpl in L. lia. }
  rewrite trimEnd_cons. destruct (trimEnd t); rewrite ?E; simpl; now rewrite E.
Qed.

Lemma trim_idem (s : string) : trim (trim s) = trim s.
Proof.
  unfold trim.
  rewrite (trimEnd_keeps_clean_start (trimStart s) (trimStart_idem s)).
  apply trimEnd_idem.
Qed.

Lemma trimmedParam_idem (key : string) (params : list (string * JsValue)) :
  trim (trimmedParam key params) = trimmedParam key params.
Proof.
  unfold trimmedParam. destruct (stringParam key params); [apply trim_idem | reflexivity].
Qed.

(** * The tools *)

Section ToolFacts.

Variable Env : Type.
Variable dateNow : Env -> Z * Env.
Variable ollamaGenerate : string -> string -> Env -> Outcome * Env.



(** X8: for a problem that is not blank and a service whose answers
    all have a text, the diagnose tool returns a result: for the trimmed
    problem text, with one stage result for the depth [quick], seven for
    [deep] and three for every other depth, be it [standard], absent,
    not a string, or a string such as [Quick] that differs from the two
    in case or spacing. *)
Theorem diagnoseExecute_depth
  (params : list (string * JsValue)) (text : string) (w : World Env) :
  Textual ollamaGenerate ->
  stringParam "problem" params = Some text ->
  trim text <> EmptyString ->
  exists res w',
    diagnoseExecute dateNow ollamaGenerate params w = inr (PayloadResult res, w') /\
    problem res = trim text /\
    trim (problem res) = problem res /\
    List.length (stagesRun res) =
      match stringParam "depth" params with
      | Some d =>
          if String.eqb d "quick" then 1%nat
          else if String.eqb d "deep" then 7%nat else 3%nat
      | None => 3%nat
      end.
Proof.
  intros Htextual Hp Hne. unfold diagnoseExecute. rewrite Hp.
  apply String.eqb_neq in Hne. rewrite Hne.
  set (depth := match stringParam "depth" params with Some s => s | None => "standard" end).
  assert (Hrun : forall budget,
             exists res w',
               runPipeline dateNow ollamaGenerate (trim text) budget w = inr (res, w') /\
               problem res = trim text /\
               List.length (stagesRun res) = turns budget).
  { intros budget.
    destruct (runPipeline_history Env dateNow ollamaGenerate (trim text) budget w Htextual)
      as (res & w' & context & Hrun & Hprob & _ & _ & Hh & _).
    exists res, w'. split; [exact Hrun|]. split; [exact Hprob|].
    apply History_length in Hh. destruct Hh as [Hlen _].
    now rewrite schedule_length in Hlen. }
  assert (Hdepth : forall budget,
             (if String.eqb depth "quick" then quickDiagnose dateNow ollamaGenerate (trim text)
              else if String.eqb depth "deep"
                   then deepDiagnose dateNow ollamaGenerate (trim text)
                   else runPipeline dateNow ollamaGenerate (trim text) 3)
             = runPipeline dateNow ollamaGenerate (trim text) budget ->
             exists res w',
               bind
                 (if String.eqb depth "quick"
                  then quickDiagnose dateNow ollamaGenerate (trim text)
                  else if String.eqb depth "deep"
                       then deepDiagnose dateNow ollamaGenerate (trim text)
                       else runPipeline dateNow ollamaGenerate (trim text) 3)
                 (fun result => ret (PayloadResult result)) w
               = inr (PayloadResult res, w') /\
               problem res = trim text /\
               trim (problem res) = problem res /\
               List.length (stagesRun res) = turns budget).
  { intros budget ->. destruct (Hrun budget) as (res & w' & Hr & Hprob & Hlen).
    exists res, w'. unfold bind. rewrite Hr. unfold ret.
    repeat split; auto. rewrite Hprob. apply trim_idem. }
  subst depth. destruct (stringParam "depth" params) as [d|].
  - destruct (String.eqb d "quick") eqn:Eq; [apply (Hdepth 1); reflexivity|].
    destruct (String.eqb d "deep") eqn:Ed; [apply (Hdepth 7) | apply (Hdepth 3)];
      reflexivity.
  - apply (Hdepth 3). reflexivity.
Qed.

(** X9: the [warroom_ollama] tool checks the model first and the prompt
    second.  For a blank model it refuses with the message that the
    model is required, whatever the prompt; for a model that is not
    blank and a blank prompt it refuses with the message that the prompt
    is required; either way it leaves the environment untouched.
    Otherwise it invokes the service exactly once, with the trimmed
    model reference and the trimmed prompt, and hands the outcome on: a
    rejection goes to its caller instead of being turned into an error
    marker. *)
Theorem ollamaDirectExecute_calls (params : list (string * JsValue)) (w : World Env) :
  let out := fst (ollamaDirectExecute ollamaGenerate params w) in
  let w' := snd (ollamaDirectExecute ollamaGenerate params w) in
  (trimmedParam "model" params = EmptyString ->
   out = ToolError "model is required." /\ w' = w /\ newCalls w w' = []) /\
  (trimmedParam "model" params <> EmptyString ->
   trimmedParam "prompt" params = EmptyString ->
   out = ToolError "prompt is required." /\ w' = w /\ newCalls w w' = []) /\
  (trimmedParam "model" params <> EmptyString ->
   trimmedParam "prompt" params <> EmptyString ->
   exists c,
     newCalls w w' = [c] /\
     call_model c = trimmedParam "model" params /\
     call_prompt c = trimmedParam "prompt" params /\
     trim (call_model c) = call_model c /\ trim (call_prompt c) = call_prompt c /\
     Served ollamaGenerate c /\
     out = match call_outcome c with
           | Resolved v => ToolResponse v
           | Rejected err => ToolRejected err
           end) /\
  (List.length (newCalls w w') <= 1)%nat /\
  (forall c, In c (newCalls w w') ->
     call_model c <> EmptyString /\ call_prompt c <> EmptyString).
Proof.
  cbv zeta. unfold ollamaDirectExecute.
  assert (Hnone : newCalls w w = []).
  { unfold newCalls. rewrite <- (app_nil_r (calls w)) at 2. apply skipn_length_app. }
  destruct (String.eqb (trimmedParam "model" params) EmptyString) eqn:Em.
  { apply String.eqb_eq in Em. cbn [fst snd]. rewrite Hnone.
    repeat split; auto; try contradiction. }
  apply String.eqb_neq in Em.
  destruct (String.eqb (trimmedParam "prompt" params) EmptyString) eqn:Ep.
  { apply String.eqb_eq in Ep. cbn [fst snd]. rewrite Hnone.
    repeat split; auto; try contradiction. }
  apply String.eqb_neq in Ep.
  unfold invoke.
  destruct (ollamaGenerate (trimmedParam "model" params)
              (trimmedParam "prompt" params) (env w)) as [o e] eqn:Eg.
  assert (Hone : newCalls w {| env := e;
                                 calls := (calls w ++
                                   [mkCall (trimmedParam "model" params)
                                      (trimmedParam "prompt" params) o])%list |}
                 = [mkCall (trimmedParam "model" params) (trimmedParam "prompt" params) o]).
  { unfold newCalls. cbn [calls]. apply skipn_length_app. }
  assert (Hserved : Served ollamaGenerate
                      (mkCall (trimmedParam "model" params)
                         (trimmedParam "prompt" params) o)).
  { exists (env w). cbn [call_model call_prompt call_outcome]. now rewrite Eg. }
  destruct o as [v | err]; cbn [fst snd]; rewrite Hone; cbn [List.length];
    (split; [intros; contradiction|]); (split; [intros; contradiction|]);
    (split; [|split; [lia|]]).
  - intros _ _. eexists. split; [reflexivity|].
    cbn [call_model call_prompt call_outcome].
    repeat split; auto using trimmedParam_idem.
  - intros c [<- | []]. cbn [call_model call_prompt]. auto.
  - intros _ _. eexists. split; [reflexivity|].
    cbn [call_model call_prompt call_outcome].
    repeat split; auto using trimmedParam_idem.
  - intros c [<- | []]. cbn [call_model call_prompt]. auto.
Qed.

End ToolFacts.

Lemma assoc_In {A : Type} (key : string) (props : list (string * A)) (a : A) :
  Js.assoc key props = Some a -> In key (map fst props).
Proof.
  induction props as [|[k x] rest IH]; simpl; [discriminate|].
  destruct (String.eqb k key) eqn:E.
  - intros _. left. now apply String.eqb_eq.
  - intros H. right. now apply IH.
Qed.

Lemma assoc_In_snd {A : Type} (key : string) (props : list (string * A)) (a : A) :
  Js.assoc key props = Some a -> In a (map snd props).
Proof.
  induction props as [|[k x] rest IH]; simpl; [discriminate|].
  destruct (String.eqb k key).
  - intros [= <-]. now left.
  - intros H. right. now apply IH.
Qed.

(** Every model that [modelMap] names is the model of a pipeline stage. *)
Lemma modelMap_registry (key m : string) :
  Js.assoc key modelMap = Some m -> In m (map model PIPELINE_STAGES).
Proof.
  intros H. apply assoc_In_snd in H. simpl in H.
  decompose [or] H; subst; simpl; tauto.
Qed.

Lemma newCalls_same {Env : Type} (w : World Env) : newCalls w w = [].
Proof.
  unfold newCalls. rewrite <- (app_nil_r (calls w)) at 2. apply skipn_length_app.
Qed.

Section SpecialistFacts.

Variable Env : Type.
Variable ollamaGenerate : string -> string -> Env -> Outcome * Env.
Variable SPECIALISTS : list (string * Specialist).

(** X10: when no specialist is named like a property of
    [Object.prototype], the specialist tool invokes the service at most
    once, only for a specialist of the table and a problem that is not
    blank, with a prompt that holds the trimmed problem text, and only
    ever with the model of a pipeline stage; for a name that is not in
    the table it invokes nothing and leaves the environment untouched. *)
Theorem specialistExecute_calls (params : list (string * JsValue)) (w : World Env) :
  (forall k, In k (map fst SPECIALISTS) -> ~ In k Js.objectPrototypeKeys) ->
  let out := fst (specialistExecute ollamaGenerate SPECIALISTS params w) in
  let w' := snd (specialistExecute ollamaGenerate SPECIALISTS params w) in
  out <> SpecialistIllTyped /\
  (List.length (newCalls w w') <= 1)%nat /\
  (forall c, In c (newCalls w w') ->
     In (call_model c) (map model PIPELINE_STAGES) /\
     (exists spec,
         Js.assoc (trimmedParam "specialist" params) SPECIALISTS = Some spec /\
         call_prompt c = specialistPrompt (trimmedParam "specialist" params) spec
                           (trimmedParam "problem" params)) /\
     Contains (trimmedParam "problem" params) (call_prompt c) /\
     trimmedParam "problem" params <> EmptyString) /\
  (Js.assoc (trimmedParam "specialist" params) SPECIALISTS = None ->
   w' = w /\ newCalls w w' = []).
Proof.
  intros Hwf. cbv zeta.
  destruct (specialistExecute ollamaGenerate SPECIALISTS params w) as [out w'] eqn:Hx.
  cbn [fst snd]. unfold specialistExecute in Hx.
  set (specialist := trimmedParam "specialist" params) in *.
  set (problemText := trimmedParam "problem" params) in *.
  destruct (String.eqb specialist EmptyString) eqn:Es.
  { injection Hx as <- <-. rewrite newCalls_same.
    repeat split; auto; try discriminate; contradiction. }
  destruct (String.eqb problemText EmptyString) eqn:Ep.
  { injection Hx as <- <-. rewrite newCalls_same.
    repeat split; auto; try discriminate; contradiction. }
  unfold Js.lookupObject at 1 in Hx.
  destruct (Js.assoc specialist SPECIALISTS) as [spec|] eqn:Ea.
  - assert (Hmodel : exists m,
               In m (map model PIPELINE_STAGES) /\
               (Js.lookupObject modelMap specialist = Js.Own m \/
                (Js.lookupObject modelMap specialist = Js.Absent /\ m = "mistral:latest"))).
    { unfold Js.lookupObject. destruct (Js.assoc specialist modelMap) as [m|] eqn:Em.
      - exists m. split; [eapply modelMap_registry; eassumption | now left].
      - destruct (existsb (String.eqb specialist) Js.objectPrototypeKeys) eqn:Ex.
        + exfalso. apply existsb_exists in Ex. destruct Ex as (k & Hk & Hkey).
          apply String.eqb_eq in Hkey. subst k.
          apply (Hwf specialist); [eapply assoc_In; eassumption | exact Hk].
        + exists "mistral:latest". split; [simpl; tauto | now right]. }
    apply String.eqb_neq in Ep.
    assert (Hcall : forall m o e,
               In m (map model PIPELINE_STAGES) ->
               w' = {| env := e;
                       calls := (calls w ++
                                 [mkCall m (specialistPrompt specialist spec problemText) o])%list |} ->
               (List.length (newCalls w w') <= 1)%nat /\
               (forall c, In c (newCalls w w') ->
                  In (call_model c) (map model PIPELINE_STAGES) /\
                  (exists spec0,
                      Some spec = Some spec0 /\
                      call_prompt c = specialistPrompt specialist spec0 problemText) /\
                  Contains problemText (call_prompt c) /\
                  problemText <> EmptyString) /\
               (Some spec = None -> w' = w /\ newCalls w w' = [])).
    { intros m o e Hreg ->. unfold newCalls. cbn [calls]. rewrite skipn_length_app.
      split; [simpl; lia|]. split; [|discriminate].
      intros c [<- | []]. cbn [call_model call_prompt].
      split; [exact Hreg|]. split; [exists spec; auto|].
      split; [unfold specialistPrompt; in_chain | exact Ep]. }
    destruct Hmodel as (m & Hreg & [Hl | [Hl ->]]); rewrite Hl in Hx;
      unfold invoke in Hx; destruct (ollamaGenerate _ _ (env w)) as [o e];
      destruct o as [v | err]; injection Hx as <- Hw;
      (split; [discriminate|]); eapply Hcall; eauto.
  - destruct (existsb (String.eqb specialist) Js.objectPrototypeKeys);
      injection Hx as <- <-; rewrite newCalls_same;
      repeat split; auto; try discriminate; contradiction.
Qed.

End SpecialistFacts.

Lemma Qle_bool_false (a b : Q) : Qle_bool a b = false -> (b <= a)%Q.
Proof.
  intros H. apply Qlt_le_weak, Qnot_le_lt. intros Hle.
  apply Qle_bool_iff in Hle. congruence.
Qed.

Lemma clamp_facts (x : Q) :
  let l := mathMin (mathMax x 1) 50 in
  (1 <= l)%Q /\ (l <= 50)%Q /\
  ((1 <= x)%Q -> (x <= 50)%Q -> (l == x)%Q) /\
  ((x <= 1)%Q -> (l == 1)%Q) /\
  ((50 <= x)%Q -> (l == 50)%Q).
Proof.
  cbv zeta. unfold mathMin, mathMax.
  destruct (Qle_bool x 1) eqn:E1;
    [apply Qle_bool_iff in E1 | apply Qle_bool_false in E1];
    (destruct (Qle_bool _ 50) eqn:E2;
     [apply Qle_bool_iff in E2 | apply Qle_bool_false in E2]);
    repeat split; intros; lra.
Qed.

(** X11: whenever the search tool reaches the API, the query it passes
    is trimmed and at least two characters long, and the limit lies
    between 1 and 50: 10 when the caller gave none, the caller's own
    number when that lies in the range, and the nearer bound otherwise. *)
Theorem searchArguments_bounds (params : SearchParams) (q : string) (l : Q) :
  searchArguments params = inr (q, l) ->
  (2 <= String.length q)%nat /\
  trim q = q /\
  (1 <= l)%Q /\ (l <= 50)%Q /\
  (sp_limit params = None -> l = 10%Q) /\
  (forall x, sp_limit params = Some x ->
             ((1 <= x)%Q -> (x <= 50)%Q -> (l == x)%Q) /\
             ((x <= 1)%Q -> (l == 1)%Q) /\
             ((50 <= x)%Q -> (l == 50)%Q)).
Proof.
  unfold searchArguments.
  set (query := match sp_query params with Some s => trim s | None => EmptyString end).
  destruct (String.eqb query EmptyString || (String.length query <? 2)%nat) eqn:E;
    [discriminate|].
  intros H. injection H as <- <-.
  apply orb_false_iff in E. destruct E as [_ Elen]. apply Nat.ltb_ge in Elen.
  split; [exact Elen|]. split.
  { subst query. destruct (sp_query params); [apply trim_idem | reflexivity]. }
  destruct (sp_limit params) as [x|].
  - destruct (clamp_facts x) as (H1 & H50 & Hin & Hlow & Hhigh).
    split; [exact H1|]. split; [exact H50|]. split; [discriminate|].
    intros y [= <-]. auto.
  - repeat split; try lra; discriminate.
Qed.

(** X12: each URL and the agent name of the configuration that
    [register] resolves is the configured value when that is a string
    and not empty, and the built-in default otherwise, so none of them
    is ever empty; the agent wallet is the configured value when that is
    a string and not empty, and is left undefined otherwise; and without
    a plugin configuration everything is at its default. *)
Theorem resolvePluginConfig_defaults (pluginConfig : option JsValue) :
  let sc := fst (resolvePluginConfig pluginConfig) in
  let wr := snd (resolvePluginConfig pluginConfig) in
  let configured key := Js.field key (Js.orEmptyObject pluginConfig) in
  let resolves key value fallback :=
    (forall s, configured key = Some (JStr s) -> s <> EmptyString -> value = s) /\
    ((forall s, configured key = Some (JStr s) -> s = EmptyString) -> value = fallback) /\
    value <> EmptyString in
  resolves "apiUrl" (sc_apiUrl sc) "https://soundchain.io" /\
  resolves "agentName" (sc_agentName sc) "openclaw-agent" /\
  resolves "scidWorkerUrl" (scidWorkerUrl wr) "http://localhost:8787" /\
  resolves "ollamaUrl" (ollamaUrl wr) "http://localhost:11434" /\
  (forall s, configured "agentWallet" = Some (JStr s) -> s <> EmptyString ->
             sc_agentWallet sc = Some s) /\
  ((forall s, configured "agentWallet" = Some (JStr s) -> s = EmptyString) ->
   sc_agentWallet sc = None) /\
  (forall a, sc_agentWallet sc = Some a -> a <> EmptyString) /\
  (pluginConfig = None ->
   sc = {| sc_apiUrl := "https://soundchain.io"; sc_agentName := "openclaw-agent";
           sc_agentWallet := None |} /\
   wr = {| scidWorkerUrl := "http://localhost:8787";
           ollamaUrl := "http://localhost:11434" |}).
Proof.
  assert (Hres : forall v fallback,
             fallback <> EmptyString ->
             (forall s, v = Some (JStr s) -> s <> EmptyString ->
                        Js.nonEmptyStringOr v fallback = s) /\
             ((forall s, v = Some (JStr s) -> s = EmptyString) ->
              Js.nonEmptyStringOr v fallback = fallback) /\
             Js.nonEmptyStringOr v fallback <> EmptyString).
  { intros v fallback Hf. unfold Js.nonEmptyStringOr. split; [|split].
    - intros s -> Hs. apply String.eqb_neq in Hs. now rewrite Hs.
    - intros Hnone. destruct v as [[]|]; try reflexivity.
      now rewrite (Hnone _ eq_refl).
    - destruct v as [[]|]; auto. destruct (String.eqb s EmptyString) eqn:E; auto.
      now apply String.eqb_neq. }
  cbv zeta. unfold resolvePluginConfig.
  cbn [fst snd sc_apiUrl sc_agentName sc_agentWallet scidWorkerUrl ollamaUrl].
  split; [apply Hres; discriminate|]. split; [apply Hres; discriminate|].
  split; [apply Hres; discriminate|]. split; [apply Hres; discriminate|].
  split; [|split; [|split]].
  - intros s -> Hs. apply String.eqb_neq in Hs. now rewrite Hs.
  - intros Hnone.
    destruct (Js.field "agentWallet" (Js.orEmptyObject pluginConfig)) as [[]|];
      try reflexivity.
    now rewrite (Hnone _ eq_refl).
  - intros a. destruct (Js.field "agentWallet" (Js.orEmptyObject pluginConfig)) as [[]|];
      try discriminate.
    destruct (String.eqb s EmptyString) eqn:E; [discriminate|].
    intros [= <-]. now apply String.eqb_neq.
  - intros ->. split; reflexivity.
Qed.

(** * The channel plugin: accounts and targets *)

Module ChannelFacts.

Import Channel.

Lemma nonEmptyStringOr_nonempty (v : option JsValue) (fallback : string) :
  fallback <> EmptyString -> Js.nonEmptyStringOr v fallback <> EmptyString.
Proof.
  intros Hf. unfold Js.nonEmptyStringOr. destruct v as [[]|]; auto.
  destruct (String.eqb s EmptyString) eqn:E; auto. now apply String.eqb_neq.
Qed.

(** X13: a resolved account always has an API URL and a name that are
    not empty, is enabled exactly when it is configured, and is
    configured exactly when the configured token is a string that is not
    empty; the account id is the one asked for, or [default]. *)
Theorem resolveAccount_defaults (cfg : JsValue) (account : option string) :
  let a := resolveAccount cfg account in
  apiUrl a <> EmptyString /\
  name a <> EmptyString /\
  enabled a = configured a /\
  (configured a = true <-> apiToken a <> EmptyString) /\
  (configured a = true <->
   exists tok, Js.field "apiToken" (extractChannelConfig cfg) = Some (JStr tok) /\
               tok <> EmptyString /\ apiToken a = tok) /\
  accountId a = match account with Some x => x | None => "default" end.
Proof.
  cbv zeta. unfold resolveAccount.
  cbn [apiUrl name enabled configured apiToken accountId].
  split; [apply nonEmptyStringOr_nonempty; discriminate|].
  split; [apply nonEmptyStringOr_nonempty; discriminate|].
  split; [reflexivity|].
  set (token := match Js.field "apiToken" (extractChannelConfig cfg) with
                | Some (JStr s) => s
                | _ => EmptyString
                end).
  assert (Hconf : negb (String.eqb token EmptyString) = true <-> token <> EmptyString).
  { rewrite negb_true_iff. apply String.eqb_neq. }
  split; [exact Hconf|]. split; [|reflexivity].
  rewrite Hconf. subst token. split.
  - destruct (Js.field "apiToken" (extractChannelConfig cfg)) as [[]|];
      try (intros H; now contradiction H).
    intros H. now exists s.
  - intros (tok & -> & Hne & _). exact Hne.
Qed.

(** X14: an account that resolves as configured is always listed by
    [listAccountIds]; the converse fails exactly for a token that is
    truthy without being a string, which is listed but resolves as not
    configured. *)
Theorem listAccountIds_resolveAccount (cfg : JsValue) (account : option string) :
  let a := resolveAccount cfg account in
  let token := Js.field "apiToken" (extractChannelConfig cfg) in
  (configured a = true -> listAccountIds cfg = ["default"]) /\
  (listAccountIds cfg = [] -> configured a = false) /\
  (listAccountIds cfg = ["default"] /\ configured a = false <->
   Js.truthy token = true /\ forall s, token <> Some (JStr s)).
Proof.
  cbv zeta. unfold listAccountIds, resolveAccount. cbn [configured].
  destruct (Js.field "apiToken" (extractChannelConfig cfg)) as [v|]; [destruct v|];
    cbn [Js.truthy];
    try (destruct b); try (destruct (String.eqb rendering "0"));
    try (destruct (String.eqb s EmptyString) eqn:Es);
    cbn [negb];
    intuition (try discriminate; try congruence);
    match goal with
    | H : forall s0, Some (JStr ?s) <> Some (JStr s0) |- _ => now contradiction (H s)
    end.
Qed.

(** Hex digits are not white space. *)
Lemma isHexDigit_not_space (c : ascii) : isHexDigit c = true -> isSpace c = false.
Proof. destruct c as [[] [] [] [] [] [] [] []]; cbv; congruence. Qed.

Lemma trimStart_clean (s : string) :
  Js.allChars (fun c => negb (isSpace c)) s = true -> trimStart s = s.
Proof.
  destruct s as [|c t]; [reflexivity|]. simpl. intros H.
  apply andb_true_iff in H. destruct H as [H _].
  apply negb_true_iff in H. now rewrite H.
Qed.

Lemma trimEnd_clean (s : string) :
  Js.allChars (fun c => negb (isSpace c)) s = true -> trimEnd s = s.
Proof.
  induction s as [|c t IH]; [reflexivity|]. simpl Js.allChars. intros H.
  apply andb_true_iff in H. destruct H as [Hc Ht]. apply negb_true_iff in Hc.
  rewrite trimEnd_cons, (IH Ht). destruct t; [now rewrite Hc | reflexivity].
Qed.

Lemma trimStart_spaces (ws x : string) :
  Js.allChars isSpace ws = true -> trimStart (ws ++ x) = trimStart x.
Proof.
  induction ws as [|c t IH]; [reflexivity|]. simpl. intros H.
  apply andb_true_iff in H. destruct H as [Hc Ht]. rewrite Hc. now apply IH.
Qed.

Lemma trimEnd_all_spaces (ws : string) :
  Js.allChars isSpace ws = true -> trimEnd ws = EmptyString.
Proof.
  induction ws as [|c t IH]; [reflexivity|]. simpl Js.allChars. intros H.
  apply andb_true_iff in H. destruct H as [Hc Ht].
  now rewrite trimEnd_cons, (IH Ht), Hc.
Qed.

Lemma trimEnd_spaces (x ws : string) :
  Js.allChars isSpace ws = true -> trimEnd (x ++ ws) = trimEnd x.
Proof.
  intros H. induction x as [|c t IH].
  - simpl. now apply trimEnd_all_spaces.
  - change (String c t ++ ws) with (String c (t ++ ws)).
    now rewrite !trimEnd_cons, IH.
Qed.

Lemma trimStart_head (s : string) (c : ascii) (rest : string) :
  trimStart s = String c rest -> isSpace c = false.
Proof.
  induction s as [|a t IH]; simpl; [discriminate|].
  destruct (isSpace a) eqn:E; [exact IH|]. intros [= <- _]. exact E.
Qed.

Lemma trimEnd_last (s : string) :
  forall pre c, trimEnd s = pre ++ String c EmptyString -> isSpace c = false.
Proof.
  induction s as [|a t IH]; intros pre c H.
  - destruct pre; discriminate.
  - rewrite trimEnd_cons in H. destruct (trimEnd t) as [|c' t'] eqn:Et.
    + destruct (isSpace a) eqn:E; [destruct pre; discriminate|].
      destruct pre as [|x pre]; simpl in H.
      * injection H as <-. exact E.
      * injection H as _ H. destruct pre; discriminate.
    + destruct pre as [|x pre]; simpl in H; [discriminate|].
      injection H as _ H. eapply IH. exact H.
Qed.

(** X15: [normalizeTarget] is idempotent, and what it returns neither
    starts nor ends with white space. *)
Theorem normalizeTarget_idempotent (target : string) :
  normalizeTarget (normalizeTarget target) = normalizeTarget target /\
  (forall c rest, normalizeTarget target = String c rest -> isSpace c = false) /\
  (forall pre c, normalizeTarget target = pre ++ String c EmptyString ->
                 isSpace c = false).
Proof.
  unfold normalizeTarget. split; [apply trim_idem|]. split.
  - intros c rest H. apply (trimStart_head (trim target) c rest).
    unfold trim at 1. fold (trim target).
    rewrite <- H. unfold trim.
    apply (trimEnd_keeps_clean_start (trimStart target) (trimStart_idem target)).
  - intros pre c H. unfold trim in H. eapply trimEnd_last. exact H.
Qed.

Lemma matchHexTimes_spec (n : nat) (s : string) :
  matchHexTimes n s = true <->
  String.length s = n /\ Js.allChars isHexDigit s = true.
Proof.
  revert s. induction n as [|n IH]; intros [|c t]; simpl.
  - tauto.
  - split; [discriminate | intros [H _]; discriminate].
  - split; [discriminate | intros [H _]; discriminate].
  - rewrite andb_true_iff, IH. split.
    + intros (Hc & Hl & Ha). rewrite Hc, Ha, Hl. auto.
    + intros (Hl & Ha). apply andb_true_iff in Ha. destruct Ha as [Hc Ha].
      injection Hl as Hl. auto.
Qed.

(** X16: [looksLikeId] accepts an input exactly when the normalized
    target is 24 characters long and all of them are hex digits, and it
    gives the same verdict on an input and on its normalization. *)
Theorem looksLikeId_spec (input : string) :
  (looksLikeId input = true <->
   String.length (normalizeTarget input) = 24%nat /\
   Js.allChars isHexDigit (normalizeTarget input) = true) /\
  looksLikeId (normalizeTarget input) = looksLikeId input.
Proof.
  unfold looksLikeId, normalizeTarget. split.
  - apply matchHexTimes_spec.
  - now rewrite trim_idem.
Qed.

Lemma allChars_impl (P Q : ascii -> bool) (s : string) :
  (forall c, P c = true -> Q c = true) ->
  Js.allChars P s = true -> Js.allChars Q s = true.
Proof.
  intros HPQ. induction s as [|c t IH]; simpl; [reflexivity|].
  rewrite !andb_true_iff. intros [Hc Ht]. auto.
Qed.

(** X17: white space around a profile id does no harm: an id of 24 hex
    digits with white space before and after it is recognised by
    [looksLikeId] and normalized to the bare id. *)
Theorem padded_id_is_recognised (ws1 id ws2 : string) :
  Js.allChars isSpace ws1 = true ->
  Js.allChars isSpace ws2 = true ->
  matchHexTimes 24 id = true ->
  normalizeTarget (ws1 ++ id ++ ws2) = id /\
  looksLikeId (ws1 ++ id ++ ws2) = true.
Proof.
  intros H1 H2 Hid.
  assert (Hclean : Js.allChars (fun c => negb (isSpace c)) id = true).
  { apply matchHexTimes_spec in Hid. destruct Hid as [_ Hhex].
    eapply allChars_impl; [|exact Hhex].
    intros c Hc. apply negb_true_iff. now apply isHexDigit_not_space. }
  assert (Hnorm : trim (ws1 ++ id ++ ws2) = id).
  { unfold trim. rewrite (trimStart_spaces ws1 _ H1).
    assert (Hs : trimStart (id ++ ws2) = id ++ ws2).
    { destruct id as [|c t]; [discriminate Hid|].
      simpl in Hclean. apply andb_true_iff in Hclean. destruct Hclean as [Hc _].
      apply negb_true_iff in Hc. simpl. now rewrite Hc. }
    rewrite Hs, (trimEnd_spaces id ws2 H2). now apply trimEnd_clean. }
  unfold normalizeTarget, looksLikeId. rewrite Hnorm. auto.
Qed.

End ChannelFacts.

(** * The channel plugin: inbound polling *)

Module PollingFacts.

Import Channel.

Lemma MAX_SEEN_IDS_nonneg : 0 <= MAX_SEEN_IDS.
Proof. unfold MAX_SEEN_IDS. lia. Qed.

Lemma setHas_In (x : string) (s : list string) : setHas x s = true <-> In x s.
Proof.
  unfold setHas. rewrite existsb_exists. split.
  - intros (y & Hy & E). apply String.eqb_eq in E. now subst.
  - intros H. exists x. split; [exact H | apply String.eqb_refl].
Qed.

Lemma setHas_false (x : string) (s : list string) : setHas x s = false <-> ~ In x s.
Proof.
  rewrite <- setHas_In. destruct (setHas x s); split; congruence.
Qed.

Lemma setDelete_absent (x : string) (s : list string) : ~ In x s -> setDelete x s = s.
Proof.
  unfold setDelete. induction s as [|y s IH]; intros H; simpl; [reflexivity|].
  destruct (String.eqb y x) eqn:E.
  - apply String.eqb_eq in E. subst. exfalso. apply H. now left.
  - simpl. rewrite IH; [reflexivity|]. intros Hin. apply H. now right.
Qed.

(** Deleting the first entries of a set one by one leaves the rest. *)
Lemma delete_front (a b : list string) :
  NoDup (a ++ b)%list ->
  fold_left (fun s x => setDelete x s) a (a ++ b)%list = b.
Proof.
  induction a as [|x a IH]; intros Hnd; [reflexivity|].
  simpl in Hnd. inversion Hnd as [|? ? Hnotin Hnd']; subst.
  cbn [fold_left app]. unfold setDelete at 2. cbn [filter].
  rewrite String.eqb_refl. cbn [negb].
  fold (setDelete x (a ++ b)%list). rewrite (setDelete_absent _ _ Hnotin).
  now apply IH.
Qed.

Lemma capSeen_skipn (s : list string) :
  NoDup s ->
  capSeen s = skipn (Z.to_nat (Z.of_nat (List.length s) - MAX_SEEN_IDS)) s.
Proof.
  intros Hnd. unfold capSeen.
  destruct (MAX_SEEN_IDS <? Z.of_nat (List.length s)) eqn:E.
  - set (k := Z.to_nat (Z.of_nat (List.length s) - MAX_SEEN_IDS)).
    rewrite <- (firstn_skipn k s) at 2. apply delete_front.
    now rewrite firstn_skipn.
  - apply Z.ltb_ge in E.
    replace (Z.to_nat (Z.of_nat (List.length s) - MAX_SEEN_IDS)) with 0%nat by lia.
    reflexivity.
Qed.

Lemma NoDup_skipn {A : Type} (k : nat) (l : list A) : NoDup l -> NoDup (skipn k l).
Proof.
  intros H. rewrite <- (firstn_skipn k l) in H. now apply NoDup_app_remove_l in H.
Qed.

Lemma NoDup_snoc {A : Type} (l : list A) (x : A) :
  NoDup l -> ~ In x l -> NoDup (l ++ [x])%list.
Proof.
  intros Hl Hx. apply NoDup_app; [exact Hl | repeat constructor; auto |].
  intros a Ha [<- | []]. contradiction.
Qed.

(** What one turn of the loop does to the seen ids and the log. *)
Lemma processChat_step (account : string) (seen logged : list string) (chat : Chat) :
  NoDup seen ->
  (processChat account (seen, logged) chat = (seen, logged) /\
   forall i, lastMessageId chat = Some i -> In i seen) \/
  (exists i msg,
      lastMessageId chat = Some i /\ ~ In i seen /\
      processChat account (seen, logged) chat =
        (skipn (Z.to_nat (Z.of_nat (List.length seen) + 1 - MAX_SEEN_IDS))
           (seen ++ [i])%list,
         (logged ++ [logLine account chat msg])%list)).
Proof.
  intros Hnd. unfold processChat, lastMessageId.
  destruct (chat_lastMessage chat) as [msg|]; [|left; split; [reflexivity | discriminate]].
  destruct (cm_id msg) as [i|]; [|left; split; [reflexivity | discriminate]].
  destruct (String.eqb i EmptyString) eqn:Ei;
    [left; split; [reflexivity | discriminate]|].
  cbn [orb]. destruct (setHas i seen) eqn:Eh.
  - left. split; [reflexivity|]. intros j [= <-]. now apply setHas_In.
  - right. exists i, msg. apply setHas_false in Eh.
    split; [reflexivity|]. split; [exact Eh|].
    unfold setAdd. rewrite (proj2 (setHas_false i seen) Eh).
    rewrite capSeen_skipn by (now apply NoDup_snoc).
    rewrite length_app. cbn [List.length].
    do 3 f_equal. lia.
Qed.

(** The invariants of a poll: the seen ids stay a set, they grow by the
    new ids and lose only their oldest entries, and after a new message
    they are at most [MAX_SEEN_IDS]. *)
Lemma pollFold_invariant (account : string) (chats : list Chat) :
  forall seen logged,
    NoDup seen ->
    exists seen' added dropped lines,
      fold_left (processChat account) chats (seen, logged)
        = (seen', (logged ++ lines)%list) /\
      NoDup seen' /\
      (seen ++ added)%list = (dropped ++ seen')%list /\
      List.length added = List.length lines /\
      (List.length lines <= List.length chats)%nat /\
      (lines = [] -> seen' = seen) /\
      (lines <> [] -> Z.of_nat (List.length seen') <= MAX_SEEN_IDS).
Proof.
  induction chats as [|chat chats IH]; intros seen logged Hnd.
  - exists seen, [], [], []. cbn [fold_left]. rewrite !app_nil_r.
    repeat split; auto. intros H. now contradiction H.
  - cbn [fold_left].
    destruct (processChat_step account seen logged chat Hnd)
      as [[Hsame _] | (i & msg & _ & Hnew & Hstep)].
    + rewrite Hsame. destruct (IH seen logged Hnd)
        as (seen' & added & dropped & lines & Hf & H1 & H2 & H3 & H4 & H5 & H6).
      exists seen', added, dropped, lines. cbn [List.length].
      repeat split; auto.
    + rewrite Hstep.
      set (k := Z.to_nat (Z.of_nat (List.length seen) + 1 - MAX_SEEN_IDS)) in *.
      set (mid := skipn k (seen ++ [i])%list) in *.
      assert (Hmid : NoDup mid) by (apply NoDup_skipn; now apply NoDup_snoc).
      assert (Hlen : Z.of_nat (List.length mid) <= MAX_SEEN_IDS).
      { subst mid k. rewrite length_skipn, length_app. cbn [List.length].
        pose proof MAX_SEEN_IDS_nonneg. lia. }
      destruct (IH mid (logged ++ [logLine account chat msg])%list Hmid)
        as (seen' & added & dropped & lines & Hf & H1 & H2 & H3 & H4 & H5 & H6).
      exists seen', (i :: added)%list, (firstn k (seen ++ [i]) ++ dropped)%list,
             (logLine account chat msg :: lines)%list.
      rewrite Hf, <- !app_assoc. cbn [app List.length].
      split; [reflexivity|]. split; [exact H1|]. split.
      { rewrite <- H2. change (seen ++ i :: added)%list
          with (seen ++ [i] ++ added)%list.
        rewrite app_assoc, <- (firstn_skipn k (seen ++ [i])%list) at 1.
        fold mid. now rewrite <- app_assoc. }
      split; [lia|]. split; [lia|]. split; [discriminate|].
      intros _. destruct lines as [|l lines].
      * rewrite (H5 eq_refl). exact Hlen.
      * apply H6. discriminate.
Qed.

(** X18: a poll keeps the seen ids a set, logs at most one line per
    chat, leaves the seen ids alone when it logs nothing, and whenever it
    logs a new message the seen ids number at most [MAX_SEEN_IDS]
    afterwards, however many there were before. *)
Theorem pollChats_bounds (account : string) (chats : list Chat) (seen : list string) :
  NoDup seen ->
  let seen' := fst (pollChats account chats seen) in
  let lines := snd (pollChats account chats seen) in
  NoDup seen' /\
  (List.length lines <= List.length chats)%nat /\
  (lines = [] -> seen' = seen) /\
  (lines <> [] -> Z.of_nat (List.length seen') <= 5000) /\
  Z.of_nat (List.length seen') <= Z.max (Z.of_nat (List.length seen)) 5000.
Proof.
  intros Hnd. cbv zeta. unfold pollChats.
  destruct (pollFold_invariant account chats seen [] Hnd)
    as (seen' & added & dropped & lines & Hf & H1 & H2 & H3 & H4 & H5 & H6).
  rewrite Hf. cbn [fst snd app]. fold MAX_SEEN_IDS.
  repeat split; auto.
  destruct lines as [|l lines].
  - rewrite (H5 eq_refl). lia.
  - assert (Z.of_nat (List.length seen') <= MAX_SEEN_IDS) by (apply H6; discriminate).
    lia.
Qed.

(** What a turn of the loop logs: the last message of its chat, and it
    stores the id of that very message. *)
Lemma processChat_new (account : string) (seen logged : list string) (chat : Chat) :
  NoDup seen ->
  (processChat account (seen, logged) chat = (seen, logged)) \/
  (exists msg i,
      chat_lastMessage chat = Some msg /\ cm_id msg = Some i /\
      i <> EmptyString /\ ~ In i seen /\
      processChat account (seen, logged) chat =
        (skipn (Z.to_nat (Z.of_nat (List.length seen) + 1 - MAX_SEEN_IDS))
           (seen ++ [i])%list,
         (logged ++ [logLine account chat msg])%list)).
Proof.
  intros Hnd. unfold processChat.
  destruct (chat_lastMessage chat) as [msg|]; [|now left].
  destruct (cm_id msg) as [i|] eqn:Eid; [|now left].
  destruct (String.eqb i EmptyString) eqn:Ei; [now left|].
  cbn [orb]. destruct (setHas i seen) eqn:Eh; [now left|].
  right. exists msg, i. apply setHas_false in Eh. apply String.eqb_neq in Ei.
  split; [reflexivity|]. split; [exact Eid|]. split; [exact Ei|]. split; [exact Eh|].
  unfold setAdd. rewrite (proj2 (setHas_false i seen) Eh).
  rewrite capSeen_skipn by (now apply NoDup_snoc).
  rewrite length_app. cbn [List.length].
  do 3 f_equal. lia.
Qed.

(** The messages that a poll logs, chat by chat, and what becomes of
    their ids. *)
Lemma pollFold_logged (account : string) (chats : list Chat) :
  forall seen logged,
    NoDup seen ->
    exists seen' (news : list (Chat * ChatMessage * string)) dropped,
      fold_left (processChat account) chats (seen, logged)
        = (seen',
           (logged ++ map (fun new => logLine account (fst (fst new)) (snd (fst new))) news)%list)
      /\
      Forall (fun new =>
                In (fst (fst new)) chats /\
                chat_lastMessage (fst (fst new)) = Some (snd (fst new)) /\
                cm_id (snd (fst new)) = Some (snd new) /\
                snd new <> EmptyString) news /\
      (seen ++ map snd news)%list = (dropped ++ seen')%list.
Proof.
  induction chats as [|chat chats IH]; intros seen logged Hnd.
  - exists seen, [], []. cbn [fold_left map]. rewrite !app_nil_r.
    split; [reflexivity|]. split; [constructor | reflexivity].
  - cbn [fold_left].
    destruct (processChat_new account seen logged chat Hnd)
      as [Hsame | (msg & i & Hmsg & Hid & Hne & Hnew & Hstep)].
    + rewrite Hsame. destruct (IH seen logged Hnd) as (seen' & news & dropped & Hf & Hall & Hids).
      exists seen', news, dropped. split; [exact Hf|]. split; [|exact Hids].
      eapply Forall_impl; [|exact Hall]. intros new (H1 & H2). split; [now right | exact H2].
    + rewrite Hstep.
      set (k := Z.to_nat (Z.of_nat (List.length seen) + 1 - MAX_SEEN_IDS)) in *.
      set (mid := skipn k (seen ++ [i])%list) in *.
      assert (Hmid : NoDup mid) by (apply NoDup_skipn; now apply NoDup_snoc).
      destruct (IH mid (logged ++ [logLine account chat msg])%list Hmid)
        as (seen' & news & dropped & Hf & Hall & Hids).
      exists seen', ((chat, msg, i) :: news)%list, (firstn k (seen ++ [i]) ++ dropped)%list.
      rewrite Hf, <- !app_assoc. cbn [app map fst snd].
      split; [reflexivity|]. split.
      * constructor.
        -- cbn [fst snd]. split; [now left|]. auto.
        -- eapply Forall_impl; [|exact Hall].
           intros new (H1 & H2). split; [now right | exact H2].
      * rewrite <- Hids. change (seen ++ i :: map snd news)%list
          with (seen ++ [i] ++ map snd news)%list.
        rewrite app_assoc, <- (firstn_skipn k (seen ++ [i])%list) at 1.
        fold mid. now rewrite <- app_assoc.
Qed.

(** X19: a poll forgets only the oldest ids.  The lines it logs are the
    lines of the last messages of some of its chats, in order, each with
    an id that is not empty; and the ids seen before the poll, followed
    by the ids of exactly these messages, are the ids the poll dropped
    followed by the ids it keeps, in the same order. *)
Theorem pollChats_drops_oldest (account : string) (chats : list Chat) (seen : list string) :
  NoDup seen ->
  let seen' := fst (pollChats account chats seen) in
  let lines := snd (pollChats account chats seen) in
  exists (news : list (Chat * ChatMessage * string)) dropped,
    Forall (fun new =>
              In (fst (fst new)) chats /\
              chat_lastMessage (fst (fst new)) = Some (snd (fst new)) /\
              cm_id (snd (fst new)) = Some (snd new) /\
              snd new <> EmptyString) news /\
    lines = map (fun new => logLine account (fst (fst new)) (snd (fst new))) news /\
    (seen ++ map snd news)%list = (dropped ++ seen')%list.
Proof.
  intros Hnd. cbv zeta. unfold pollChats.
  destruct (pollFold_logged account chats seen [] Hnd)
    as (seen' & news & dropped & Hf & Hall & Hids).
  rewrite Hf. cbn [fst snd app]. now exists news, dropped.
Qed.

(** A chat whose last message is already seen, or has no id, changes
    nothing. *)
Lemma processChat_seen (account : string) (seen logged : list string) (chat : Chat) :
  (forall i, lastMessageId chat = Some i -> In i seen) ->
  processChat account (seen, logged) chat = (seen, logged).
Proof.
  unfold processChat, lastMessageId. intros H.
  destruct (chat_lastMessage chat) as [msg|]; [|reflexivity].
  destruct (cm_id msg) as [i|]; [|reflexivity].
  destruct (String.eqb i EmptyString); [reflexivity|].
  cbn [orb]. now rewrite (proj2 (setHas_In i seen) (H i eq_refl)).
Qed.

Lemma pollChats_silent (account : string) (chats : list Chat) (seen : list string) :
  (forall chat i, In chat chats -> lastMessageId chat = Some i -> In i seen) ->
  pollChats account chats seen = (seen, []).
Proof.
  unfold pollChats. generalize (@nil string) as logged.
  induction chats as [|chat chats IH]; intros logged H; [reflexivity|].
  cbn [fold_left]. rewrite processChat_seen.
  - apply IH. intros c i Hc. apply H. now right.
  - intros i. apply H. now left.
Qed.

Lemma pollFold_room (account : string) (chats : list Chat) :
  forall seen logged,
    NoDup seen ->
    Z.of_nat (List.length seen + List.length chats) <= MAX_SEEN_IDS ->
    exists seen',
      fst (fold_left (processChat account) chats (seen, logged)) = seen' /\
      incl seen seen' /\
      (forall chat i, In chat chats -> lastMessageId chat = Some i -> In i seen').
Proof.
  induction chats as [|chat chats IH]; intros seen logged Hnd Hroom.
  - exists seen. split; [reflexivity|]. split; [apply incl_refl|]. intros ? ? [].
  - cbn [fold_left]. cbn [List.length] in Hroom.
    destruct (processChat_step account seen logged chat Hnd)
      as [[Hsame Hin] | (i & msg & Hid & Hnew & Hstep)].
    + rewrite Hsame. destruct (IH seen logged Hnd) as (seen' & Hf & Hincl & Hall); [lia|].
      exists seen'. split; [exact Hf|]. split; [exact Hincl|].
      intros c j [<- | Hc] Hj; [apply Hincl; now apply Hin | eapply Hall; eassumption].
    + rewrite Hstep.
      replace (Z.to_nat (Z.of_nat (List.length seen) + 1 - MAX_SEEN_IDS)) with 0%nat by lia.
      cbn [skipn].
      destruct (IH (seen ++ [i])%list (logged ++ [logLine account chat msg])%list)
        as (seen' & Hf & Hincl & Hall).
      * now apply NoDup_snoc.
      * rewrite length_app. cbn [List.length]. lia.
      * exists seen'. split; [exact Hf|]. split.
        -- intros x Hx. apply Hincl, in_or_app. now left.
        -- intros c j [<- | Hc] Hj; [|eapply Hall; eassumption].
           rewrite Hid in Hj. injection Hj as <-.
           apply Hincl, in_or_app. right. now left.
Qed.

(** X20: while the seen ids have room for every chat of a poll, nothing
    is forgotten and nothing is replayed: the ids seen before the poll
    are still seen after it, and a second poll over the same chats logs
    nothing and changes nothing. *)
Theorem pollChats_no_replay (account : string) (chats : list Chat) (seen : list string) :
  NoDup seen ->
  Z.of_nat (List.length seen + List.length chats) <= 5000 ->
  let seen' := fst (pollChats account chats seen) in
  incl seen seen' /\
  pollChats account chats seen' = (seen', []).
Proof.
  intros Hnd Hroom. cbv zeta.
  destruct (pollFold_room account chats seen [] Hnd Hroom) as (seen' & Hf & Hincl & Hall).
  assert (Heq : fst (pollChats account chats seen) = seen') by exact Hf.
  rewrite Heq. split; [exact Hincl|]. now apply pollChats_silent.
Qed.

Lemma seedFold_keeps (chats : list Chat) :
  forall acc x, In x acc ->
    In x (fold_left
            (fun seen chat =>
               match lastMessageId chat with
               | Some i => setAdd i seen
               | None => seen
               end) chats acc).
Proof.
  induction chats as [|chat chats IH]; intros acc x Hx; [exact Hx|].
  cbn [fold_left]. apply IH. destruct (lastMessageId chat) as [i|]; [|exact Hx].
  unfold setAdd. destruct (setHas i acc); [exact Hx | apply in_or_app; now left].
Qed.

Lemma seedFold_covers (chats : list Chat) :
  forall acc chat i,
    In chat chats -> lastMessageId chat = Some i ->
    In i (fold_left
            (fun seen chat =>
               match lastMessageId chat with
               | Some i => setAdd i seen
               | None => seen
               end) chats acc).
Proof.
  induction chats as [|c chats IH]; intros acc chat i Hin Hid; [contradiction|].
  cbn [fold_left]. destruct Hin as [-> | Hin]; [|eapply IH; eassumption].
  apply seedFold_keeps. rewrite Hid. unfold setAdd.
  destruct (setHas i acc) eqn:E; [now apply setHas_In | apply in_or_app; right; now left].
Qed.

Lemma seedFold_NoDup (chats : list Chat) :
  forall acc, NoDup acc ->
    NoDup (fold_left
             (fun seen chat =>
                match lastMessageId chat with
                | Some i => setAdd i seen
                | None => seen
                end) chats acc).
Proof.
  induction chats as [|c chats IH]; intros acc Hnd; [exact Hnd|].
  cbn [fold_left]. apply IH. destruct (lastMessageId c) as [i|]; [|exact Hnd].
  unfold setAdd. destruct (setHas i acc) eqn:E; [exact Hnd|].
  apply NoDup_snoc; [exact Hnd | now apply setHas_false].
Qed.

(** X21: seeding keeps history from being replayed: after the seen ids
    are seeded from the current chats, a poll that finds the same chats
    logs nothing and leaves the seen ids as they are, however many
    chats there are. *)
Theorem seeded_poll_is_silent (account : string) (chats : list Chat) :
  NoDup (seedSeen chats) /\
  pollChats account chats (seedSeen chats) = (seedSeen chats, []).
Proof.
  split.
  - apply seedFold_NoDup. constructor.
  - apply pollChats_silent. intros chat i. apply seedFold_covers.
Qed.

Lemma In_skipn {A : Type} (k : nat) (l : list A) (x : A) : In x (skipn k l) -> In x l.
Proof.
  intros H. rewrite <- (firstn_skipn k l). apply in_or_app. now right.
Qed.

Lemma capSeen_recent (s : list string) :
  NoDup s -> capSeen s = skipn (List.length s - Z.to_nat MAX_SEEN_IDS) s.
Proof.
  intros Hnd. rewrite capSeen_skipn by exact Hnd. f_equal.
  pose proof MAX_SEEN_IDS_nonneg. lia.
Qed.

(** Keeping the most recent [m] entries commutes with adding one. *)
Lemma recent_snoc {A : Type} (m : nat) (l : list A) (x : A) :
  (1 <= m)%nat ->
  skipn (List.length (skipn (List.length l - m) l ++ [x]) - m)
    (skipn (List.length l - m) l ++ [x])
  = skipn (List.length (l ++ [x]) - m) (l ++ [x]).
Proof.
  intros Hm. rewrite !length_app, length_skipn. cbn [List.length].
  destruct (Nat.le_gt_cases (List.length l) m) as [Hle | Hgt].
  - replace (List.length l - m)%nat with 0%nat by lia. cbn [skipn].
    now replace (List.length l - 0 + 1 - m)%nat with (List.length l + 1 - m)%nat by lia.
  - replace (List.length l - (List.length l - m) + 1 - m)%nat with 1%nat by lia.
    rewrite !skipn_app.
    replace (1 - List.length (skipn (List.length l - m) l))%nat with 0%nat
      by (rewrite length_skipn; lia).
    replace (List.length l + 1 - m - List.length l)%nat with 0%nat by lia.
    rewrite skipn_skipn. do 2 f_equal. lia.
Qed.

(** A poll over chats with pairwise distinct ids, none of which is
    among the seen ids when its turn comes, logs every chat and ends
    with the most recent ids. *)
Lemma pollFold_window (account : string) (ids base : list string) :
  (forall done x rest,
      ids = (done ++ x :: rest)%list ->
      ~ In x (skipn (List.length (base ++ done) - Z.to_nat MAX_SEEN_IDS) (base ++ done))) ->
  forall chats rest done logged seen,
    ids = (done ++ rest)%list ->
    map lastMessageId chats = map Some rest ->
    NoDup seen ->
    seen = skipn (List.length (base ++ done) - Z.to_nat MAX_SEEN_IDS) (base ++ done) ->
    exists lines,
      fold_left (processChat account) chats (seen, logged)
        = (skipn (List.length (base ++ ids) - Z.to_nat MAX_SEEN_IDS) (base ++ ids),
           (logged ++ lines)%list) /\
      List.length lines = List.length chats.
Proof.
  intros Hfresh. induction chats as [|chat chats IH];
    intros rest done logged seen Hids Hmap Hnd Hseen.
  - destruct rest; [|discriminate]. rewrite app_nil_r in Hids. subst done.
    exists []. cbn [fold_left]. rewrite app_nil_r. now subst seen.
  - destruct rest as [|x rest]; [discriminate|].
    cbn [map] in Hmap. injection Hmap as Hid Hmap.
    cbn [fold_left].
    destruct (processChat_step account seen logged chat Hnd)
      as [[_ Hin] | (i & msg & Hid' & Hnew & Hstep)].
    + exfalso. apply (Hfresh done x rest Hids). rewrite <- Hseen. now apply Hin.
    + rewrite Hid in Hid'. injection Hid' as <-. rewrite Hstep.
      set (next := skipn (Z.to_nat (Z.of_nat (List.length seen) + 1 - MAX_SEEN_IDS))
                     (seen ++ [x])%list).
      assert (Hnext : next = skipn (List.length (base ++ (done ++ [x])) - Z.to_nat MAX_SEEN_IDS)
                               (base ++ (done ++ [x]))%list).
      { subst next. rewrite !app_assoc.
        rewrite <- (recent_snoc (Z.to_nat MAX_SEEN_IDS) (base ++ done) x)
          by (unfold MAX_SEEN_IDS; lia).
        rewrite <- Hseen. f_equal. rewrite length_app. cbn [List.length].
        pose proof MAX_SEEN_IDS_nonneg. lia. }
      destruct (IH rest (done ++ [x])%list (logged ++ [logLine account chat msg])%list next)
        as (lines & Hf & Hlen).
      * now rewrite <- app_assoc.
      * exact Hmap.
      * subst next. apply NoDup_skipn. now apply NoDup_snoc.
      * exact Hnext.
      * exists (logLine account chat msg :: lines)%list.
        rewrite Hf, <- app_assoc. cbn [app List.length]. split; [reflexivity | lia].
Qed.

(** X22: beyond the cap the polling replays: when the chats carry
    pairwise distinct message ids and number more than [MAX_SEEN_IDS],
    a poll that starts with nothing seen logs every chat and keeps the
    5000 most recent ids, and every poll over the same chats from there
    on logs every chat again and ends with the same ids. *)
Theorem pollChats_replays_beyond_cap
  (account : string) (chats : list Chat) (ids : list string) :
  map lastMessageId chats = map Some ids ->
  NoDup ids ->
  5000 < Z.of_nat (List.length chats) ->
  let recent := skipn (List.length ids - Z.to_nat 5000) ids in
  fst (pollChats account chats []) = recent /\
  List.length (snd (pollChats account chats [])) = List.length chats /\
  fst (pollChats account chats recent) = recent /\
  List.length (snd (pollChats account chats recent)) = List.length chats.
Proof.
  intros Hmap Hnd Hmany. cbv zeta. fold MAX_SEEN_IDS.
  assert (Hlen : List.length ids = List.length chats).
  { apply (f_equal (@List.length _)) in Hmap. now rewrite !length_map in Hmap. }
  assert (Hfirst : exists lines,
             pollChats account chats []
             = (skipn (List.length ids - Z.to_nat MAX_SEEN_IDS) ids, lines) /\
             List.length lines = List.length chats).
  { destruct (pollFold_window account ids [] ) with
      (chats := chats) (rest := ids) (done := @nil string) (logged := @nil string)
      (seen := @nil string) as (lines & Hf & Hl); auto.
    - intros done x rest Hids Hin. cbn [app] in Hin. apply In_skipn in Hin.
      rewrite Hids in Hnd. apply NoDup_remove_2 in Hnd. apply Hnd.
      apply in_or_app. now left.
    - constructor.
    - exists lines. unfold pollChats. now rewrite Hf. }
  assert (Hagain : exists lines,
             pollChats account chats (skipn (List.length ids - Z.to_nat MAX_SEEN_IDS) ids)
             = (skipn (List.length ids - Z.to_nat MAX_SEEN_IDS) ids, lines) /\
             List.length lines = List.length chats).
  { destruct (pollFold_window account ids ids) with
      (chats := chats) (rest := ids) (done := @nil string) (logged := @nil string)
      (seen := skipn (List.length ids - Z.to_nat MAX_SEEN_IDS) ids)
      as (lines & Hf & Hl); auto.
    - intros done x rest Hids Hin.
      assert (Hsplit : (ids ++ done)%list = ((done ++ [x]) ++ (rest ++ done))%list).
      { rewrite Hids at 1. now rewrite <- !app_assoc. }
      assert (Hk : (List.length (done ++ [x])
                    <= List.length (ids ++ done) - Z.to_nat MAX_SEEN_IDS)%nat).
      { rewrite !length_app. cbn [List.length]. unfold MAX_SEEN_IDS. lia. }
      remember (List.length (ids ++ done) - Z.to_nat MAX_SEEN_IDS)%nat as k.
      rewrite Hsplit, skipn_app, (skipn_all2 _ Hk) in Hin.
      cbn [app] in Hin. apply In_skipn in Hin.
      rewrite Hids in Hnd. apply NoDup_remove_2 in Hnd. apply Hnd.
      apply in_app_or in Hin. apply in_or_app. tauto.
    - now apply NoDup_skipn.
    - now rewrite app_nil_r.
    - exists lines. unfold pollChats. rewrite Hf. split; [|exact Hl].
      f_equal. rewrite length_app, skipn_app.
      rewrite skipn_all2 by (unfold MAX_SEEN_IDS; lia).
      cbn [app]. f_equal. unfold MAX_SEEN_IDS. lia. }
  destruct Hfirst as (l1 & -> & Hl1). destruct Hagain as (l2 & -> & Hl2).
  cbn [fst snd]. auto.
Qed.

End PollingFacts.

(** * The further theorems at work on samples *)

(** A depth that differs from [quick] in case is the standard depth. *)
Lemma diagnoseExecute_depth_witness :
  Textual Sample.service /\
  stringParam "problem" (Sample.params "Quick") = Some "  Build failed: tsc  " /\
  trim "  Build failed: tsc  " <> EmptyString /\
  exists res w',
    diagnoseExecute Sample.clock Sample.service (Sample.params "Quick") Sample.start
      = inr (PayloadResult res, w') /\
    problem res = "Build failed: tsc" /\
    List.length (stagesRun res) = 3%nat.
Proof.
  assert (Hne : trim "  Build failed: tsc  " <> EmptyString) by (vm_compute; discriminate).
  split; [exact Sample_service_textual|]. split; [reflexivity|]. split; [exact Hne|].
  destruct (diagnoseExecute_depth nat Sample.clock Sample.service (Sample.params "Quick")
              "  Build failed: tsc  " Sample.start Sample_service_textual eq_refl Hne)
    as (res & w' & Hrun & Hprob & _ & Hlen).
  exists res, w'. split; [exact Hrun|]. split; [exact Hprob | exact Hlen].
Defined.

Lemma specialistExecute_calls_witness :
  (forall k, In k (map fst DemoTools.specialists) -> ~ In k Js.objectPrototypeKeys) /\
  fst (specialistExecute Sample.service DemoTools.specialists
         DemoTools.specialistParams Sample.start) <> SpecialistIllTyped /\
  Forall (fun c => In (call_model c) (map model PIPELINE_STAGES))
    (newCalls Sample.start
       (snd (specialistExecute Sample.service DemoTools.specialists
               DemoTools.specialistParams Sample.start))).
Proof.
  assert (Hwf : forall k, In k (map fst DemoTools.specialists) ->
                          ~ In k Js.objectPrototypeKeys).
  { intros k [<- | []] Hin. simpl in Hin. intuition discriminate. }
  split; [exact Hwf|].
  destruct (specialistExecute_calls nat Sample.service DemoTools.specialists
              DemoTools.specialistParams Sample.start Hwf)
    as (Hty & _ & Hcalls & _).
  split; [exact Hty|]. apply Forall_forall. intros c Hc. now apply Hcalls.
Defined.


(** A blank model is refused before the prompt is looked at. *)
Lemma ollamaDirectExecute_calls_witness :
  trimmedParam "model" DemoTools.blankParams = EmptyString /\
  trimmedParam "prompt" DemoTools.blankParams = EmptyString /\
  fst (ollamaDirectExecute Sample.service DemoTools.blankParams Sample.start)
    = ToolError "model is required." /\
  snd (ollamaDirectExecute Sample.service DemoTools.blankParams Sample.start)
    = Sample.start.
Proof.
  split; [reflexivity|]. split; [reflexivity|].
  destruct (ollamaDirectExecute_calls nat Sample.service DemoTools.blankParams Sample.start)
    as (Hmodel & _).
  destruct (Hmodel eq_refl) as (Hout & Hw & _). split; [exact Hout | exact Hw].
Defined.

(** A configured server is kept, an empty agent name is replaced by the
    default. *)
Lemma resolvePluginConfig_defaults_witness :
  ollamaUrl (snd (resolvePluginConfig (Some DemoTools.pluginConfig)))
    = "http://10.0.0.5:11434" /\
  sc_agentName (fst (resolvePluginConfig (Some DemoTools.pluginConfig)))
    = "openclaw-agent".
Proof.
  destruct (resolvePluginConfig_defaults (Some DemoTools.pluginConfig))
    as (_ & (_ & Hname & _) & _ & (Hurl & _) & _).
  split.
  - apply Hurl; [reflexivity | discriminate].
  - apply Hname. intros s [= <-]. reflexivity.
Defined.

(** A limit of 200 is cut down to 50. *)
Lemma searchArguments_bounds_witness :
  searchArguments DemoTools.searchParams = inr ("lo-fi", 50%Q) /\
  (2 <= String.length "lo-fi")%nat /\
  (1 <= 50)%Q /\ (50 <= 50)%Q.
Proof.
  split; [reflexivity|].
  destruct (searchArguments_bounds DemoTools.searchParams "lo-fi" 50%Q eq_refl)
    as (Hlen & _ & Hlow & Hhigh & _).
  auto.
Defined.

Lemma padded_id_is_recognised_witness :
  Js.allChars isSpace "  " = true /\
  Js.allChars isSpace LF = true /\
  Channel.matchHexTimes 24 "0123456789abcdefABCDEF01" = true /\
  Channel.normalizeTarget ("  " ++ "0123456789abcdefABCDEF01" ++ LF)
    = "0123456789abcdefABCDEF01" /\
  Channel.looksLikeId ("  " ++ "0123456789abcdefABCDEF01" ++ LF) = true.
Proof.
  split; [reflexivity|]. split; [reflexivity|]. split; [reflexivity|].
  exact (ChannelFacts.padded_id_is_recognised "  " "0123456789abcdefABCDEF01" LF
           eq_refl eq_refl eq_refl).
Defined.

Lemma NoDup_one (x : string) : NoDup [x].
Proof. constructor; [intros [] | constructor]. Defined.

Lemma pollChats_bounds_witness :
  NoDup ["m0"] /\
  NoDup (fst (Channel.pollChats "default" DemoTools.chats ["m0"])) /\
  (List.length (snd (Channel.pollChats "default" DemoTools.chats ["m0"])) <= 3)%nat.
Proof.
  split; [apply NoDup_one|].
  destruct (PollingFacts.pollChats_bounds "default" DemoTools.chats ["m0"] (NoDup_one "m0"))
    as (Hnd & Hlen & _).
  split; [exact Hnd | exact Hlen].
Defined.

(** Two new messages and one that repeats the first: two lines, and the
    ids of the two messages join the seen ids. *)
Lemma pollChats_drops_oldest_witness :
  NoDup ["m0"] /\
  exists (news : list (Channel.Chat * Channel.ChatMessage * string)) dropped,
    snd (Channel.pollChats "default" DemoTools.chats ["m0"])
      = map (fun new => Channel.logLine "default" (fst (fst new)) (snd (fst new))) news /\
    (["m0"] ++ map snd news)%list
      = (dropped ++ fst (Channel.pollChats "default" DemoTools.chats ["m0"]))%list /\
    fst (Channel.pollChats "default" DemoTools.chats ["m0"]) = ["m0"; "m1"; "m2"].
Proof.
  split; [apply NoDup_one|].
  destruct (PollingFacts.pollChats_drops_oldest "default" DemoTools.chats ["m0"]
              (NoDup_one "m0")) as (news & dropped & _ & Hlines & Hids).
  exists news, dropped. split; [exact Hlines|]. split; [exact Hids | reflexivity].
Defined.

Lemma pollChats_no_replay_witness :
  NoDup ["m0"] /\
  Z.of_nat (List.length ["m0"] + List.length DemoTools.chats) <= 5000 /\
  Channel.pollChats "default" DemoTools.chats
    (fst (Channel.pollChats "default" DemoTools.chats ["m0"]))
  = (fst (Channel.pollChats "default" DemoTools.chats ["m0"]), []).
Proof.
  assert (Hroom : Z.of_nat (List.length ["m0"] + List.length DemoTools.chats) <= 5000)
    by (simpl; lia).
  split; [apply NoDup_one|]. split; [exact Hroom|].
  destruct (PollingFacts.pollChats_no_replay "default" DemoTools.chats ["m0"]
              (NoDup_one "m0") Hroom) as [_ Hsilent].
  exact Hsilent.
Defined.

Lemma ofNat_inj (a b : nat) : ofNat a = ofNat b -> a = b.
Proof.
  unfold ofNat. intros H.
  apply (f_equal NilEmpty.uint_of_string) in H. rewrite !NilEmpty.usu in H.
  injection H as H. apply (f_equal Nat.of_uint) in H.
  now rewrite !DecimalNat.Unsigned.of_to in H.
Defined.

Lemma manyIds_NoDup : NoDup DemoTools.manyIds.
Proof.
  unfold DemoTools.manyIds. apply NoDup_map_NoDup_ForallPairs; [|apply seq_NoDup].
  intros a b _ _ H. injection H as H. now apply ofNat_inj.
Defined.

Lemma manyChats_ids :
  map Channel.lastMessageId DemoTools.manyChats = map Some DemoTools.manyIds.
Proof.
  unfold DemoTools.manyChats, DemoTools.manyIds. rewrite !map_map.
  apply map_ext. intros n. reflexivity.
Defined.

Lemma manyChats_length : 5000 < Z.of_nat (List.length DemoTools.manyChats).
Proof.
  unfold DemoTools.manyChats, DemoTools.manyIds.
  rewrite !length_map, length_seq. lia.
Defined.

(** With 5001 chats every poll logs all of them. *)
Lemma pollChats_replays_beyond_cap_witness :
  map Channel.lastMessageId DemoTools.manyChats = map Some DemoTools.manyIds /\
  NoDup DemoTools.manyIds /\
  5000 < Z.of_nat (List.length DemoTools.manyChats) /\
  List.length
    (snd (Channel.pollChats "default" DemoTools.manyChats
            (skipn (List.length DemoTools.manyIds - Z.to_nat 5000) DemoTools.manyIds)))
  = List.length DemoTools.manyChats.
Proof.
  split; [exact manyChats_ids|]. split; [exact manyIds_NoDup|].
  split; [exact manyChats_length|].
  destruct (PollingFacts.pollChats_replays_beyond_cap "default" DemoTools.manyChats
              DemoTools.manyIds manyChats_ids manyIds_NoDup manyChats_length)
    as (_ & _ & _ & Hall).
  exact Hall.
Defined.

(** * The digest and the classifier, once more *)

(** X23: the summary of prior results shows at most the first 500
    characters of each response: prior results that agree in role, in
    model and in the first 500 characters of their response texts (or
    both have none) give the same outcome of [buildStagePrompt] for the
    same stage and context, the same prompt or the same exception. *)
Theorem buildStagePrompt_reads_500 (stage : PipelineStage) (context : string)
  (rs1 rs2 : list StageResult) :
  Forall2 (fun a b =>
             r_role a = r_role b /\ r_model a = r_model b /\
             option_map (slice0 500) (responseText (r_response a))
               = option_map (slice0 500) (responseText (r_response b)))
    rs1 rs2 ->
  buildStagePrompt stage context rs1 = buildStagePrompt stage context rs2.
Proof.
  intros H. rewrite !buildStagePrompt_shape.
  assert (Hmap : map summaryLine rs1 = map summaryLine rs2).
  { induction H as [|a b rs1 rs2 (Hr & Hm & Ht) _ IH]; simpl; [reflexivity|].
    rewrite IH. f_equal. unfold summaryLine. rewrite Hr, Hm.
    destruct (responseText (r_response a)) as [ta|], (responseText (r_response b)) as [tb|];
      cbn [option_map] in *; try discriminate; [|reflexivity].
    replace (slice0 500 tb) with (slice0 500 ta) by congruence. reflexivity. }
  destruct H as [|a b rs1 rs2 _ _]; [reflexivity|].
  unfold priorSection. now rewrite Hmap.
Qed.

Lemma buildStagePrompt_reads_500_witness :
  Forall2 (fun a b =>
             r_role a = r_role b /\ r_model a = r_model b /\
             option_map (slice0 500) (responseText (r_response a))
               = option_map (slice0 500) (responseText (r_response b)))
    [Sample.priorResult]
    [{| r_stage := "other"; r_model := "falcon:7b"; r_role := "Syntax Specialist";
        r_chemistry := "none"; r_response := JObj [("response", JStr "done"); ("done", JBool true)];
        r_durationMs := 99 |}] /\
  buildStagePrompt Sample.stage "Build failed" [Sample.priorResult]
  = buildStagePrompt Sample.stage "Build failed"
      [{| r_stage := "other"; r_model := "falcon:7b"; r_role := "Syntax Specialist";
          r_chemistry := "none"; r_response := JObj [("response", JStr "done"); ("done", JBool true)];
        r_durationMs := 99 |}].
Proof.
  assert (H : Forall2 (fun a b =>
                r_role a = r_role b /\ r_model a = r_model b /\
                option_map (slice0 500) (responseText (r_response a))
                  = option_map (slice0 500) (responseText (r_response b)))
              [Sample.priorResult]
              [{| r_stage := "other"; r_model := "falcon:7b";
                  r_role := "Syntax Specialist"; r_chemistry := "none";
                  r_response := JObj [("response", JStr "done"); ("done", JBool true)];
        r_durationMs := 99 |}]).
  { constructor; [|constructor]. split; [reflexivity|]. split; reflexivity. }
  split; [exact H|].
  exact (buildStagePrompt_reads_500 Sample.stage "Build failed" _ _ H).
Defined.

Lemma toLowerCase_append (a b : string) :
  toLowerCase (a ++ b) = toLowerCase a ++ toLowerCase b.
Proof. induction a as [|c a IH]; simpl; [reflexivity | now rewrite IH]. Qed.

Lemma Contains_toLowerCase (k s : string) :
  Contains k s -> Contains (toLowerCase k) (toLowerCase s).
Proof.
  intros (pre & post & ->). exists (toLowerCase pre), (toLowerCase post).
  now rewrite !toLowerCase_append.
Qed.

Lemma firstMatch_after (lower : string) (c : ErrorCategory) (keywords : list string)
  (before after : list (ErrorCategory * list string)) :
  (forall c' keywords' k,
      In (c', keywords') before -> In k keywords' -> ~ Contains k lower) ->
  ClassifierRel.Matches lower keywords ->
  ClassifierSpec.firstMatch lower (before ++ (c, keywords) :: after)%list = c.
Proof.
  intros Hnone Hhit. induction before as [|[c' kws'] before IH]; simpl.
  - apply matchesAny_spec in Hhit. now rewrite Hhit.
  - destruct (ClassifierSpec.matchesAny lower kws') eqn:E.
    + apply matchesAny_spec in E. destruct E as (k & Hk & Hocc).
      exfalso. apply (Hnone c' kws' k); auto. now left.
    + apply IH. intros c2 kws2 k Hin. apply (Hnone c2 kws2 k). now right.
Qed.

(** X24: a keyword counts in any letter case and wherever it stands:
    when the text contains, in any mix of upper and lower case, a
    keyword of some row of the table, and no keyword of an earlier row
    occurs in it, the text is classified with that row's category; so a
    syntax keyword decides the category whatever else the text holds. *)
Theorem keyword_in_any_case_decides
  (s occurrence : string) (c : ErrorCategory) (keywords : list string)
  (before after : list (ErrorCategory * list string)) :
  ClassifierSpec.keywordTable = (before ++ (c, keywords) :: after)%list ->
  Contains occurrence s ->
  In (toLowerCase occurrence) keywords ->
  (forall c' keywords' k,
      In (c', keywords') before -> In k keywords' -> ~ Contains k (toLowerCase s)) ->
  classifyError s = c.
Proof.
  intros Htable Hocc Hkey Hnone.
  rewrite classifyError_table. unfold ClassifierSpec.classify. rewrite Htable.
  apply firstMatch_after; [exact Hnone|].
  exists (toLowerCase occurrence). split; [exact Hkey|].
  now apply Contains_toLowerCase.
Qed.

Lemma keyword_in_any_case_decides_witness :
  Contains "JSX" "Build failed: unexpected JSX in module" /\
  classifyError "Build failed: unexpected JSX in module" = syntax.
Proof.
  assert (Hocc : Contains "JSX" "Build failed: unexpected JSX in module").
  { exists "Build failed: unexpected ", " in module". reflexivity. }
  split; [exact Hocc|].
  apply (keyword_in_any_case_decides "Build failed: unexpected JSX in module" "JSX"
           syntax
           ["unexpected token"; "unterminated"; "missing >"; "jsx"; "parsing error"]
           [] (tl ClassifierSpec.keywordTable) eq_refl Hocc).
  - simpl. tauto.
  - intros c' keywords' k [].
Defined.

